(** * The download-manager core, embedded in Rocq

    A shallow embedding of the Python sources
    [core/download_task.py], [core/download_engine.py],
    [core/download_manager.py], [core/scheduler.py],
    [database/db_manager.py], [filesystem/file_manager.py] and
    [network/http_client.py], followed by the properties established
    about them.

    Conventions.
    - Python [int] is [Z]; [//] on a positive divisor is [Z.div].
    - Python [float] (timestamps, speeds) is a rational [Q]: every finite
      float is one, and [<], [<=] on finite floats agree with [Qlt], [Qle].
      A scheduled time is a float that a caller supplies: it is a
      [Py.float], a rational or NaN, which no comparison orders.
      Arithmetic on timestamps, speeds and percentages is that of the
      rationals; the product of the disk-space check, which decides by
      the last bit, is rounded as a double is ([Py.double_of]).
    - [Optional[T]] is [option T]; a [dict] is a [gmap]; a [list] is a [list].
    - A method that mutates [self] returns the updated record; where objects
      are shared between containers (the manager's registry, the queue, the
      scheduler's heap) the tasks live in a store of objects and the
      containers hold references.
    - What comes from outside the repository (md5, urlparse, validators,
      the video detector, the settings file, the HTTP server) is a field of
      the class [Externals]. *)

From Stdlib Require Import ZArith QArith Lia Lqa Ascii String.
From stdpp Require Import gmap strings list sorting pretty.


(** ** Python values stored in dictionaries *)

Module Py.

(** A float that a caller supplies: a number or NaN. (An infinity
    compares with the readings of the clock like a number beyond them
    all, and is not told apart from one.) *)
Inductive float : Type :=
| Finite (q : Q)
| NaN.

Inductive value : Type :=
| None_
| Bool (b : bool)
| Int (z : Z)
| Float (q : Q)
| FloatNaN
| Str (s : string)
| Dict (d : gmap string string).

(** [x or y] on strings tests truthiness: [None] and [""] are falsy. *)
Definition truthy_str (o : option string) : bool :=
  match o with
  | Some s => negb (String.eqb s "")
  | None => false
  end.

(** Truthiness of an optional float: [None] and [0.0] are falsy, NaN is
    not. *)
Definition truthy_float (o : option float) : bool :=
  match o with
  | Some (Finite q) => negb (Qeq_bool q 0)
  | Some NaN => true
  | None => false
  end.

(** [a < b] and [a <= b] on finite floats. *)
Definition float_lt (a b : Q) : bool := negb (Qle_bool b a).
Definition float_le (a b : Q) : bool := Qle_bool a b.

(** The integer nearest to a rational, the even one of two that are
    equally near. *)
Definition round_half_even (q : Q) : Z :=
  let n := Qnum q in
  let d := Z.pos (Qden q) in
  let below := (n `div` d)%Z in
  let rest := (n `mod` d)%Z in
  if (2 * rest <? d)%Z then below
  else if (d <? 2 * rest)%Z then (below + 1)%Z
  else if Z.even below then below else (below + 1)%Z.

(** The double nearest to a positive rational: 53 significant bits, ties
    to the even one. (For the magnitudes of file sizes: no overflow and
    no subnormal numbers.) *)
Definition double_of_positive (q : Q) : Q :=
  let k := (Z.log2 (Qnum q) - Z.log2 (Z.pos (Qden q)))%Z in
  let exponent := if Qle_bool (Qpower 2 k) q then k else (k - 1)%Z in
  let ulp := Qpower 2 (exponent - 52) in
  Qred (inject_Z (round_half_even (q / ulp)) * ulp).

(** The double nearest to a rational: what [float(n)] is of an integer,
    and what an operation on doubles returns of its exact result. *)
Definition double_of (q : Q) : Q :=
  if Qeq_bool q 0 then 0%Q
  else if Qle_bool 0 q then double_of_positive q
  else Qopp (double_of_positive (Qopp q)).

(** [a * b] on doubles. *)
Definition float_mul (a b : Q) : Q := double_of (a * b).

(** [a < b], [a <= b] and [a == b] on floats: false when one is NaN. *)
Definition lt (a b : float) : bool :=
  match a, b with
  | Finite x, Finite y => float_lt x y
  | _, _ => false
  end.
Definition le (a b : float) : bool :=
  match a, b with
  | Finite x, Finite y => float_le x y
  | _, _ => false
  end.
Definition eqb (a b : float) : bool :=
  match a, b with
  | Finite x, Finite y => Qeq_bool x y
  | _, _ => false
  end.

(** [c in s] for a one-character [c]. *)
Fixpoint contains_char (c : Ascii.ascii) (s : string) : bool :=
  match s with
  | EmptyString => false
  | String a s' => if Ascii.eqb a c then true else contains_char c s'
  end.

(** Typed reads of a dictionary entry. [Some] is the value the Python
    expression yields; [None] stands for an exception ([KeyError]) or for
    a value outside the type the field is declared with. *)
Definition as_str (v : value) : option string :=
  match v with Str s => Some s | _ => None end.
Definition as_opt_str (v : value) : option (option string) :=
  match v with Str s => Some (Some s) | None_ => Some None | _ => None end.
Definition as_int (v : value) : option Z :=
  match v with Int z => Some z | _ => None end.
Definition as_bool (v : value) : option bool :=
  match v with Bool b => Some b | _ => None end.
Definition as_float (v : value) : option Q :=
  match v with Float q => Some q | Int z => Some (inject_Z z) | _ => None end.
Definition as_opt_float (v : value) : option (option Q) :=
  match v with
  | Float q => Some (Some q)
  | Int z => Some (Some (inject_Z z))
  | None_ => Some None
  | _ => None
  end.
Definition as_opt_float_nan (v : value) : option (option float) :=
  match v with
  | Float q => Some (Some (Finite q))
  | Int z => Some (Some (Finite (inject_Z z)))
  | FloatNaN => Some (Some NaN)
  | None_ => Some None
  | _ => None
  end.
Definition as_dict (v : value) : option (gmap string string) :=
  match v with Dict d => Some d | _ => None end.

(** [data[k]] *)
Definition getitem {A} (conv : value → option A) (data : gmap string value) (k : string)
  : option A :=
  data !! k ≫= conv.

(** [data.get(k, default)] *)
Definition get {A} (conv : value → option A) (data : gmap string value) (k : string)
    (default : A) : option A :=
  match data !! k with
  | Some v => conv v
  | None => Some default
  end.

Definition of_opt_str (o : option string) : value :=
  match o with Some s => Str s | None => None_ end.
Definition of_opt_float (o : option Q) : value :=
  match o with Some q => Float q | None => None_ end.
Definition of_opt_float_nan (o : option float) : value :=
  match o with Some (Finite q) => Float q | Some NaN => FloatNaN | None => None_ end.

(** What SQLite stores for a value bound to a column: a NaN is stored
    as [NULL]. *)
Definition sql_stored (v : value) : value :=
  match v with FloatNaN => None_ | _ => v end.

End Py.

(** ** External collaborators *)

(** What [video_detector.detect_video] returns when it recognises a URL. *)
Record VideoInfo := {
  vi_quality : option string;
  vi_direct_url : option string
}.

(** The entries of [config/settings.py] the core reads. *)
Record Settings := {
  max_threads_per_download : Z;
  max_concurrent_downloads : Z;
  enable_video_detection : bool;
  download_directory : string;
  category_directory : string → string
}.

(** The requests the HTTP client sends: a [HEAD], following redirects or
    not, and a [GET], with the bounds of its [Range: bytes=start-end]
    header when it carries one. *)
Inductive HttpRequest : Type :=
| HEAD (url : string) (allow_redirects : bool)
| GET (url : string) (range : option (Z * Z)).

(** The answer to [HEAD url] as [requests] presents it. *)
Record HeadResponse := {
  head_status_code : Z;
  head_final_url : string;
  head_content_length : option Z;
  head_accept_ranges : option string;
  head_content_type : option string;
  head_filename : option string;
  head_headers : gmap string string
}.

Class Externals := {
  (** [hashlib.md5(f"{url}{time.time()}".encode()).hexdigest()[:12]] *)
  md5_id : string → Q → string;
  (** [unquote(urlparse(url).path.split('/')[-1])]; [None] when it raises *)
  url_path_basename : string → option string;
  (** [validators.url] *)
  validators_url : string → bool;
  (** [VideoDetector.detect_video] *)
  detect_video : string → option VideoInfo;
  (** the global [settings] object *)
  settings : Settings;
  (** [json.dumps] and [json.loads] on a dictionary of strings *)
  json_dumps : gmap string string → string;
  json_loads : string → option (gmap string string);
  (** the reading of [time.time()] at its n-th call: seconds since the
      epoch, never a time before it *)
  clock : nat → Q;
  clock_after_epoch : ∀ n, (0 <= clock n)%Q;
  (** [tempfile.gettempdir()] *)
  gettempdir : string;
  (** free bytes on the volume of a path, [FileManager.get_available_space] *)
  available_space : string → Z;
  (** [chunk_size] of the HTTP client *)
  chunk_size : Z;
  (** the server: the answer to [HEAD url], following redirects or not
      ([None]: the request fails), and the body sent for [GET url], without
      or with a
      [Range: bytes=start-end] header ([None]: the request fails) *)
  http_head : string → bool → option HeadResponse;
  http_get : string → option (Z * Z) → option (list Byte.byte)
}.

(** ** [core/download_task.py] *)

Inductive DownloadStatus : Type :=
| PENDING | DOWNLOADING | PAUSED | COMPLETED | ERROR | CANCELLED | QUEUED.

#[global] Instance DownloadStatus_eq_dec : EqDecision DownloadStatus.
Proof. solve_decision. Defined.

(** [status.value] *)
Definition status_value (s : DownloadStatus) : string :=
  match s with
  | PENDING => "pending"
  | DOWNLOADING => "downloading"
  | PAUSED => "paused"
  | COMPLETED => "completed"
  | ERROR => "error"
  | CANCELLED => "cancelled"
  | QUEUED => "queued"
  end.

(** [DownloadStatus(v)]: the member whose value is [v], [ValueError] otherwise. *)
Definition status_of_value (v : string) : option DownloadStatus :=
  if String.eqb v "pending" then Some PENDING
  else if String.eqb v "downloading" then Some DOWNLOADING
  else if String.eqb v "paused" then Some PAUSED
  else if String.eqb v "completed" then Some COMPLETED
  else if String.eqb v "error" then Some ERROR
  else if String.eqb v "cancelled" then Some CANCELLED
  else if String.eqb v "queued" then Some QUEUED
  else None.

Module DownloadPart.

Record t : Type := mk {
  part_number : Z;
  start_byte : Z;
  end_byte : Z;
  downloaded_bytes : Z;
  status : DownloadStatus;
  temp_file_path : option string
}.

(** [DownloadPart(n, s, e)] with the dataclass defaults. *)
Definition new (n s e : Z) : t :=
  {| part_number := n; start_byte := s; end_byte := e;
     downloaded_bytes := 0; status := PENDING; temp_file_path := None |}.

Definition set_downloaded_bytes (v : _) (x : t) : t :=
  {| part_number := part_number x; start_byte := start_byte x; end_byte := end_byte x; downloaded_bytes := v; status := status x; temp_file_path := temp_file_path x |}.

Definition set_status (v : _) (x : t) : t :=
  {| part_number := part_number x; start_byte := start_byte x; end_byte := end_byte x; downloaded_bytes := downloaded_bytes x; status := v; temp_file_path := temp_file_path x |}.

Definition set_temp_file_path (v : _) (x : t) : t :=
  {| part_number := part_number x; start_byte := start_byte x; end_byte := end_byte x; downloaded_bytes := downloaded_bytes x; status := status x; temp_file_path := v |}.

End DownloadPart.

Module DownloadTask.

Record t : Type := mk {
  id : string;
  url : string;
  filename : string;
  destination : option string;
  file_size : Z;
  downloaded_bytes : Z;
  status : DownloadStatus;
  created_at : Q;
  started_at : option Q;
  completed_at : option Q;
  error_message : option string;
  retry_count : Z;
  max_retries : Z;
  supports_range_requests : bool;
  parts : list DownloadPart.t;
  num_threads : Z;
  download_speed : Q;
  eta : Q;
  progress_percentage : Q;
  content_type : option string;
  headers : gmap string string;
  checksum : option string;
  is_video : bool;
  video_quality : option string;
  scheduled_time : option Py.float;
  priority : Z
}.

Definition set_url (v : _) (x : t) : t :=
  {| id := id x; url := v; filename := filename x; destination := destination x;
     file_size := file_size x; downloaded_bytes := downloaded_bytes x; status := status x; created_at := created_at x;
     started_at := started_at x; completed_at := completed_at x; error_message := error_message x; retry_count := retry_count x;
     max_retries := max_retries x; supports_range_requests := supports_range_requests x; parts := parts x; num_threads := num_threads x;
     download_speed := download_speed x; eta := eta x; progress_percentage := progress_percentage x; content_type := content_type x;
     headers := headers x; checksum := checksum x; is_video := is_video x; video_quality := video_quality x;
     scheduled_time := scheduled_time x; priority := priority x |}.

Definition set_filename (v : _) (x : t) : t :=
  {| id := id x; url := url x; filename := v; destination := destination x;
     file_size := file_size x; downloaded_bytes := downloaded_bytes x; status := status x; created_at := created_at x;
     started_at := started_at x; completed_at := completed_at x; error_message := error_message x; retry_count := retry_count x;
     max_retries := max_retries x; supports_range_requests := supports_range_requests x; parts := parts x; num_threads := num_threads x;
     download_speed := download_speed x; eta := eta x; progress_percentage := progress_percentage x; content_type := content_type x;
     headers := headers x; checksum := checksum x; is_video := is_video x; video_quality := video_quality x;
     scheduled_time := scheduled_time x; priority := priority x |}.

Definition set_destination (v : _) (x : t) : t :=
  {| id := id x; url := url x; filename := filename x; destination := v;
     file_size := file_size x; downloaded_bytes := downloaded_bytes x; status := status x; created_at := created_at x;
     started_at := started_at x; completed_at := completed_at x; error_message := error_message x; retry_count := retry_count x;
     max_retries := max_retries x; supports_range_requests := supports_range_requests x; parts := parts x; num_threads := num_threads x;
     download_speed := download_speed x; eta := eta x; progress_percentage := progress_percentage x; content_type := content_type x;
     headers := headers x; checksum := checksum x; is_video := is_video x; video_quality := video_quality x;
     scheduled_time := scheduled_time x; priority := priority x |}.

Definition set_file_size (v : _) (x : t) : t :=
  {| id := id x; url := url x; filename := filename x; destination := destination x;
     file_size := v; downloaded_bytes := downloaded_bytes x; status := status x; created_at := created_at x;
     started_at := started_at x; completed_at := completed_at x; error_message := error_message x; retry_count := retry_count x;
     max_retries := max_retries x; supports_range_requests := supports_range_requests x; parts := parts x; num_threads := num_threads x;
     download_speed := download_speed x; eta := eta x; progress_percentage := progress_percentage x; content_type := content_type x;
     headers := headers x; checksum := checksum x; is_video := is_video x; video_quality := video_quality x;
     scheduled_time := scheduled_time x; priority := priority x |}.

Definition set_downloaded_bytes (v : _) (x : t) : t :=
  {| id := id x; url := url x; filename := filename x; destination := destination x;
     file_size := file_size x; downloaded_bytes := v; status := status x; created_at := created_at x;
     started_at := started_at x; completed_at := completed_at x; error_message := error_message x; retry_count := retry_count x;
     max_retries := max_retries x; supports_range_requests := supports_range_requests x; parts := parts x; num_threads := num_threads x;
     download_speed := download_speed x; eta := eta x; progress_percentage := progress_percentage x; content_type := content_type x;
     headers := headers x; checksum := checksum x; is_video := is_video x; video_quality := video_quality x;
     scheduled_time := scheduled_time x; priority := priority x |}.

Definition set_status (v : _) (x : t) : t :=
  {| id := id x; url := url x; filename := filename x; destination := destination x;
     file_size := file_size x; downloaded_bytes := downloaded_bytes x; status := v; created_at := created_at x;
     started_at := started_at x; completed_at := completed_at x; error_message := error_message x; retry_count := retry_count x;
     max_retries := max_retries x; supports_range_requests := supports_range_requests x; parts := parts x; num_threads := num_threads x;
     download_speed := download_speed x; eta := eta x; progress_percentage := progress_percentage x; content_type := content_type x;
     headers := headers x; checksum := checksum x; is_video := is_video x; video_quality := video_quality x;
     scheduled_time := scheduled_time x; priority := priority x |}.

Definition set_started_at (v : _) (x : t) : t :=
  {| id := id x; url := url x; filename := filename x; destination := destination x;
     file_size := file_size x; downloaded_bytes := downloaded_bytes x; status := status x; created_at := created_at x;
     started_at := v; completed_at := completed_at x; error_message := error_message x; retry_count := retry_count x;
     max_retries := max_retries x; supports_range_requests := supports_range_requests x; parts := parts x; num_threads := num_threads x;
     download_speed := download_speed x; eta := eta x; progress_percentage := progress_percentage x; content_type := content_type x;
     headers := headers x; checksum := checksum x; is_video := is_video x; video_quality := video_quality x;
     scheduled_time := scheduled_time x; priority := priority x |}.

Definition set_completed_at (v : _) (x : t) : t :=
  {| id := id x; url := url x; filename := filename x; destination := destination x;
     file_size := file_size x; downloaded_bytes := downloaded_bytes x; status := status x; created_at := created_at x;
     started_at := started_at x; completed_at := v; error_message := error_message x; retry_count := retry_count x;
     max_retries := max_retries x; supports_range_requests := supports_range_requests x; parts := parts x; num_threads := num_threads x;
     download_speed := download_speed x; eta := eta x; progress_percentage := progress_percentage x; content_type := content_type x;
     headers := headers x; checksum := checksum x; is_video := is_video x; video_quality := video_quality x;
     scheduled_time := scheduled_time x; priority := priority x |}.

Definition set_error_message (v : _) (x : t) : t :=
  {| id := id x; url := url x; filename := filename x; destination := destination x;
     file_size := file_size x; downloaded_bytes := downloaded_bytes x; status := status x; created_at := created_at x;
     started_at := started_at x; completed_at := completed_at x; error_message := v; retry_count := retry_count x;
     max_retries := max_retries x; supports_range_requests := supports_range_requests x; parts := parts x; num_threads := num_threads x;
     download_speed := download_speed x; eta := eta x; progress_percentage := progress_percentage x; content_type := content_type x;
     headers := headers x; checksum := checksum x; is_video := is_video x; video_quality := video_quality x;
     scheduled_time := scheduled_time x; priority := priority x |}.


Definition set_supports_range_requests (v : _) (x : t) : t :=
  {| id := id x; url := url x; filename := filename x; destination := destination x;
     file_size := file_size x; downloaded_bytes := downloaded_bytes x; status := status x; created_at := created_at x;
     started_at := started_at x; completed_at := completed_at x; error_message := error_message x; retry_count := retry_count x;
     max_retries := max_retries x; supports_range_requests := v; parts := parts x; num_threads := num_threads x;
     download_speed := download_speed x; eta := eta x; progress_percentage := progress_percentage x; content_type := content_type x;
     headers := headers x; checksum := checksum x; is_video := is_video x; video_quality := video_quality x;
     scheduled_time := scheduled_time x; priority := priority x |}.

Definition set_parts (v : _) (x : t) : t :=
  {| id := id x; url := url x; filename := filename x; destination := destination x;
     file_size := file_size x; downloaded_bytes := downloaded_bytes x; status := status x; created_at := created_at x;
     started_at := started_at x; completed_at := completed_at x; error_message := error_message x; retry_count := retry_count x;
     max_retries := max_retries x; supports_range_requests := supports_range_requests x; parts := v; num_threads := num_threads x;
     download_speed := download_speed x; eta := eta x; progress_percentage := progress_percentage x; content_type := content_type x;
     headers := headers x; checksum := checksum x; is_video := is_video x; video_quality := video_quality x;
     scheduled_time := scheduled_time x; priority := priority x |}.

Definition set_num_threads (v : _) (x : t) : t :=
  {| id := id x; url := url x; filename := filename x; destination := destination x;
     file_size := file_size x; downloaded_bytes := downloaded_bytes x; status := status x; created_at := created_at x;
     started_at := started_at x; completed_at := completed_at x; error_message := error_message x; retry_count := retry_count x;
     max_retries := max_retries x; supports_range_requests := supports_range_requests x; parts := parts x; num_threads := v;
     download_speed := download_speed x; eta := eta x; progress_percentage := progress_percentage x; content_type := content_type x;
     headers := headers x; checksum := checksum x; is_video := is_video x; video_quality := video_quality x;
     scheduled_time := scheduled_time x; priority := priority x |}.

Definition set_download_speed (v : _) (x : t) : t :=
  {| id := id x; url := url x; filename := filename x; destination := destination x;
     file_size := file_size x; downloaded_bytes := downloaded_bytes x; status := status x; created_at := created_at x;
     started_at := started_at x; completed_at := completed_at x; error_message := error_message x; retry_count := retry_count x;
     max_retries := max_retries x; supports_range_requests := supports_range_requests x; parts := parts x; num_threads := num_threads x;
     download_speed := v; eta := eta x; progress_percentage := progress_percentage x; content_type := content_type x;
     headers := headers x; checksum := checksum x; is_video := is_video x; video_quality := video_quality x;
     scheduled_time := scheduled_time x; priority := priority x |}.

Definition set_eta (v : _) (x : t) : t :=
  {| id := id x; url := url x; filename := filename x; destination := destination x;
     file_size := file_size x; downloaded_bytes := downloaded_bytes x; status := status x; created_at := created_at x;
     started_at := started_at x; completed_at := completed_at x; error_message := error_message x; retry_count := retry_count x;
     max_retries := max_retries x; supports_range_requests := supports_range_requests x; parts := parts x; num_threads := num_threads x;
     download_speed := download_speed x; eta := v; progress_percentage := progress_percentage x; content_type := content_type x;
     headers := headers x; checksum := checksum x; is_video := is_video x; video_quality := video_quality x;
     scheduled_time := scheduled_time x; priority := priority x |}.

Definition set_progress_percentage (v : _) (x : t) : t :=
  {| id := id x; url := url x; filename := filename x; destination := destination x;
     file_size := file_size x; downloaded_bytes := downloaded_bytes x; status := status x; created_at := created_at x;
     started_at := started_at x; completed_at := completed_at x; error_message := error_message x; retry_count := retry_count x;
     max_retries := max_retries x; supports_range_requests := supports_range_requests x; parts := parts x; num_threads := num_threads x;
     download_speed := download_speed x; eta := eta x; progress_percentage := v; content_type := content_type x;
     headers := headers x; checksum := checksum x; is_video := is_video x; video_quality := video_quality x;
     scheduled_time := scheduled_time x; priority := priority x |}.

Definition set_content_type (v : _) (x : t) : t :=
  {| id := id x; url := url x; filename := filename x; destination := destination x;
     file_size := file_size x; downloaded_bytes := downloaded_bytes x; status := status x; created_at := created_at x;
     started_at := started_at x; completed_at := completed_at x; error_message := error_message x; retry_count := retry_count x;
     max_retries := max_retries x; supports_range_requests := supports_range_requests x; parts := parts x; num_threads := num_threads x;
     download_speed := download_speed x; eta := eta x; progress_percentage := progress_percentage x; content_type := v;
     headers := headers x; checksum := checksum x; is_video := is_video x; video_quality := video_quality x;
     scheduled_time := scheduled_time x; priority := priority x |}.

Definition set_headers (v : _) (x : t) : t :=
  {| id := id x; url := url x; filename := filename x; destination := destination x;
     file_size := file_size x; downloaded_bytes := downloaded_bytes x; status := status x; created_at := created_at x;
     started_at := started_at x; completed_at := completed_at x; error_message := error_message x; retry_count := retry_count x;
     max_retries := max_retries x; supports_range_requests := supports_range_requests x; parts := parts x; num_threads := num_threads x;
     download_speed := download_speed x; eta := eta x; progress_percentage := progress_percentage x; content_type := content_type x;
     headers := v; checksum := checksum x; is_video := is_video x; video_quality := video_quality x;
     scheduled_time := scheduled_time x; priority := priority x |}.

Definition set_is_video (v : _) (x : t) : t :=
  {| id := id x; url := url x; filename := filename x; destination := destination x;
     file_size := file_size x; downloaded_bytes := downloaded_bytes x; status := status x; created_at := created_at x;
     started_at := started_at x; completed_at := completed_at x; error_message := error_message x; retry_count := retry_count x;
     max_retries := max_retries x; supports_range_requests := supports_range_requests x; parts := parts x; num_threads := num_threads x;
     download_speed := download_speed x; eta := eta x; progress_percentage := progress_percentage x; content_type := content_type x;
     headers := headers x; checksum := checksum x; is_video := v; video_quality := video_quality x;
     scheduled_time := scheduled_time x; priority := priority x |}.

Definition set_video_quality (v : _) (x : t) : t :=
  {| id := id x; url := url x; filename := filename x; destination := destination x;
     file_size := file_size x; downloaded_bytes := downloaded_bytes x; status := status x; created_at := created_at x;
     started_at := started_at x; completed_at := completed_at x; error_message := error_message x; retry_count := retry_count x;
     max_retries := max_retries x; supports_range_requests := supports_range_requests x; parts := parts x; num_threads := num_threads x;
     download_speed := download_speed x; eta := eta x; progress_percentage := progress_percentage x; content_type := content_type x;
     headers := headers x; checksum := checksum x; is_video := is_video x; video_quality := v;
     scheduled_time := scheduled_time x; priority := priority x |}.

Definition set_scheduled_time (v : _) (x : t) : t :=
  {| id := id x; url := url x; filename := filename x; destination := destination x;
     file_size := file_size x; downloaded_bytes := downloaded_bytes x; status := status x; created_at := created_at x;
     started_at := started_at x; completed_at := completed_at x; error_message := error_message x; retry_count := retry_count x;
     max_retries := max_retries x; supports_range_requests := supports_range_requests x; parts := parts x; num_threads := num_threads x;
     download_speed := download_speed x; eta := eta x; progress_percentage := progress_percentage x; content_type := content_type x;
     headers := headers x; checksum := checksum x; is_video := is_video x; video_quality := video_quality x;
     scheduled_time := v; priority := priority x |}.

Definition set_priority (v : _) (x : t) : t :=
  {| id := id x; url := url x; filename := filename x; destination := destination x;
     file_size := file_size x; downloaded_bytes := downloaded_bytes x; status := status x; created_at := created_at x;
     started_at := started_at x; completed_at := completed_at x; error_message := error_message x; retry_count := retry_count x;
     max_retries := max_retries x; supports_range_requests := supports_range_requests x; parts := parts x; num_threads := num_threads x;
     download_speed := download_speed x; eta := eta x; progress_percentage := progress_percentage x; content_type := content_type x;
     headers := headers x; checksum := checksum x; is_video := is_video x; video_quality := video_quality x;
     scheduled_time := scheduled_time x; priority := v |}.

Section methods.
Context {env : Externals}.
Local Open Scope Z_scope.

(** [_generate_id]: [now] is the reading of [time.time()]. *)
Definition _generate_id (now : Q) (url : string) : string := md5_id url now.

(** [_extract_filename_from_url]; [self_id] is [self.id], already set when
    the constructor calls it. *)
Definition _extract_filename_from_url (self_id url : string) : string :=
  match url_path_basename url with
  | Some filename =>
      if negb (Py.truthy_str (Some filename)) || negb (Py.contains_char "."%char filename)
      then "download_" +:+ self_id
      else filename
  | None => "download_" +:+ self_id
  end.

(** [DownloadTask(url, filename, destination)]. The constructor reads the
    clock twice: [t_id] inside [_generate_id], [t_created] for [created_at]. *)
Definition __init__ (t_id t_created : Q) (url : string)
    (filename destination : option string) : t :=
  let self_id := _generate_id t_id url in
  {| id := self_id;
     url := url;
     filename := (if Py.truthy_str filename then default ""%string filename
                  else _extract_filename_from_url self_id url);
     destination := destination;
     file_size := 0;
     downloaded_bytes := 0;
     status := PENDING;
     created_at := t_created;
     started_at := None;
     completed_at := None;
     error_message := None;
     retry_count := 0;
     max_retries := 3;
     supports_range_requests := false;
     parts := [];
     num_threads := 1;
     download_speed := 0%Q;
     eta := 0%Q;
     progress_percentage := 0%Q;
     content_type := None;
     headers := ∅;
     checksum := None;
     is_video := false;
     video_quality := None;
     scheduled_time := None;
     priority := 0 |}.

(** [get_full_path], with [str(Path(d) / f)] as the join of two segments. *)
Definition get_full_path (self : t) : string :=
  match destination self with
  | Some d => if Py.truthy_str (Some d) then d +:+ "/" +:+ filename self else filename self
  | None => filename self
  end.

Definition start (now : Q) (self : t) : t :=
  set_started_at (Some now) (set_status DOWNLOADING self).

Definition pause (self : t) : t :=
  if decide (status self = DOWNLOADING) then set_status PAUSED self else self.

Definition resume (self : t) : t :=
  if decide (status self = PAUSED) then set_status DOWNLOADING self else self.

Definition complete (now : Q) (self : t) : t :=
  set_downloaded_bytes (file_size self)
    (set_progress_percentage 100%Q
       (set_completed_at (Some now) (set_status COMPLETED self))).

Definition error (message : string) (self : t) : t :=
  set_error_message (Some message) (set_status ERROR self).

Definition cancel (self : t) : t := set_status CANCELLED self.

Definition can_retry (self : t) : bool := retry_count self <? max_retries self.


(** [range(n)] *)
Definition range (n : Z) : list Z := Z.of_nat <$> seq 0 (Z.to_nat n).

(** The part built by one iteration of the loop in
    [setup_multithread_download]. *)
Definition multithread_part (num_threads file_size part_size i : Z) : DownloadPart.t :=
  let start_byte := i * part_size in
  let end_byte := start_byte + part_size - 1 in
  let end_byte := if i =? num_threads - 1 then file_size - 1 else end_byte in
  DownloadPart.new i start_byte end_byte.

Definition setup_multithread_download (num_threads file_size : Z) (self : t) : t :=
  let self := set_num_threads num_threads self in
  let self := set_file_size file_size self in
  let self := set_supports_range_requests true self in
  let self := set_parts [] self in
  if num_threads <=? 1 then
    set_parts (parts self ++ [DownloadPart.new 0 0 (file_size - 1)]) self
  else
    let part_size := file_size `div` num_threads in
    set_parts
      (parts self ++ (multithread_part num_threads file_size part_size <$> range num_threads))
      self.

Definition get_total_downloaded_bytes (self : t) : Z :=
  foldr Z.add 0 (DownloadPart.downloaded_bytes <$> parts self).

(** [is_scheduled]: [now] is the reading of [time.time()]. *)
Definition is_scheduled (now : Q) (self : t) : bool :=
  match scheduled_time self with
  | Some s => Py.lt (Py.Finite now) s
  | None => false
  end.

Definition to_dict (self : t) : gmap string Py.value :=
  list_to_map
    [ ("id", Py.Str (id self));
      ("url", Py.Str (url self));
      ("filename", Py.Str (filename self));
      ("destination", Py.of_opt_str (destination self));
      ("file_size", Py.Int (file_size self));
      ("downloaded_bytes", Py.Int (downloaded_bytes self));
      ("status", Py.Str (status_value (status self)));
      ("created_at", Py.Float (created_at self));
      ("started_at", Py.of_opt_float (started_at self));
      ("completed_at", Py.of_opt_float (completed_at self));
      ("error_message", Py.of_opt_str (error_message self));
      ("retry_count", Py.Int (retry_count self));
      ("max_retries", Py.Int (max_retries self));
      ("supports_range_requests", Py.Bool (supports_range_requests self));
      ("num_threads", Py.Int (num_threads self));
      ("download_speed", Py.Float (download_speed self));
      ("eta", Py.Float (eta self));
      ("progress_percentage", Py.Float (progress_percentage self));
      ("content_type", Py.of_opt_str (content_type self));
      ("headers", Py.Dict (headers self));
      ("checksum", Py.of_opt_str (checksum self));
      ("is_video", Py.Bool (is_video self));
      ("video_quality", Py.of_opt_str (video_quality self));
      ("scheduled_time", Py.of_opt_float_nan (scheduled_time self));
      ("priority", Py.Int (priority self)) ].

(** [from_dict]. It calls the constructor (clock readings [t_id] and
    [t_created]) and then overwrites the fields one by one; the default
    of [data.get('created_at', time.time())] is evaluated before the
    lookup, a third reading [t_default]. The result is [None] where Python
    raises ([KeyError] on a missing ['url'] or ['id'], [ValueError] on an
    unknown status) or where a value is not of the field's declared type. *)
Definition from_dict (t_id t_created t_default : Q) (data : gmap string Py.value)
  : option t :=
  d_url ← Py.getitem Py.as_str data "url";
  d_filename ← Py.get Py.as_opt_str data "filename" None;
  d_destination ← Py.get Py.as_opt_str data "destination" None;
  let task := __init__ t_id t_created d_url d_filename d_destination in
  d_id ← Py.getitem Py.as_str data "id";
  d_file_size ← Py.get Py.as_int data "file_size" 0;
  d_downloaded_bytes ← Py.get Py.as_int data "downloaded_bytes" 0;
  d_status ← Py.get Py.as_str data "status" "pending"%string ≫= status_of_value;
  d_created_at ← Py.get Py.as_float data "created_at" t_default;
  d_started_at ← Py.get Py.as_opt_float data "started_at" None;
  d_completed_at ← Py.get Py.as_opt_float data "completed_at" None;
  d_error_message ← Py.get Py.as_opt_str data "error_message" None;
  d_retry_count ← Py.get Py.as_int data "retry_count" 0;
  d_max_retries ← Py.get Py.as_int data "max_retries" 3;
  d_supports_range_requests ← Py.get Py.as_bool data "supports_range_requests" false;
  d_num_threads ← Py.get Py.as_int data "num_threads" 1;
  d_download_speed ← Py.get Py.as_float data "download_speed" 0%Q;
  d_eta ← Py.get Py.as_float data "eta" 0%Q;
  d_progress_percentage ← Py.get Py.as_float data "progress_percentage" 0%Q;
  d_content_type ← Py.get Py.as_opt_str data "content_type" None;
  d_headers ← Py.get Py.as_dict data "headers" ∅;
  d_checksum ← Py.get Py.as_opt_str data "checksum" None;
  d_is_video ← Py.get Py.as_bool data "is_video" false;
  d_video_quality ← Py.get Py.as_opt_str data "video_quality" None;
  d_scheduled_time ← Py.get Py.as_opt_float_nan data "scheduled_time" None;
  d_priority ← Py.get Py.as_int data "priority" 0;
  Some {| id := d_id;
          url := url task;
          filename := filename task;
          destination := destination task;
          file_size := d_file_size;
          downloaded_bytes := d_downloaded_bytes;
          status := d_status;
          created_at := d_created_at;
          started_at := d_started_at;
          completed_at := d_completed_at;
          error_message := d_error_message;
          retry_count := d_retry_count;
          max_retries := d_max_retries;
          supports_range_requests := d_supports_range_requests;
          parts := parts task;
          num_threads := d_num_threads;
          download_speed := d_download_speed;
          eta := d_eta;
          progress_percentage := d_progress_percentage;
          content_type := d_content_type;
          headers := d_headers;
          checksum := d_checksum;
          is_video := d_is_video;
          video_quality := d_video_quality;
          scheduled_time := d_scheduled_time;
          priority := d_priority |}.

End methods.

End DownloadTask.

(** ** [heapq], as the scheduler and [queue.PriorityQueue] use it

    The functions of CPython's [Lib/heapq.py], on a list used as an array.
    [lt a b] is [a < b], that is [a.__lt__(b)]. The two [while] loops are
    written with a bound on the number of iterations that they never
    exceed: [pos] falls at every iteration of the first and rises, below
    [len(heap)], at every iteration of the second. *)

Module heapq.
Section heapq.
Context {A : Type} (lt : A → A → bool).

(** The loop of [_siftdown(heap, startpos, pos)], followed by
    [heap[pos] = newitem]. *)
Fixpoint _siftdown_loop (bound : nat) (heap : list A) (newitem : A) (startpos pos : nat)
  : list A :=
  match bound with
  | O => <[pos := newitem]> heap
  | S bound' =>
      if decide (startpos < pos) then
        let parentpos := (pos - 1) / 2 in
        match heap !! parentpos with
        | Some parent =>
            if lt newitem parent
            then _siftdown_loop bound' (<[pos := parent]> heap) newitem startpos parentpos
            else <[pos := newitem]> heap
        | None => <[pos := newitem]> heap
        end
      else <[pos := newitem]> heap
  end.

Definition _siftdown (heap : list A) (startpos pos : nat) : list A :=
  match heap !! pos with
  | Some newitem => _siftdown_loop pos heap newitem startpos pos
  | None => heap
  end.

(** The child that moves up in one iteration of [_siftup]: the right one
    when it exists and the left one is not smaller. *)
Definition smaller_child (heap : list A) (childpos : nat) : nat :=
  let rightpos := childpos + 1 in
  match heap !! childpos, heap !! rightpos with
  | Some l, Some r => if negb (lt l r) then rightpos else childpos
  | _, _ => childpos
  end.

(** The loop of [_siftup(heap, pos)]: the heap and [pos] when it ends. *)
Fixpoint _siftup_loop (bound : nat) (heap : list A) (pos : nat) : list A * nat :=
  match bound with
  | O => (heap, pos)
  | S bound' =>
      let endpos := length heap in
      let childpos := 2 * pos + 1 in
      if decide (childpos < endpos) then
        let childpos := smaller_child heap childpos in
        match heap !! childpos with
        | Some child => _siftup_loop bound' (<[pos := child]> heap) childpos
        | None => (heap, pos)
        end
      else (heap, pos)
  end.

Definition _siftup (heap : list A) (pos : nat) : list A :=
  match heap !! pos with
  | Some newitem =>
      let '(heap, leaf) := _siftup_loop (length heap) heap pos in
      _siftdown (<[leaf := newitem]> heap) pos leaf
  | None => heap
  end.

Definition heappush (heap : list A) (item : A) : list A :=
  let heap := heap ++ [item] in
  _siftdown heap 0 (length heap - 1).

(** [heappop]: the item returned and the heap left; [None] is the
    [IndexError] of an empty heap. *)
Definition heappop (heap : list A) : option (A * list A) :=
  match last heap with
  | None => None
  | Some lastelt =>
      let heap := take (length heap - 1) heap in
      match heap !! 0 with
      | Some returnitem => Some (returnitem, _siftup (<[0 := lastelt]> heap) 0)
      | None => Some (lastelt, heap)
      end
  end.

Definition heapify (x : list A) : list A :=
  let n := length x in
  foldl _siftup x (reverse (seq 0 (n / 2))).

End heapq.
End heapq.

(** ** The state of the process

    One record holds what the methods below read and write: the task
    objects (the manager's registry, its queue and the scheduler's heap
    all hold references to the same objects), the files on disk, the two
    database tables, and the attributes of the scheduler, the engine and
    the manager. *)

(** [scheduler.py], [ScheduledItem] *)
Module ScheduledItem.
Record t : Type := mk { scheduled_time : Py.float; task : nat }.
(** [__lt__] *)
Definition lt (self other : t) : bool :=
  Py.lt (scheduled_time self) (scheduled_time other).
End ScheduledItem.

(** [download_manager.py], [QueuedDownload] *)
Module QueuedDownload.
Record t : Type := mk { priority : Z; task : nat }.
(** [__lt__]: [self.priority > other.priority], higher priority first *)
Definition lt (self other : t) : bool := (priority other <? priority self)%Z.
End QueuedDownload.

Inductive Lock : Type :=
| ManagerLock | DatabaseLock | SchedulerLock | EngineLock | FileManagerLock.

#[global] Instance Lock_eq_dec : EqDecision Lock.
Proof. solve_decision. Defined.

Module World.

Record t : Type := mk {
  (** the task objects, by reference *)
  objects : gmap nat DownloadTask.t;
  next_ref : nat;
  (** how many times [time.time()] was read *)
  ticks : nat;
  (** the contents of the files that exist *)
  files : gmap string (list Byte.byte);
  (** the requests sent to servers, first to last *)
  requests_sent : list HttpRequest;
  (** [DatabaseManager]: the tables [downloads] and [download_parts] *)
  db_downloads : gmap string (gmap string Py.value);
  db_download_parts : gmap string (list DownloadPart.t);
  (** [DownloadScheduler]: the heap, and the calls of [condition.notify()] *)
  scheduled_downloads : list ScheduledItem.t;
  condition_notified : nat;
  (** [DownloadEngine] *)
  engine_active_downloads : gset string;
  download_threads : gmap string (list Z);
  stop_events : gmap string bool;
  progress_data : gmap string (Q * Q * Z);
  (** [DownloadManager] *)
  download_queue : list QueuedDownload.t;
  active_downloads : gmap string nat;
  all_downloads : gmap string nat;
  (** the calls made to the registered status and progress callbacks and
      to the notifier, each with the task it was given and the status the
      task had then *)
  status_callbacks_called : list (nat * DownloadStatus);
  progress_callbacks_called : list (nat * Z);
  notifier_called : list (nat * DownloadStatus);
  (** the attribute [_last_db_update] that [_on_progress_update] attaches
      to a task *)
  last_db_update : gmap nat Q
}.

Definition set_objects (v : _) (x : t) : t :=
  {| objects := v; next_ref := next_ref x; ticks := ticks x; files := files x;
     requests_sent := requests_sent x; db_downloads := db_downloads x; db_download_parts := db_download_parts x; scheduled_downloads := scheduled_downloads x;
     condition_notified := condition_notified x; engine_active_downloads := engine_active_downloads x; download_threads := download_threads x; stop_events := stop_events x;
     progress_data := progress_data x; download_queue := download_queue x; active_downloads := active_downloads x; all_downloads := all_downloads x;
     status_callbacks_called := status_callbacks_called x; progress_callbacks_called := progress_callbacks_called x; notifier_called := notifier_called x; last_db_update := last_db_update x |}.

Definition set_next_ref (v : _) (x : t) : t :=
  {| objects := objects x; next_ref := v; ticks := ticks x; files := files x;
     requests_sent := requests_sent x; db_downloads := db_downloads x; db_download_parts := db_download_parts x; scheduled_downloads := scheduled_downloads x;
     condition_notified := condition_notified x; engine_active_downloads := engine_active_downloads x; download_threads := download_threads x; stop_events := stop_events x;
     progress_data := progress_data x; download_queue := download_queue x; active_downloads := active_downloads x; all_downloads := all_downloads x;
     status_callbacks_called := status_callbacks_called x; progress_callbacks_called := progress_callbacks_called x; notifier_called := notifier_called x; last_db_update := last_db_update x |}.

Definition set_ticks (v : _) (x : t) : t :=
  {| objects := objects x; next_ref := next_ref x; ticks := v; files := files x;
     requests_sent := requests_sent x; db_downloads := db_downloads x; db_download_parts := db_download_parts x; scheduled_downloads := scheduled_downloads x;
     condition_notified := condition_notified x; engine_active_downloads := engine_active_downloads x; download_threads := download_threads x; stop_events := stop_events x;
     progress_data := progress_data x; download_queue := download_queue x; active_downloads := active_downloads x; all_downloads := all_downloads x;
     status_callbacks_called := status_callbacks_called x; progress_callbacks_called := progress_callbacks_called x; notifier_called := notifier_called x; last_db_update := last_db_update x |}.

Definition set_files (v : _) (x : t) : t :=
  {| objects := objects x; next_ref := next_ref x; ticks := ticks x; files := v;
     requests_sent := requests_sent x; db_downloads := db_downloads x; db_download_parts := db_download_parts x; scheduled_downloads := scheduled_downloads x;
     condition_notified := condition_notified x; engine_active_downloads := engine_active_downloads x; download_threads := download_threads x; stop_events := stop_events x;
     progress_data := progress_data x; download_queue := download_queue x; active_downloads := active_downloads x; all_downloads := all_downloads x;
     status_callbacks_called := status_callbacks_called x; progress_callbacks_called := progress_callbacks_called x; notifier_called := notifier_called x; last_db_update := last_db_update x |}.

Definition set_requests_sent (v : _) (x : t) : t :=
  {| objects := objects x; next_ref := next_ref x; ticks := ticks x; files := files x;
     requests_sent := v; db_downloads := db_downloads x; db_download_parts := db_download_parts x; scheduled_downloads := scheduled_downloads x;
     condition_notified := condition_notified x; engine_active_downloads := engine_active_downloads x; download_threads := download_threads x; stop_events := stop_events x;
     progress_data := progress_data x; download_queue := download_queue x; active_downloads := active_downloads x; all_downloads := all_downloads x;
     status_callbacks_called := status_callbacks_called x; progress_callbacks_called := progress_callbacks_called x; notifier_called := notifier_called x; last_db_update := last_db_update x |}.

Definition set_db_downloads (v : _) (x : t) : t :=
  {| objects := objects x; next_ref := next_ref x; ticks := ticks x; files := files x;
     requests_sent := requests_sent x; db_downloads := v; db_download_parts := db_download_parts x; scheduled_downloads := scheduled_downloads x;
     condition_notified := condition_notified x; engine_active_downloads := engine_active_downloads x; download_threads := download_threads x; stop_events := stop_events x;
     progress_data := progress_data x; download_queue := download_queue x; active_downloads := active_downloads x; all_downloads := all_downloads x;
     status_callbacks_called := status_callbacks_called x; progress_callbacks_called := progress_callbacks_called x; notifier_called := notifier_called x; last_db_update := last_db_update x |}.

Definition set_db_download_parts (v : _) (x : t) : t :=
  {| objects := objects x; next_ref := next_ref x; ticks := ticks x; files := files x;
     requests_sent := requests_sent x; db_downloads := db_downloads x; db_download_parts := v; scheduled_downloads := scheduled_downloads x;
     condition_notified := condition_notified x; engine_active_downloads := engine_active_downloads x; download_threads := download_threads x; stop_events := stop_events x;
     progress_data := progress_data x; download_queue := download_queue x; active_downloads := active_downloads x; all_downloads := all_downloads x;
     status_callbacks_called := status_callbacks_called x; progress_callbacks_called := progress_callbacks_called x; notifier_called := notifier_called x; last_db_update := last_db_update x |}.

Definition set_scheduled_downloads (v : _) (x : t) : t :=
  {| objects := objects x; next_ref := next_ref x; ticks := ticks x; files := files x;
     requests_sent := requests_sent x; db_downloads := db_downloads x; db_download_parts := db_download_parts x; scheduled_downloads := v;
     condition_notified := condition_notified x; engine_active_downloads := engine_active_downloads x; download_threads := download_threads x; stop_events := stop_events x;
     progress_data := progress_data x; download_queue := download_queue x; active_downloads := active_downloads x; all_downloads := all_downloads x;
     status_callbacks_called := status_callbacks_called x; progress_callbacks_called := progress_callbacks_called x; notifier_called := notifier_called x; last_db_update := last_db_update x |}.

Definition set_condition_notified (v : _) (x : t) : t :=
  {| objects := objects x; next_ref := next_ref x; ticks := ticks x; files := files x;
     requests_sent := requests_sent x; db_downloads := db_downloads x; db_download_parts := db_download_parts x; scheduled_downloads := scheduled_downloads x;
     condition_notified := v; engine_active_downloads := engine_active_downloads x; download_threads := download_threads x; stop_events := stop_events x;
     progress_data := progress_data x; download_queue := download_queue x; active_downloads := active_downloads x; all_downloads := all_downloads x;
     status_callbacks_called := status_callbacks_called x; progress_callbacks_called := progress_callbacks_called x; notifier_called := notifier_called x; last_db_update := last_db_update x |}.

Definition set_engine_active_downloads (v : _) (x : t) : t :=
  {| objects := objects x; next_ref := next_ref x; ticks := ticks x; files := files x;
     requests_sent := requests_sent x; db_downloads := db_downloads x; db_download_parts := db_download_parts x; scheduled_downloads := scheduled_downloads x;
     condition_notified := condition_notified x; engine_active_downloads := v; download_threads := download_threads x; stop_events := stop_events x;
     progress_data := progress_data x; download_queue := download_queue x; active_downloads := active_downloads x; all_downloads := all_downloads x;
     status_callbacks_called := status_callbacks_called x; progress_callbacks_called := progress_callbacks_called x; notifier_called := notifier_called x; last_db_update := last_db_update x |}.

Definition set_download_threads (v : _) (x : t) : t :=
  {| objects := objects x; next_ref := next_ref x; ticks := ticks x; files := files x;
     requests_sent := requests_sent x; db_downloads := db_downloads x; db_download_parts := db_download_parts x; scheduled_downloads := scheduled_downloads x;
     condition_notified := condition_notified x; engine_active_downloads := engine_active_downloads x; download_threads := v; stop_events := stop_events x;
     progress_data := progress_data x; download_queue := download_queue x; active_downloads := active_downloads x; all_downloads := all_downloads x;
     status_callbacks_called := status_callbacks_called x; progress_callbacks_called := progress_callbacks_called x; notifier_called := notifier_called x; last_db_update := last_db_update x |}.

Definition set_stop_events (v : _) (x : t) : t :=
  {| objects := objects x; next_ref := next_ref x; ticks := ticks x; files := files x;
     requests_sent := requests_sent x; db_downloads := db_downloads x; db_download_parts := db_download_parts x; scheduled_downloads := scheduled_downloads x;
     condition_notified := condition_notified x; engine_active_downloads := engine_active_downloads x; download_threads := download_threads x; stop_events := v;
     progress_data := progress_data x; download_queue := download_queue x; active_downloads := active_downloads x; all_downloads := all_downloads x;
     status_callbacks_called := status_callbacks_called x; progress_callbacks_called := progress_callbacks_called x; notifier_called := notifier_called x; last_db_update := last_db_update x |}.

Definition set_progress_data (v : _) (x : t) : t :=
  {| objects := objects x; next_ref := next_ref x; ticks := ticks x; files := files x;
     requests_sent := requests_sent x; db_downloads := db_downloads x; db_download_parts := db_download_parts x; scheduled_downloads := scheduled_downloads x;
     condition_notified := condition_notified x; engine_active_downloads := engine_active_downloads x; download_threads := download_threads x; stop_events := stop_events x;
     progress_data := v; download_queue := download_queue x; active_downloads := active_downloads x; all_downloads := all_downloads x;
     status_callbacks_called := status_callbacks_called x; progress_callbacks_called := progress_callbacks_called x; notifier_called := notifier_called x; last_db_update := last_db_update x |}.

Definition set_download_queue (v : _) (x : t) : t :=
  {| objects := objects x; next_ref := next_ref x; ticks := ticks x; files := files x;
     requests_sent := requests_sent x; db_downloads := db_downloads x; db_download_parts := db_download_parts x; scheduled_downloads := scheduled_downloads x;
     condition_notified := condition_notified x; engine_active_downloads := engine_active_downloads x; download_threads := download_threads x; stop_events := stop_events x;
     progress_data := progress_data x; download_queue := v; active_downloads := active_downloads x; all_downloads := all_downloads x;
     status_callbacks_called := status_callbacks_called x; progress_callbacks_called := progress_callbacks_called x; notifier_called := notifier_called x; last_db_update := last_db_update x |}.

Definition set_active_downloads (v : _) (x : t) : t :=
  {| objects := objects x; next_ref := next_ref x; ticks := ticks x; files := files x;
     requests_sent := requests_sent x; db_downloads := db_downloads x; db_download_parts := db_download_parts x; scheduled_downloads := scheduled_downloads x;
     condition_notified := condition_notified x; engine_active_downloads := engine_active_downloads x; download_threads := download_threads x; stop_events := stop_events x;
     progress_data := progress_data x; download_queue := download_queue x; active_downloads := v; all_downloads := all_downloads x;
     status_callbacks_called := status_callbacks_called x; progress_callbacks_called := progress_callbacks_called x; notifier_called := notifier_called x; last_db_update := last_db_update x |}.

Definition set_all_downloads (v : _) (x : t) : t :=
  {| objects := objects x; next_ref := next_ref x; ticks := ticks x; files := files x;
     requests_sent := requests_sent x; db_downloads := db_downloads x; db_download_parts := db_download_parts x; scheduled_downloads := scheduled_downloads x;
     condition_notified := condition_notified x; engine_active_downloads := engine_active_downloads x; download_threads := download_threads x; stop_events := stop_events x;
     progress_data := progress_data x; download_queue := download_queue x; active_downloads := active_downloads x; all_downloads := v;
     status_callbacks_called := status_callbacks_called x; progress_callbacks_called := progress_callbacks_called x; notifier_called := notifier_called x; last_db_update := last_db_update x |}.

Definition set_status_callbacks_called (v : _) (x : t) : t :=
  {| objects := objects x; next_ref := next_ref x; ticks := ticks x; files := files x;
     requests_sent := requests_sent x; db_downloads := db_downloads x; db_download_parts := db_download_parts x; scheduled_downloads := scheduled_downloads x;
     condition_notified := condition_notified x; engine_active_downloads := engine_active_downloads x; download_threads := download_threads x; stop_events := stop_events x;
     progress_data := progress_data x; download_queue := download_queue x; active_downloads := active_downloads x; all_downloads := all_downloads x;
     status_callbacks_called := v; progress_callbacks_called := progress_callbacks_called x; notifier_called := notifier_called x; last_db_update := last_db_update x |}.

Definition set_progress_callbacks_called (v : _) (x : t) : t :=
  {| objects := objects x; next_ref := next_ref x; ticks := ticks x; files := files x;
     requests_sent := requests_sent x; db_downloads := db_downloads x; db_download_parts := db_download_parts x; scheduled_downloads := scheduled_downloads x;
     condition_notified := condition_notified x; engine_active_downloads := engine_active_downloads x; download_threads := download_threads x; stop_events := stop_events x;
     progress_data := progress_data x; download_queue := download_queue x; active_downloads := active_downloads x; all_downloads := all_downloads x;
     status_callbacks_called := status_callbacks_called x; progress_callbacks_called := v; notifier_called := notifier_called x; last_db_update := last_db_update x |}.

Definition set_notifier_called (v : _) (x : t) : t :=
  {| objects := objects x; next_ref := next_ref x; ticks := ticks x; files := files x;
     requests_sent := requests_sent x; db_downloads := db_downloads x; db_download_parts := db_download_parts x; scheduled_downloads := scheduled_downloads x;
     condition_notified := condition_notified x; engine_active_downloads := engine_active_downloads x; download_threads := download_threads x; stop_events := stop_events x;
     progress_data := progress_data x; download_queue := download_queue x; active_downloads := active_downloads x; all_downloads := all_downloads x;
     status_callbacks_called := status_callbacks_called x; progress_callbacks_called := progress_callbacks_called x; notifier_called := v; last_db_update := last_db_update x |}.

Definition set_last_db_update (v : _) (x : t) : t :=
  {| objects := objects x; next_ref := next_ref x; ticks := ticks x; files := files x;
     requests_sent := requests_sent x; db_downloads := db_downloads x; db_download_parts := db_download_parts x; scheduled_downloads := scheduled_downloads x;
     condition_notified := condition_notified x; engine_active_downloads := engine_active_downloads x; download_threads := download_threads x; stop_events := stop_events x;
     progress_data := progress_data x; download_queue := download_queue x; active_downloads := active_downloads x; all_downloads := all_downloads x;
     status_callbacks_called := status_callbacks_called x; progress_callbacks_called := progress_callbacks_called x; notifier_called := notifier_called x; last_db_update := v |}.


(** A process that has just started, with no task and an empty disk. *)
Definition empty : t :=
  {| objects := ∅; next_ref := 0; ticks := 0; files := ∅; requests_sent := [];
     db_downloads := ∅; db_download_parts := ∅;
     scheduled_downloads := []; condition_notified := 0;
     engine_active_downloads := ∅; download_threads := ∅; stop_events := ∅;
     progress_data := ∅;
     download_queue := []; active_downloads := ∅; all_downloads := ∅;
     status_callbacks_called := []; progress_callbacks_called := [];
     notifier_called := []; last_db_update := ∅ |}.

End World.

(** ** The monad of the methods

    A method runs in a state, given the locks its thread already holds,
    and either returns, raises, or blocks for ever: [threading.Lock] is
    not reentrant, so a thread that acquires a lock it holds never
    proceeds. *)

Inductive Outcome (A : Type) : Type :=
| Returns (a : A) (w : World.t)
| Raises (e : string) (w : World.t)
| Blocks.
Arguments Returns {A} a w.
Arguments Raises {A} e w.
Arguments Blocks {A}.

Definition M (A : Type) : Type := list Lock → World.t → Outcome A.

#[global] Instance M_ret : MRet M := λ A a, λ _ w, Returns a w.

#[global] Instance M_bind : MBind M := λ A B f m, λ held w,
  match m held w with
  | Returns a w' => f a held w'
  | Raises e w' => Raises e w'
  | Blocks => Blocks
  end.

(** [raise Exception(e)] *)
Definition raise {A} (e : string) : M A := λ _ w, Raises e w.

(** [try: body except Exception as e: handler(e)] *)
Definition try_except {A} (body : M A) (handler : string → M A) : M A := λ held w,
  match body held w with
  | Returns a w' => Returns a w'
  | Raises e w' => handler e held w'
  | Blocks => Blocks
  end.

(** [with lock: body], for a [threading.Lock] *)
Definition with_lock {A} (l : Lock) (body : M A) : M A := λ held w,
  if bool_decide (l ∈ held) then Blocks else body (l :: held) w.

Definition gets {A} (f : World.t → A) : M A := λ _ w, Returns (f w) w.
Definition modify (f : World.t → World.t) : M unit := λ _ w, Returns () (f w).

(** [for x in xs: body(x)] *)
Fixpoint for_each {B} (xs : list B) (body : B → M unit) : M unit :=
  match xs with
  | [] => mret ()
  | x :: xs' => body x ;; for_each xs' body
  end.

(** A call made from outside, by a thread that holds no lock. *)
Definition run {A} (m : M A) (w : World.t) : Outcome A := m [] w.

Section primitives.
Context {env : Externals}.

(** [time.time()] *)
Definition time_time : M Q := λ _ w,
  Returns (clock (World.ticks w)) (World.set_ticks (S (World.ticks w)) w).

(** A new task object. *)
Definition new_object (x : DownloadTask.t) : M nat := λ _ w,
  let r := World.next_ref w in
  Returns r (World.set_next_ref (S r) (World.set_objects (<[r := x]> (World.objects w)) w)).

(** Reading an object through a reference. References are only made by
    [new_object], so the lookup succeeds in every state the program
    reaches; elsewhere it is an error. *)
Definition deref (r : nat) : M DownloadTask.t := λ _ w,
  match World.objects w !! r with
  | Some x => Returns x w
  | None => Raises "dangling reference" w
  end.

(** Assigning to attributes of an object. *)
Definition update (r : nat) (f : DownloadTask.t → DownloadTask.t) : M unit :=
  modify (λ w, World.set_objects (alter f r (World.objects w)) w).

(** [task.is_scheduled()]: the clock is read only when a time is set. *)
Definition is_scheduled (task : nat) : M bool :=
  x ← deref task;
  match DownloadTask.scheduled_time x with
  | None => mret false
  | Some _ => now ← time_time; mret (DownloadTask.is_scheduled now x)
  end.

End primitives.

(** ** [filesystem/file_manager.py] *)

Module FileManager.

(** Splitting at the last occurrence of a character. *)
Fixpoint rsplit1 (c : Ascii.ascii) (s : string) : option (string * string) :=
  match s with
  | EmptyString => None
  | String a s' =>
      match rsplit1 c s' with
      | Some (pre, post) => Some (String a pre, post)
      | None => if Ascii.eqb a c then Some (EmptyString, s') else None
      end
  end.

(** [Path(p).parent] (absent for a bare name) and [Path(p).name] *)
Definition path_parent_name (p : string) : option string * string :=
  match rsplit1 "/" p with
  | Some (dir, name) => (Some dir, name)
  | None => (None, p)
  end.

(** [Path(p).stem] and [Path(p).suffix] of a name *)
Definition stem_suffix (name : string) : string * string :=
  match rsplit1 "." name with
  | Some (pre, post) =>
      if negb (String.eqb pre "") && negb (String.eqb post "")
      then (pre, "." +:+ post)
      else (name, ""%string)
  | None => (name, ""%string)
  end.

(** [os.path.join(a, b)] and [Path(a) / b] for two segments *)
Definition path_join (a b : string) : string :=
  if String.prefix "/" b then b
  else if String.eqb a "" then b
  else a +:+ "/" +:+ b.

Section file_manager.
Context {env : Externals}.
Local Open Scope Z_scope.

Definition temp_dir : string := path_join gettempdir "DownloadManager".

Definition exists_ (path : string) : M bool :=
  gets (λ w, bool_decide (is_Some (World.files w !! path))).

(** [create_temp_file]: [touch] leaves an existing file as it is. *)
Definition create_temp_file (download_id : string) (part_number : Z) : M string :=
  let temp_filename := download_id +:+ "_part_" +:+ pretty part_number +:+ ".tmp" in
  let temp_path := path_join temp_dir temp_filename in
  modify (λ w, match World.files w !! temp_path with
               | Some _ => w
               | None => World.set_files (<[temp_path := []]> (World.files w)) w
               end) ;;
  mret temp_path.

(** [append_to_temp_file]: mode ['ab'] creates the file when it is absent. *)
Definition append_to_temp_file (temp_file_path : string) (data : list Byte.byte) : M Z :=
  modify (λ w, World.set_files
                 (<[temp_file_path := default [] (World.files w !! temp_file_path) ++ data]>
                    (World.files w)) w) ;;
  mret (Z.of_nat (length data)).

Definition get_file_size (file_path : string) : M Z :=
  gets (λ w, match World.files w !! file_path with
             | Some content => Z.of_nat (length content)
             | None => 0
             end).

(** The loop of [merge_temp_files] over the temporary files, appending
    each to the open output file. *)
Fixpoint merge_copy (temp_files : list string) (output_path : string) : M unit :=
  match temp_files with
  | [] => mret ()
  | temp_file_path :: rest =>
      present ← exists_ temp_file_path;
      if present : bool then
        modify (λ w, World.set_files
                       (<[output_path := default [] (World.files w !! output_path)
                                           ++ default [] (World.files w !! temp_file_path)]>
                          (World.files w)) w) ;;
        merge_copy rest output_path
      else raise ("Temporary file not found: " +:+ temp_file_path)
  end.

(** [merge_temp_files]. [open(output_path, 'wb')] creates the output file
    or truncates the one that is there. *)
Definition merge_temp_files (temp_files : list string) (output_path : string) : M bool :=
  try_except
    (with_lock FileManagerLock
       (modify (λ w, World.set_files (<[output_path := []]> (World.files w)) w) ;;
        merge_copy temp_files output_path ;;
        present ← exists_ output_path;
        if present : bool then mret true else raise "Failed to create merged file"))
    (λ e, raise ("Failed to merge files: " +:+ e)).

Definition cleanup_temp_files (temp_files : list string) : M unit :=
  for_each temp_files (λ temp_file_path,
    modify (λ w, World.set_files (delete temp_file_path (World.files w)) w)).

(** [verify_file_integrity(file_path, expected_size)], as the engine calls
    it: without a checksum. *)
Definition verify_file_integrity (file_path : string) (expected_size : Z) : M bool :=
  present ← exists_ file_path;
  if negb present then mret false
  else
    actual_size ← get_file_size file_path;
    if negb (actual_size =? expected_size) then mret false else mret true.

(** The loop of [_resolve_filename_conflict], from [counter]; [bound]
    limits the candidates tried. *)
Fixpoint resolve_from (bound : nat) (directory : option string) (base_name extension : string)
    (counter : nat) (files : gmap string (list Byte.byte)) : option string :=
  match bound with
  | O => None
  | S bound' =>
      let new_name := base_name +:+ " (" +:+ pretty counter +:+ ")" +:+ extension in
      let new_path := match directory with
                      | Some d => d +:+ "/" +:+ new_name
                      | None => new_name
                      end in
      if bool_decide (is_Some (files !! new_path)) then
        resolve_from bound' directory base_name extension (S counter) files
      else Some new_path
  end.

(** [_resolve_filename_conflict]. Among the first [size files + 1]
    candidates one is free; [None] stands for a search that would go on
    beyond them. *)
Definition _resolve_filename_conflict (file_path : string)
    (files : gmap string (list Byte.byte)) : option string :=
  if negb (bool_decide (is_Some (files !! file_path))) then Some file_path
  else
    let '(directory, name) := path_parent_name file_path in
    let '(base_name, extension) := stem_suffix name in
    resolve_from (S (size files)) directory base_name extension 1 files.

(** [move_to_final_location]: the one caller of
    [_resolve_filename_conflict]. *)
Definition move_to_final_location (temp_path final_path : string) : M bool :=
  w ← gets id;
  match _resolve_filename_conflict final_path (World.files w), World.files w !! temp_path with
  | Some final_path, Some content =>
      modify (λ w, World.set_files (<[final_path := content]> (delete temp_path (World.files w))) w) ;;
      mret true
  | _, _ => raise "Failed to move file to final location"
  end.

(** [ensure_sufficient_space]: [required_size * 1.1], a product of
    doubles, must be free; the comparison of the integer
    [available_space] with it is exact. *)
Definition ensure_sufficient_space (path : string) (required_size : Z) : bool :=
  let required_with_buffer :=
    Py.float_mul (Py.double_of (inject_Z required_size)) (Py.double_of (11 # 10)) in
  Py.float_le required_with_buffer (inject_Z (available_space path)).

Definition get_file_category_directory (filename : string) : string :=
  category_directory settings (stem_suffix (path_parent_name filename).2).2.

End file_manager.
End FileManager.

(** ** [network/http_client.py] *)

Module HTTPClient.

Record FileInfo := {
  fi_url : string;
  fi_file_size : Z;
  fi_supports_range : bool;
  fi_content_type : string;
  fi_filename : option string;
  fi_headers : gmap string string
}.

Section http_client.
Context {env : Externals}.
Local Open Scope Z_scope.

(** Sending a request. *)
Definition send (request : HttpRequest) : M unit :=
  modify (λ w, World.set_requests_sent (World.requests_sent w ++ [request]) w).

(** [get_file_info]: a [HEAD] that follows redirects; a failed request or
    a status of 400 and above raises. *)
Definition get_file_info (url : string) : M FileInfo :=
  send (HEAD url true) ;;
  match http_head url true with
  | Some response =>
      if 400 <=? head_status_code response
      then raise "Failed to get file info"
      else mret {| fi_url := head_final_url response;
                   fi_file_size := default 0 (head_content_length response);
                   fi_supports_range :=
                     bool_decide (head_accept_ranges response = Some "bytes"%string);
                   fi_content_type := default ""%string (head_content_type response);
                   fi_filename := head_filename response;
                   fi_headers := head_headers response |}
  | None => raise "Failed to get file info"
  end.

(** [test_connection] *)
Definition test_connection (url : string) : M bool :=
  send (HEAD url false) ;;
  match http_head url false with
  | Some response => mret (head_status_code response <? 400)
  | None => mret false
  end.

(** The values of [downloaded] after each chunk of [iter_content]: the
    body arrives in pieces of [chunk_size] bytes, the last one shorter. *)
Fixpoint chunk_offsets (bound size done left : nat) : list nat :=
  match bound with
  | O => []
  | S bound' =>
      if decide (left = 0)%nat then []
      else let k := Nat.min size left in
           (done + k)%nat :: chunk_offsets bound' size (done + k)%nat (left - k)%nat
  end.

Definition stream (body : list Byte.byte) (progress_callback : Z → M unit)
  : M (list Byte.byte) :=
  for_each (chunk_offsets (length body) (Z.to_nat (Z.max 1 chunk_size)) 0 (length body))
    (λ downloaded, progress_callback (Z.of_nat downloaded)) ;;
  mret body.

(** [download_range]: a [GET] with the header [Range: bytes=start-end]. *)
Definition download_range (url : string) (start_byte end_byte : Z)
    (progress_callback : Z → M unit) : M (list Byte.byte) :=
  send (GET url (Some (start_byte, end_byte))) ;;
  match http_get url (Some (start_byte, end_byte)) with
  | Some body => stream body progress_callback
  | None => raise "Failed to download range"
  end.

(** [download_full]: a [GET] with no [Range] header. *)
Definition download_full (url : string) (progress_callback : Z → M unit)
  : M (list Byte.byte) :=
  send (GET url None) ;;
  match http_get url None with
  | Some body => stream body progress_callback
  | None => raise "Failed to download file"
  end.

End http_client.
End HTTPClient.

(** ** [database/db_manager.py]

    The table [downloads] maps an id (its primary key) to a row, the
    table [download_parts] maps a download id to its part rows. SQLite
    errors are not modelled: a statement always succeeds. *)

Module DatabaseManager.

(** The orders of the two [ORDER BY] clauses. *)
Definition by_part_number (p q : DownloadPart.t) : Prop :=
  (DownloadPart.part_number p ≤ DownloadPart.part_number q)%Z.

#[global] Instance by_part_number_dec : RelDecision by_part_number.
Proof. intros p q. unfold by_part_number. apply _. Defined.

Definition row_created_at (row : string * gmap string Py.value) : Q :=
  default 0%Q (row.2 !! "created_at" ≫= Py.as_float).

Definition by_created_at_desc (r1 r2 : string * gmap string Py.value) : Prop :=
  Py.float_le (row_created_at r2) (row_created_at r1) = true.

#[global] Instance by_created_at_desc_dec : RelDecision by_created_at_desc.
Proof. intros p q. unfold by_created_at_desc. apply _. Defined.

Section db_manager.
Context {env : Externals}.
Local Open Scope Z_scope.

(** [with self._get_connection() as conn]: the context manager holds
    [self.lock], a [threading.Lock], while the body runs. *)
Definition _get_connection {A} (body : M A) : M A := with_lock DatabaseLock body.

(** The row [save_download] writes: [to_dict] with the headers as JSON
    text and the two booleans as integers. SQLite stores a NaN as
    [NULL]; of the floats of a task only the scheduled time can be
    one. *)
Definition row_of_task (x : DownloadTask.t) : gmap string Py.value :=
  <["scheduled_time" :=
      Py.sql_stored (Py.of_opt_float_nan (DownloadTask.scheduled_time x))]> $
  <["is_video" := Py.Int (if DownloadTask.is_video x then 1 else 0)]>
    (<["supports_range_requests" :=
         Py.Int (if DownloadTask.supports_range_requests x then 1 else 0)]>
       (<["headers" := Py.Str (json_dumps (DownloadTask.headers x))]>
          (DownloadTask.to_dict x))).

(** [save_download], for a task that SQLite stores: the statements
    succeed and the transaction is committed. (An integer beyond 64 bits
    raises [OverflowError], and a second part of one part number breaks
    the [UNIQUE] constraint of the table of the parts: [sqlite3.Error]
    is caught and [False] returned, with nothing committed. Neither is
    modelled.) The rows of the parts are replaced only when the task has
    parts. *)
Definition save_download (task : nat) : M bool :=
  x ← deref task;
  _get_connection
    (modify (λ w, World.set_db_downloads
                    (<[DownloadTask.id x := row_of_task x]> (World.db_downloads w)) w) ;;
     (if bool_decide (DownloadTask.parts x = []) then mret ()
      else modify (λ w, World.set_db_download_parts
                          (<[DownloadTask.id x := DownloadTask.parts x]>
                             (World.db_download_parts w)) w)) ;;
     mret true).

(** [bool(v)] of a stored integer *)
Definition bool_of_column (v : option Py.value) : option Py.value :=
  match v with
  | Some (Py.Int z) => Some (Py.Bool (negb (z =? 0)))
  | Some (Py.Bool b) => Some (Py.Bool b)
  | Some Py.None_ => Some (Py.Bool false)
  | _ => None
  end.

(** [json.loads(data['headers'] or '{}')]; the outer [None] is a
    [JSONDecodeError]. *)
Definition headers_of_column (v : option Py.value) : option (gmap string string) :=
  match v with
  | Some (Py.Str s) => if String.eqb s "" then Some ∅ else json_loads s
  | Some Py.None_ => Some ∅
  | _ => None
  end.

(** The part rows of a download, [ORDER BY part_number]. *)
Definition part_rows (download_id : string) (w : World.t) : list DownloadPart.t :=
  merge_sort by_part_number (default [] (World.db_download_parts w !! download_id)).

Definition load_download (download_id : string) : M (option nat) :=
  _get_connection
    (row ← gets (λ w, World.db_downloads w !! download_id);
     match row with
     | None => mret None
     | Some data =>
         match headers_of_column (data !! "headers"),
               bool_of_column (data !! "supports_range_requests"),
               bool_of_column (data !! "is_video") with
         | Some headers, Some supports_range_requests, Some is_video =>
             let data := <["headers" := Py.Dict headers]> data in
             let data := <["supports_range_requests" := supports_range_requests]> data in
             let data := <["is_video" := is_video]> data in
             t_id ← time_time;
             t_created ← time_time;
             t_default ← time_time;
             match DownloadTask.from_dict t_id t_created t_default data with
             | Some x =>
                 parts_rows ← gets (part_rows download_id);
                 task ← new_object
                          (if bool_decide (parts_rows = []) then x
                           else DownloadTask.set_parts parts_rows x);
                 mret (Some task)
             | None => raise "KeyError"
             end
         | _, _, _ => mret None
         end
     end).

(** [SELECT id FROM downloads ORDER BY created_at DESC] *)
Definition ids_by_created_at_desc (w : World.t) : list string :=
  (merge_sort by_created_at_desc (map_to_list (World.db_downloads w))).*1.

(** The loop of [load_all_downloads]; it runs inside the [with] block. *)
Fixpoint load_each (ids : list string) (downloads : list nat) : M (list nat) :=
  match ids with
  | [] => mret downloads
  | download_id :: rest =>
      download ← load_download download_id;
      match download with
      | Some task => load_each rest (downloads ++ [task])
      | None => load_each rest downloads
      end
  end.

Definition load_all_downloads : M (list nat) :=
  _get_connection
    (ids ← gets ids_by_created_at_desc;
     load_each ids []).

Definition delete_download (download_id : string) : M bool :=
  _get_connection
    (found ← gets (λ w, bool_decide (is_Some (World.db_downloads w !! download_id)));
     modify (λ w, World.set_db_download_parts (delete download_id (World.db_download_parts w)) w) ;;
     modify (λ w, World.set_db_downloads (delete download_id (World.db_downloads w)) w) ;;
     mret found).

Definition update_download_progress (download_id : string) (downloaded_bytes : Z)
    (progress_percentage download_speed eta : Q) : M bool :=
  _get_connection
    (found ← gets (λ w, bool_decide (is_Some (World.db_downloads w !! download_id)));
     modify (λ w, World.set_db_downloads
                    (alter (λ row, <["downloaded_bytes" := Py.Int downloaded_bytes]>
                                     (<["progress_percentage" := Py.Float progress_percentage]>
                                        (<["download_speed" := Py.Float download_speed]>
                                           (<["eta" := Py.Float eta]> row))))
                       download_id (World.db_downloads w)) w) ;;
     mret found).

(** [WHERE status = ?] on a row of [downloads] *)
Definition has_status (status : string) (row : string * gmap string Py.value) : bool :=
  match row.2 !! "status" with
  | Some (Py.Str s) => String.eqb s status
  | _ => false
  end.

(** [SELECT id FROM downloads WHERE status = ? ORDER BY created_at DESC] *)
Definition ids_with_status (status : DownloadStatus) (w : World.t) : list string :=
  (merge_sort by_created_at_desc
     (List.filter (has_status (status_value status)) (map_to_list (World.db_downloads w)))).*1.

(** [get_downloads_by_status]: the loop is that of [load_all_downloads],
    inside the [with] block as well. *)
Definition get_downloads_by_status (status : DownloadStatus) : M (list nat) :=
  _get_connection
    (ids ← gets (ids_with_status status);
     load_each ids []).

(** [WHERE status = 'completed' AND completed_at < ?]: a [NULL]
    [completed_at] compares as false. *)
Definition completed_before (cutoff_time : Q) (row : gmap string Py.value) : bool :=
  match row !! "status", row !! "completed_at" ≫= Py.as_float with
  | Some (Py.Str s), Some completed_at =>
      String.eqb s "completed" && Py.float_lt completed_at cutoff_time
  | _, _ => false
  end.

Definition cleanup_completed_downloads (days_old : Z) : M Z :=
  now ← time_time;
  let cutoff_time := (now - inject_Z (days_old * 24 * 3600))%Q in
  _get_connection
    (rows ← gets (λ w, map_to_list (World.db_downloads w));
     let download_ids := (List.filter (λ row, completed_before cutoff_time row.2) rows).*1 in
     for_each download_ids (λ download_id,
       modify (λ w, World.set_db_download_parts
                      (delete download_id (World.db_download_parts w)) w)) ;;
     modify (λ w, World.set_db_downloads
                    (filter (λ row, completed_before cutoff_time row.2 = false)
                       (World.db_downloads w)) w) ;;
     mret (Z.of_nat (length download_ids))).

End db_manager.
End DatabaseManager.

(** ** [core/scheduler.py]

    [self.condition] is [threading.Condition(self.lock)] over a plain
    [threading.Lock]: [with self.condition] and [with self.lock] acquire
    the same, non-reentrant, lock. *)

Module DownloadScheduler.
Section scheduler.
Context {env : Externals}.

Definition with_condition {A} (body : M A) : M A := with_lock SchedulerLock body.

(** [self.condition.notify()] *)
Definition notify : M unit :=
  modify (λ w, World.set_condition_notified (S (World.condition_notified w)) w).

Definition schedule_download (task : nat) : M bool :=
  x ← deref task;
  if negb (Py.truthy_float (DownloadTask.scheduled_time x)) then mret false
  else
    now ← time_time;
    if Py.le (default (Py.Finite 0) (DownloadTask.scheduled_time x)) (Py.Finite now)
    then mret false
    else
      with_condition
        (let scheduled_item :=
           ScheduledItem.mk (default (Py.Finite 0) (DownloadTask.scheduled_time x)) task in
         modify (λ w, World.set_scheduled_downloads
                        (heapq.heappush ScheduledItem.lt (World.scheduled_downloads w)
                           scheduled_item) w) ;;
         notify) ;;
      mret true.

(** The first position, from [i], of an item whose task has the id
    [download_id]: what the loops over [self.scheduled_downloads] look for. *)
Fixpoint find_from (items : list ScheduledItem.t) (i : nat) (download_id : string)
  : M (option (nat * ScheduledItem.t)) :=
  match items with
  | [] => mret None
  | item :: rest =>
      x ← deref (ScheduledItem.task item);
      if String.eqb (DownloadTask.id x) download_id then mret (Some (i, item))
      else find_from rest (S i) download_id
  end.

Definition unschedule_download (download_id : string) : M bool :=
  with_condition
    (items ← gets World.scheduled_downloads;
     found ← find_from items 0 download_id;
     match found with
     | Some (i, _) =>
         modify (λ w, World.set_scheduled_downloads
                        (heapq.heapify ScheduledItem.lt
                           (delete i (World.scheduled_downloads w))) w) ;;
         mret true
     | None => mret false
     end).

Definition reschedule_download (download_id : string) (new_time : Py.float) : M bool :=
  with_condition
    (items ← gets World.scheduled_downloads;
     found ← find_from items 0 download_id;
     match found with
     | Some (_, item) =>
         unschedule_download download_id ;;
         update (ScheduledItem.task item) (DownloadTask.set_scheduled_time (Some new_time)) ;;
         schedule_download (ScheduledItem.task item)
     | None => mret false
     end).

Definition get_next_scheduled_time : M (option Py.float) :=
  with_lock SchedulerLock
    (gets (λ w, ScheduledItem.scheduled_time <$> World.scheduled_downloads w !! 0%nat)).

Definition clear_all_schedules : M nat :=
  with_condition
    (count ← gets (λ w, length (World.scheduled_downloads w));
     modify (World.set_scheduled_downloads []) ;;
     mret count).

(** One turn of [_scheduler_loop] that finds the heap non-empty and its
    first item due: the item is popped and handed to [start_callback].
    The other turns wait and change nothing. *)
Definition release_due (start_callback : nat → M unit) : M unit :=
  with_condition
    (items ← gets World.scheduled_downloads;
     match items !! 0%nat with
     | None => mret ()
     | Some next_item =>
         current_time ← time_time;
         if Py.le (ScheduledItem.scheduled_time next_item) (Py.Finite current_time) then
           match heapq.heappop ScheduledItem.lt items with
           | Some (item, rest) =>
               modify (World.set_scheduled_downloads rest) ;;
               try_except (start_callback (ScheduledItem.task item)) (λ _, mret ())
           | None => mret ()
           end
         else mret ()
     end).

Definition get_scheduled_downloads : M (list (Py.float * nat)) :=
  with_lock SchedulerLock
    (gets (λ w, (λ item, (ScheduledItem.scheduled_time item, ScheduledItem.task item))
                  <$> World.scheduled_downloads w)).

Definition schedule_download_after (task : nat) (delay_seconds : Z) : M bool :=
  now ← time_time;
  let scheduled_time := (now + inject_Z delay_seconds)%Q in
  update task (DownloadTask.set_scheduled_time (Some (Py.Finite scheduled_time))) ;;
  schedule_download task.

Definition get_overdue_downloads : M (list nat) :=
  current_time ← time_time;
  with_lock SchedulerLock
    (gets (λ w, ScheduledItem.task
                  <$> List.filter
                        (λ item, Py.le (ScheduledItem.scheduled_time item)
                                   (Py.Finite current_time))
                        (World.scheduled_downloads w))).

(** [==] of the dataclass [ScheduledItem]: equal times and the same task
    object. ([list.remove] also takes an item that is the very object it
    is given for equal to it, NaN or not; the items it is given here
    have a time below the cutoff, and so a time that is not NaN.) *)
Definition item_eqb (a b : ScheduledItem.t) : bool :=
  Py.eqb (ScheduledItem.scheduled_time a) (ScheduledItem.scheduled_time b)
  && Nat.eqb (ScheduledItem.task a) (ScheduledItem.task b).

(** [list.remove(item)]: the list without its first element equal to
    [item]; [None] is the [ValueError] of a list that has none. *)
Fixpoint list_remove (items : list ScheduledItem.t) (item : ScheduledItem.t)
  : option (list ScheduledItem.t) :=
  match items with
  | [] => None
  | first :: rest =>
      if item_eqb first item then Some rest
      else cons first <$> list_remove rest item
  end.

(** The loop of [cleanup_old_schedules] over [old_schedules], from the
    count [removed_count]. *)
Fixpoint remove_each (old_schedules : list ScheduledItem.t) (removed_count : Z) : M Z :=
  match old_schedules with
  | [] => mret removed_count
  | old_item :: rest =>
      items ← gets World.scheduled_downloads;
      match list_remove items old_item with
      | Some items' =>
          modify (World.set_scheduled_downloads items') ;;
          remove_each rest (removed_count + 1)%Z
      | None => raise "ValueError"
      end
  end.

Definition cleanup_old_schedules (max_age_hours : Z) : M Z :=
  current_time ← time_time;
  let cutoff_time := (current_time - inject_Z (max_age_hours * 3600))%Q in
  with_condition
    (items ← gets World.scheduled_downloads;
     let old_schedules :=
       List.filter (λ item, Py.lt (ScheduledItem.scheduled_time item) (Py.Finite cutoff_time))
         items in
     removed_count ← remove_each old_schedules 0%Z;
     (if (0 <? removed_count)%Z
      then modify (λ w, World.set_scheduled_downloads
                          (heapq.heapify ScheduledItem.lt (World.scheduled_downloads w)) w)
      else mret ()) ;;
     mret removed_count).

End scheduler.
End DownloadScheduler.

(** ** [core/download_engine.py]

    The engine is built with the manager's [_on_progress_update] and
    [_on_status_change] as its two callbacks; they are the parameters
    [progress_callback] and [status_callback] here. Threads are not run:
    [_start_download_threads] records the threads it starts, one for
    each part, and the state a method leaves is that of its own steps;
    the steps of the threads follow them. The body of a part's thread is
    the method [_download_part]. *)

Module DownloadEngine.
Section engine.
Context {env : Externals}.
Context (progress_callback status_callback : nat → M unit).
Local Open Scope Z_scope.

Definition _notify_status_change (task : nat) : M unit := status_callback task.

Definition _validate_task (task : nat) : M bool :=
  x ← deref task;
  if String.eqb (DownloadTask.url x) "" then mret false
  else
    reachable ← HTTPClient.test_connection (DownloadTask.url x);
    if negb reachable then mret false else mret true.

Definition _get_file_info (task : nat) : M (option HTTPClient.FileInfo) :=
  x ← deref task;
  try_except (info ← HTTPClient.get_file_info (DownloadTask.url x); mret (Some info))
             (λ _, mret None).

Definition _update_task_with_file_info (task : nat) (file_info : HTTPClient.FileInfo)
  : M unit :=
  update task (DownloadTask.set_file_size (HTTPClient.fi_file_size file_info)) ;;
  update task (DownloadTask.set_supports_range_requests
                 (HTTPClient.fi_supports_range file_info)) ;;
  update task (DownloadTask.set_content_type (Some (HTTPClient.fi_content_type file_info))) ;;
  update task (DownloadTask.set_headers (HTTPClient.fi_headers file_info)) ;;
  x ← deref task;
  match HTTPClient.fi_filename file_info with
  | Some server_filename =>
      if Py.truthy_str (Some server_filename)
         && (String.eqb (DownloadTask.filename x) ""
             || String.prefix "download_" (DownloadTask.filename x))
      then update task (DownloadTask.set_filename server_filename)
      else mret ()
  | None => mret ()
  end.

Definition _check_disk_space (task : nat) : M bool :=
  x ← deref task;
  if DownloadTask.file_size x <=? 0 then mret true
  else
    let destination :=
      if Py.truthy_str (DownloadTask.destination x)
      then default ""%string (DownloadTask.destination x)
      else download_directory settings in
    mret (FileManager.ensure_sufficient_space destination (DownloadTask.file_size x)).

(** The number of threads [_setup_download] decides on. *)
Definition planned_threads (x : DownloadTask.t) : Z :=
  let max_threads := max_threads_per_download settings in
  if DownloadTask.supports_range_requests x && (1024 * 1024 <? DownloadTask.file_size x)
  then Z.min max_threads (Z.max 1 (DownloadTask.file_size x `div` (1024 * 1024)))
  else 1.

(** [for part in task.parts: part.temp_file_path = create_temp_file(...)],
    over the parts at the positions [i], [i + 1], ... *)
Fixpoint create_temp_files (task : nat) (task_id : string) (parts : list DownloadPart.t)
    (i : nat) : M unit :=
  match parts with
  | [] => mret ()
  | part :: rest =>
      path ← FileManager.create_temp_file task_id (DownloadPart.part_number part);
      update task (λ x, DownloadTask.set_parts
                          (alter (DownloadPart.set_temp_file_path (Some path)) i
                             (DownloadTask.parts x)) x) ;;
      create_temp_files task task_id rest (S i)
  end.

Definition _setup_download (task : nat) : M unit :=
  x ← deref task;
  let num_threads := planned_threads x in
  update task (DownloadTask.setup_multithread_download num_threads (DownloadTask.file_size x)) ;;
  x ← deref task;
  create_temp_files task (DownloadTask.id x) (DownloadTask.parts x) 0 ;;
  with_lock EngineLock
    (start_time ← time_time;
     last_update ← time_time;
     modify (λ w, World.set_progress_data
                    (<[DownloadTask.id x := (start_time, last_update, 0)]>
                       (World.progress_data w)) w)) ;;
  modify (λ w, World.set_stop_events (<[DownloadTask.id x := false]> (World.stop_events w)) w) ;;
  now ← time_time;
  update task (DownloadTask.start now) ;;
  _notify_status_change task.

Definition _start_download_threads (task : nat) : M bool :=
  x ← deref task;
  modify (λ w, World.set_engine_active_downloads
                 ({[DownloadTask.id x]} ∪ World.engine_active_downloads w) w) ;;
  modify (λ w, World.set_download_threads
                 (<[DownloadTask.id x := DownloadPart.part_number <$> DownloadTask.parts x]>
                    (World.download_threads w)) w) ;;
  mret true.

Definition start_download (task : nat) : M bool :=
  try_except
    (x ← deref task;
     active ← gets (λ w, bool_decide (DownloadTask.id x ∈ World.engine_active_downloads w));
     if active : bool then mret false
     else
       valid ← _validate_task task;
       if negb valid then update task (DownloadTask.error "Invalid download task") ;; mret false
       else
         file_info ← _get_file_info task;
         match file_info with
         | None =>
             update task (DownloadTask.error "Failed to get file information") ;; mret false
         | Some file_info =>
             _update_task_with_file_info task file_info ;;
             space ← _check_disk_space task;
             if negb space
             then update task (DownloadTask.error "Insufficient disk space") ;; mret false
             else _setup_download task ;; _start_download_threads task
         end)
    (λ e, update task (DownloadTask.error ("Failed to start download: " +:+ e)) ;; mret false).

(** [self.stop_events[task_id]], a [KeyError] when absent *)
Definition stop_event (task_id : string) : M bool :=
  ev ← gets (λ w, World.stop_events w !! task_id);
  match ev with
  | Some b => mret b
  | None => raise "KeyError"
  end.

Definition set_stop_event (task_id : string) (b : bool) : M unit :=
  modify (λ w, match World.stop_events w !! task_id with
               | Some _ => World.set_stop_events (<[task_id := b]> (World.stop_events w)) w
               | None => w
               end).

(** [_wait_for_threads] joins the threads of a download; it changes no
    attribute. *)
Definition _wait_for_threads (download_id : string) : M unit := mret ().

Definition _cleanup_download (task : nat) : M unit :=
  try_except
    (x ← deref task;
     FileManager.cleanup_temp_files
       (omap (λ part, if Py.truthy_str (DownloadPart.temp_file_path part)
                      then DownloadPart.temp_file_path part else None)
          (DownloadTask.parts x)) ;;
     with_lock EngineLock
       (modify (λ w, World.set_progress_data (delete (DownloadTask.id x) (World.progress_data w)) w)) ;;
     modify (λ w, World.set_download_threads
                    (delete (DownloadTask.id x) (World.download_threads w)) w) ;;
     modify (λ w, World.set_stop_events (delete (DownloadTask.id x) (World.stop_events w)) w))
    (λ _, mret ()).

Definition pause_download (task : nat) : M bool :=
  try_except
    (x ← deref task;
     active ← gets (λ w, bool_decide (DownloadTask.id x ∈ World.engine_active_downloads w));
     if negb active then mret false
     else
       set_stop_event (DownloadTask.id x) true ;;
       _wait_for_threads (DownloadTask.id x) ;;
       update task DownloadTask.pause ;;
       _notify_status_change task ;;
       mret true)
    (λ _, mret false).

Definition resume_download (task : nat) : M bool :=
  try_except
    (x ← deref task;
     if negb (bool_decide (DownloadTask.status x = PAUSED)) then mret false
     else
       set_stop_event (DownloadTask.id x) false ;;
       _start_download_threads task)
    (λ e, update task (DownloadTask.error ("Failed to resume download: " +:+ e)) ;; mret false).

Definition cancel_download (task : nat) : M bool :=
  try_except
    (x ← deref task;
     set_stop_event (DownloadTask.id x) true ;;
     _wait_for_threads (DownloadTask.id x) ;;
     _cleanup_download task ;;
     update task DownloadTask.cancel ;;
     _notify_status_change task ;;
     mret true)
    (λ _, mret false).

(** [task.update_progress], [calculate_speed] and [calculate_eta], on
    rationals. *)
Definition update_progress (downloaded_bytes : Z) (x : DownloadTask.t) : DownloadTask.t :=
  let x := DownloadTask.set_downloaded_bytes downloaded_bytes x in
  if 0 <? DownloadTask.file_size x
  then DownloadTask.set_progress_percentage
         ((inject_Z downloaded_bytes / inject_Z (DownloadTask.file_size x)) * 100)%Q x
  else DownloadTask.set_progress_percentage 0%Q x.

Definition calculate_speed (time_elapsed : Q) (x : DownloadTask.t) : DownloadTask.t :=
  if Py.float_lt 0 time_elapsed
  then DownloadTask.set_download_speed
         (inject_Z (DownloadTask.downloaded_bytes x) / time_elapsed)%Q x
  else x.

Definition calculate_eta (x : DownloadTask.t) : DownloadTask.t :=
  if Py.float_lt 0 (DownloadTask.download_speed x) && (0 <? DownloadTask.file_size x)
  then DownloadTask.set_eta
         (inject_Z (DownloadTask.file_size x - DownloadTask.downloaded_bytes x)
            / DownloadTask.download_speed x)%Q x
  else DownloadTask.set_eta 0%Q x.

Definition _update_overall_progress (task : nat) : M unit :=
  with_lock EngineLock
    (x ← deref task;
     let total_downloaded := DownloadTask.get_total_downloaded_bytes x in
     update task (update_progress total_downloaded) ;;
     current_time ← time_time;
     progress ← gets (λ w, World.progress_data w !! DownloadTask.id x);
     let time_elapsed :=
       (current_time - match progress with Some (start_time, _, _) => start_time
                                         | None => current_time end)%Q in
     (if Py.float_lt 0 time_elapsed
      then update task (calculate_speed time_elapsed) ;; update task calculate_eta
      else mret ()) ;;
     modify (λ w, World.set_progress_data
                    (alter (λ '(start_time, _, _), (start_time, current_time, total_downloaded))
                       (DownloadTask.id x) (World.progress_data w)) w) ;;
     progress_callback task).

(** [part.attr = v] for the part at position [i] of [task.parts]. *)
Definition update_part (task : nat) (i : nat) (f : DownloadPart.t → DownloadPart.t) : M unit :=
  update task (λ x, DownloadTask.set_parts (alter f i (DownloadTask.parts x)) x).

(** The [GET] that [_download_part] sends for a part, given by its
    [Range] header: [Some (Some (start, end))] is a request for the bytes
    from the resume position, sent when the task supports ranges and has
    more than one part; [Some None] is a request without a [Range] header,
    for the whole resource; [None] is no request at all, the part being
    complete already. *)
Definition request_of (x : DownloadTask.t) (part : DownloadPart.t)
  : option (option (Z * Z)) :=
  let resume_position := DownloadPart.downloaded_bytes part in
  let start_byte := DownloadPart.start_byte part + resume_position in
  if DownloadPart.end_byte part <? start_byte then None
  else if DownloadTask.supports_range_requests x
          && (1 <? Z.of_nat (length (DownloadTask.parts x)))
       then Some (Some (start_byte, DownloadPart.end_byte part))
       else Some None.

(** [_download_part(task, part)], for the part at position [i] of
    [task.parts]. *)
Definition _download_part (task : nat) (i : nat) : M unit :=
  x ← deref task;
  match DownloadTask.parts x !! i with
  | None => raise "IndexError"
  | Some part =>
      try_except
        (update_part task i (DownloadPart.set_status DOWNLOADING) ;;
         let resume_position := DownloadPart.downloaded_bytes part in
         let part_progress_callback (bytes_downloaded : Z) : M unit :=
           stopped ← stop_event (DownloadTask.id x);
           if stopped : bool then raise "Download cancelled"
           else
             update_part task i
               (DownloadPart.set_downloaded_bytes (resume_position + bytes_downloaded)) ;;
             _update_overall_progress task in
         match request_of x part with
         | None => update_part task i (DownloadPart.set_status COMPLETED)
         | Some range =>
             data ← match range with
                    | Some (start_byte, end_byte) =>
                        HTTPClient.download_range (DownloadTask.url x) start_byte end_byte
                          part_progress_callback
                    | None =>
                        HTTPClient.download_full (DownloadTask.url x) part_progress_callback
                    end;
             if bool_decide (data = []) then mret ()
             else
               match DownloadPart.temp_file_path part with
               | Some temp_file_path =>
                   FileManager.append_to_temp_file temp_file_path data ;;
                   update_part task i
                     (DownloadPart.set_downloaded_bytes
                        (Z.of_nat (length data) + resume_position)) ;;
                   update_part task i (DownloadPart.set_status COMPLETED)
               | None => raise "TypeError"
               end
         end)
        (λ e,
           stopped ← stop_event (DownloadTask.id x);
           if stopped : bool then mret ()
           else update_part task i (DownloadPart.set_status ERROR))
  end.

(** The temporary files [_complete_download] merges: those of the parts,
    in the order of the parts, that have a path at which a file exists. *)
Definition existing_temp_files (x : DownloadTask.t) (files : gmap string (list Byte.byte))
  : list string :=
  omap (λ part, match DownloadPart.temp_file_path part with
                | Some path =>
                    if Py.truthy_str (Some path) && bool_decide (is_Some (files !! path))
                    then Some path else None
                | None => None
                end)
       (DownloadTask.parts x).

(** [_complete_download] *)
Definition _complete_download (task : nat) : M unit :=
  try_except
    (x ← deref task;
     files ← gets World.files;
     let temp_files := existing_temp_files x files in
     if bool_decide (temp_files = []) then
       update task (DownloadTask.error "No temporary files found")
     else
       (if negb (Py.truthy_str (DownloadTask.destination x))
        then update task (DownloadTask.set_destination
                            (Some (FileManager.get_file_category_directory
                                     (DownloadTask.filename x))))
        else mret ()) ;;
       x ← deref task;
       let final_path :=
         FileManager.path_join (default ""%string (DownloadTask.destination x))
           (DownloadTask.filename x) in
       merged ← FileManager.merge_temp_files temp_files final_path;
       if merged : bool then
         verified ← FileManager.verify_file_integrity final_path (DownloadTask.file_size x);
         if verified : bool then
           FileManager.cleanup_temp_files temp_files ;;
           now ← time_time;
           update task (DownloadTask.complete now) ;;
           _notify_status_change task
         else update task (DownloadTask.error "File integrity verification failed")
       else update task (DownloadTask.error "Failed to merge temporary files"))
    (λ e, update task (DownloadTask.error ("Failed to complete download: " +:+ e))).

(** One turn of the loop of [_monitor_progress], condition and body:
    whether the loop goes on after it. It goes on only after
    [time.sleep(1)]. *)
Definition _monitor_progress_turn (task : nat) : M bool :=
  x ← deref task;
  active ← gets (λ w, bool_decide (DownloadTask.id x ∈ World.engine_active_downloads w));
  if negb active then mret false
  else
    stopped ← stop_event (DownloadTask.id x);
    if stopped : bool then mret false
    else
      try_except
        (let completed_parts :=
           List.filter (λ part, bool_decide (DownloadPart.status part = COMPLETED))
             (DownloadTask.parts x) in
         if (length completed_parts =? length (DownloadTask.parts x))%nat then
           _complete_download task ;; mret false
         else
           let error_parts :=
             List.filter (λ part, bool_decide (DownloadPart.status part = ERROR))
               (DownloadTask.parts x) in
           if negb (bool_decide (error_parts = [])) && negb (DownloadTask.can_retry x) then
             update task (DownloadTask.error "Download failed after maximum retries") ;;
             _cleanup_download task ;;
             mret false
           else mret true)
        (λ _, mret false).

(** The end of [_monitor_progress], after the loop. *)
Definition _monitor_progress_end (task : nat) : M unit :=
  x ← deref task;
  modify (λ w, World.set_engine_active_downloads
                 (World.engine_active_downloads w ∖ {[DownloadTask.id x]}) w).

Definition is_download_active (download_id : string) : M bool :=
  gets (λ w, bool_decide (download_id ∈ World.engine_active_downloads w)).

End engine.
End DownloadEngine.

(** ** [core/download_manager.py] *)

Module DownloadManager.

(** [queue.PriorityQueue]: [put] is [heappush] and [get] is [heappop] on
    the list it keeps. *)
Definition put (queue : list QueuedDownload.t) (item : QueuedDownload.t)
  : list QueuedDownload.t :=
  heapq.heappush QueuedDownload.lt queue item.

Definition get (queue : list QueuedDownload.t)
  : option (QueuedDownload.t * list QueuedDownload.t) :=
  heapq.heappop QueuedDownload.lt queue.

Section manager.
Context {env : Externals}.
Local Open Scope Z_scope.

(** The callbacks registered with [add_status_callback] and
    [add_progress_callback] belong to the user interface; a call to them
    is recorded with what they are shown. *)
Definition _notify_status_callbacks (task : nat) : M unit :=
  x ← deref task;
  modify (λ w, World.set_status_callbacks_called
                 (World.status_callbacks_called w ++ [(task, DownloadTask.status x)]) w).

Definition _notify_progress_callbacks (task : nat) : M unit :=
  x ← deref task;
  modify (λ w, World.set_progress_callbacks_called
                 (World.progress_callbacks_called w ++ [(task, DownloadTask.downloaded_bytes x)]) w).

(** [notifier.notify_download_completed] and [notify_download_failed] *)
Definition notify (task : nat) : M unit :=
  x ← deref task;
  modify (λ w, World.set_notifier_called
                 (World.notifier_called w ++ [(task, DownloadTask.status x)]) w).

Definition remove_active (download_id : string) : M unit :=
  with_lock ManagerLock
    (modify (λ w, World.set_active_downloads (delete download_id (World.active_downloads w)) w)).

Definition _on_progress_update (task : nat) : M unit :=
  x ← deref task;
  current_time ← time_time;
  last ← gets (λ w, default 0%Q (World.last_db_update w !! task));
  modify (λ w, World.set_last_db_update (<[task := last]> (World.last_db_update w)) w) ;;
  (if Py.float_lt 5 (current_time - last)%Q then
     DatabaseManager.update_download_progress (DownloadTask.id x)
       (DownloadTask.downloaded_bytes x) (DownloadTask.progress_percentage x)
       (DownloadTask.download_speed x) (DownloadTask.eta x) ;;
     modify (λ w, World.set_last_db_update (<[task := current_time]> (World.last_db_update w)) w)
   else mret ()) ;;
  _notify_progress_callbacks task.

Definition _on_status_change (task : nat) : M unit :=
  DatabaseManager.save_download task ;;
  x ← deref task;
  (if bool_decide (DownloadTask.status x ∈ [COMPLETED; CANCELLED; ERROR]) then
     remove_active (DownloadTask.id x) ;;
     (if bool_decide (DownloadTask.status x = COMPLETED) then notify task
      else if bool_decide (DownloadTask.status x = ERROR) then notify task
      else mret ())
   else mret ()) ;;
  _notify_status_callbacks task.

(** The engine the manager builds in its constructor. *)
Definition engine_start_download : nat → M bool :=
  DownloadEngine.start_download _on_status_change.
Definition engine_pause_download : nat → M bool :=
  DownloadEngine.pause_download _on_status_change.
Definition engine_cancel_download : nat → M bool :=
  DownloadEngine.cancel_download _on_status_change.

Definition get_download (download_id : string) : M (option nat) :=
  with_lock ManagerLock (gets (λ w, World.all_downloads w !! download_id)).

(** [_is_duplicate_url]: [any] over the tasks of the registry whose
    status is neither completed nor cancelled. *)
Definition is_duplicate_of (url : string) (w : World.t) (entry : string * nat) : bool :=
  match World.objects w !! entry.2 with
  | Some x =>
      negb (bool_decide (DownloadTask.status x ∈ [COMPLETED; CANCELLED]))
      && String.eqb (DownloadTask.url x) url
  | None => false
  end.

Definition _is_duplicate_url (url : string) : M bool :=
  with_lock ManagerLock
    (gets (λ w, existsb (is_duplicate_of url w) (map_to_list (World.all_downloads w)))).

Definition _queue_download (task : nat) : M unit :=
  x ← deref task;
  let queued_download := QueuedDownload.mk (DownloadTask.priority x) task in
  modify (λ w, World.set_download_queue (put (World.download_queue w) queued_download) w) ;;
  update task (DownloadTask.set_status QUEUED) ;;
  DatabaseManager.save_download task ;;
  _notify_status_callbacks task.

(** The [try] block of [add_download]. *)
Definition add_download_body (url : string) (filename destination : option string)
    (scheduled_time : option Py.float) (priority : Z) : M nat :=
  (if negb (validators_url url) then raise "Invalid URL" else mret ()) ;;
  duplicate ← _is_duplicate_url url;
  (if duplicate : bool then raise "URL already exists in downloads" else mret ()) ;;
  t_id ← time_time;
  t_created ← time_time;
  task ← new_object (DownloadTask.__init__ t_id t_created url filename destination);
  update task (DownloadTask.set_scheduled_time scheduled_time) ;;
  update task (DownloadTask.set_priority priority) ;;
  (if enable_video_detection settings then
     match detect_video url with
     | Some video_info =>
         update task (DownloadTask.set_is_video true) ;;
         update task (DownloadTask.set_video_quality (vi_quality video_info)) ;;
         (if Py.truthy_str (vi_direct_url video_info)
          then update task (DownloadTask.set_url (default ""%string (vi_direct_url video_info)))
          else mret ())
     | None => mret ()
     end
   else mret ()) ;;
  x ← deref task;
  (if negb (Py.truthy_str (DownloadTask.destination x))
   then update task (DownloadTask.set_destination (Some (download_directory settings)))
   else mret ()) ;;
  DatabaseManager.save_download task ;;
  x ← deref task;
  with_lock ManagerLock
    (modify (λ w, World.set_all_downloads (<[DownloadTask.id x := task]> (World.all_downloads w)) w)) ;;
  (if Py.truthy_float scheduled_time then
     now ← time_time;
     if Py.lt (Py.Finite now) (default (Py.Finite 0) scheduled_time) then
       DownloadScheduler.schedule_download task ;;
       update task (DownloadTask.set_status QUEUED)
     else _queue_download task
   else _queue_download task) ;;
  _notify_status_callbacks task ;;
  mret task.

(** [add_download]: any exception of the body is printed and [None] is
    returned. *)
Definition add_download (url : string) (filename destination : option string)
    (scheduled_time : option Py.float) (priority : Z) : M (option nat) :=
  try_except
    (task ← add_download_body url filename destination scheduled_time priority;
     mret (Some task))
    (λ _, mret None).

Definition start_download (download_id : string) : M bool :=
  task ← get_download download_id;
  match task with
  | None => mret false
  | Some task =>
      x ← deref task;
      if bool_decide (DownloadTask.status x ∈ [PENDING; PAUSED])
      then _queue_download task ;; mret true
      else mret false
  end.

Definition pause_download (download_id : string) : M bool :=
  task ← get_download download_id;
  match task with
  | None => mret false
  | Some task =>
      x ← deref task;
      if bool_decide (DownloadTask.status x = DOWNLOADING) then
        success ← engine_pause_download task;
        (if success : bool then
           remove_active download_id ;;
           DatabaseManager.save_download task ;;
           mret ()
         else mret ()) ;;
        mret success
      else mret false
  end.

Definition resume_download (download_id : string) : M bool :=
  task ← get_download download_id;
  match task with
  | None => mret false
  | Some task =>
      x ← deref task;
      if bool_decide (DownloadTask.status x = PAUSED)
      then _queue_download task ;; mret true
      else mret false
  end.

Definition cancel_download (download_id : string) : M bool :=
  task ← get_download download_id;
  match task with
  | None => mret false
  | Some task =>
      x ← deref task;
      (if bool_decide (DownloadTask.status x = DOWNLOADING)
       then engine_cancel_download task ;; mret ()
       else mret ()) ;;
      update task DownloadTask.cancel ;;
      DatabaseManager.save_download task ;;
      remove_active download_id ;;
      _notify_status_callbacks task ;;
      mret true
  end.

Definition delete_download (download_id : string) : M bool :=
  cancel_download download_id ;;
  success ← DatabaseManager.delete_download download_id;
  with_lock ManagerLock
    (modify (λ w, World.set_all_downloads (delete download_id (World.all_downloads w)) w)) ;;
  mret success.


(** The loop of [_load_downloads] over the tasks loaded; it runs inside
    [with self.lock]. *)
Definition _load_downloads_loop (downloads : list nat) : M unit :=
  for_each downloads (λ task,
    x ← deref task;
    modify (λ w, World.set_all_downloads (<[DownloadTask.id x := task]> (World.all_downloads w)) w) ;;
    (if bool_decide (DownloadTask.status x = DOWNLOADING) then
       update task (DownloadTask.set_status PAUSED) ;;
       DatabaseManager.save_download task ;;
       mret ()
     else mret ()) ;;
    scheduled ← is_scheduled task;
    if scheduled : bool
    then DownloadScheduler.schedule_download task ;; mret ()
    else mret ()).

Definition _load_downloads : M unit :=
  downloads ← DatabaseManager.load_all_downloads;
  with_lock ManagerLock (_load_downloads_loop downloads).

Definition _start_download_internal (task : nat) : M bool :=
  try_except
    (success ← engine_start_download task;
     (if success : bool then DatabaseManager.save_download task ;; mret () else mret ()) ;;
     mret success)
    (λ e,
       update task (DownloadTask.error ("Failed to start download: " +:+ e)) ;;
       DatabaseManager.save_download task ;;
       mret false).

Definition _start_scheduled_download (task : nat) : M unit := _queue_download task.

(** One turn of the loop of [_process_queue]: the task it hands to the
    engine, if any. A turn that finds the cap reached, or the queue empty,
    sleeps and changes nothing. *)
Definition _process_queue_turn : M (option nat) :=
  let max_concurrent := max_concurrent_downloads settings in
  active_count ← with_lock ManagerLock (gets (λ w, Z.of_nat (size (World.active_downloads w))));
  if max_concurrent <=? active_count then mret None
  else
    queue ← gets World.download_queue;
    match get queue with
    | None => mret None
    | Some (queued_download, rest) =>
        modify (World.set_download_queue rest) ;;
        let task := QueuedDownload.task queued_download in
        try_except
          (started ← _start_download_internal task;
           x ← deref task;
           (if started : bool then
              with_lock ManagerLock
                (modify (λ w, World.set_active_downloads
                                (<[DownloadTask.id x := task]> (World.active_downloads w)) w))
            else mret ()) ;;
           mret (Some task))
          (λ _, mret (Some task))
    end.

End manager.
End DownloadManager.

(** ** Vocabulary of the statements *)

(** [returns m held w Q]: run by a thread holding the locks [held], from
    the state [w], the method [m] returns, with a value and in a state
    that satisfy [Q]. *)
Definition returns {A} (m : M A) (held : list Lock) (w : World.t)
    (Q : A → World.t → Prop) : Prop :=
  match m held w with
  | Returns a w' => Q a w'
  | _ => False
  end.

(** [outcome m held w Q E]: the method [m] does not block; if it returns,
    its value and final state satisfy [Q], and if it raises, the state it
    leaves satisfies [E]. *)
Definition outcome {A} (m : M A) (held : list Lock) (w : World.t)
    (Q : A → World.t → Prop) (E : World.t → Prop) : Prop :=
  match m held w with
  | Returns a w' => Q a w'
  | Raises _ w' => E w'
  | Blocks => False
  end.

(** [frames R m held]: however [m] ends, returning or raising, it does not
    block and the state it leaves is related by [R] to the one it started
    from. *)
Definition frames {A} (R : World.t → World.t → Prop) (m : M A) (held : list Lock) : Prop :=
  ∀ w, outcome m held w (λ _ w', R w w') (λ w', R w w').

(** The parts of a task are in order and adjacent: they are numbered
    from 0, the first starts at byte 0, each one starts right after the
    one before it ends, and the last ends at the byte [file_size - 1]. *)
Definition chained (file_size : Z) (parts : list DownloadPart.t) : Prop :=
  (∀ (i : nat) p, parts !! i = Some p → DownloadPart.part_number p = Z.of_nat i) ∧
  (∃ p, parts !! 0%nat = Some p ∧ DownloadPart.start_byte p = 0%Z) ∧
  (∀ (i : nat) p q, parts !! i = Some p → parts !! S i = Some q →
     DownloadPart.start_byte q = (DownloadPart.end_byte p + 1)%Z) ∧
  (∃ p, last parts = Some p ∧ DownloadPart.end_byte p = (file_size - 1)%Z).

(** The bytes of a part: those from its first byte to its last. *)
Definition in_part (b : Z) (p : DownloadPart.t) : Prop :=
  (DownloadPart.start_byte p ≤ b ≤ DownloadPart.end_byte p)%Z.

(** The parts tile the bytes [0 .. file_size - 1]: they are in order and
    adjacent, and none of them is inverted, ending more than one byte
    before it starts. (A part that ends one byte before it starts has no
    bytes.) *)
Definition tiles (file_size : Z) (parts : list DownloadPart.t) : Prop :=
  chained file_size parts ∧
  ∀ (i : nat) p, parts !! i = Some p →
    (DownloadPart.start_byte p ≤ DownloadPart.end_byte p + 1)%Z.

(** No gaps and no overlaps: the bytes of the parts are bytes of the
    file, and every byte of the file is a byte of exactly one part. *)
Definition covers_once (file_size : Z) (parts : list DownloadPart.t) : Prop :=
  (∀ (i : nat) p b, parts !! i = Some p → in_part b p → (0 ≤ b < file_size)%Z) ∧
  (∀ b, (0 ≤ b < file_size)%Z →
        ∃ (i : nat) p, parts !! i = Some p ∧ in_part b p ∧
                       ∀ (j : nat) q, parts !! j = Some q → in_part b q → j = i).

(** The byte range and number of a part, without its progress. *)
Definition part_range (p : DownloadPart.t) : Z * Z * Z :=
  (DownloadPart.part_number p, DownloadPart.start_byte p, DownloadPart.end_byte p).

(** An environment for the examples: a server with one 100-byte file
    that accepts range requests, the default settings, and a clock that
    advances by one second at every reading. *)
Definition example_body : list Byte.byte := replicate 100 Byte.x2a.

Lemma example_clock_after_epoch (n : nat) : (0 <= inject_Z (1000 + Z.of_nat n))%Q.
Proof. unfold Qle. simpl. lia. Qed.

Definition example_externals : Externals :=
  {| md5_id := λ url now, "0123456789ab"%string;
     url_path_basename := λ url, Some "file.bin"%string;
     validators_url := λ url, String.prefix "http" url;
     detect_video := λ url, None;
     settings := {| max_threads_per_download := 8;
                    max_concurrent_downloads := 3;
                    enable_video_detection := true;
                    download_directory := "/home/user/Downloads";
                    category_directory := λ ext, "/home/user/Downloads"%string |};
     json_dumps := λ d, "{}"%string;
     json_loads := λ s, Some ∅;
     clock := λ n, inject_Z (1000 + Z.of_nat n);
     clock_after_epoch := example_clock_after_epoch;
     gettempdir := "/tmp";
     available_space := λ path, 1000000000000%Z;
     chunk_size := 8192;
     http_head := λ url follow,
       Some {| head_status_code := 200; head_final_url := url;
               head_content_length := Some 100%Z;
               head_accept_ranges := Some "bytes"%string;
               head_content_type := Some "application/octet-stream"%string;
               head_filename := None; head_headers := ∅ |};
     http_get := λ url range,
       match range with
       | Some (s, e) => Some (take (Z.to_nat (e - s + 1)) (drop (Z.to_nat s) example_body))
       | None => Some example_body
       end |}.

(** A task as [DownloadTask(url, filename)] builds it at time 1000. *)
Definition example_task (url filename : string) : DownloadTask.t :=
  @DownloadTask.__init__ example_externals 1000 1000 url (Some filename) None.

(** A state with one task object, at reference 0, and nothing else. *)
Definition world_with (x : DownloadTask.t) : World.t :=
  World.set_next_ref 1 (World.set_objects {[ 0%nat := x ]} World.empty).

(** The example environment with another cap on the threads of a
    download. *)
Definition externals_with_max_threads (m : Z) : Externals :=
  let E := example_externals in
  {| md5_id := @md5_id E; url_path_basename := @url_path_basename E;
     validators_url := @validators_url E; detect_video := @detect_video E;
     settings := {| max_threads_per_download := m;
                    max_concurrent_downloads := 3;
                    enable_video_detection := true;
                    download_directory := "/home/user/Downloads";
                    category_directory := λ ext, "/home/user/Downloads"%string |};
     json_dumps := @json_dumps E; json_loads := @json_loads E; clock := @clock E;
     clock_after_epoch := @clock_after_epoch E;
     gettempdir := @gettempdir E; available_space := @available_space E;
     chunk_size := @chunk_size E; http_head := @http_head E; http_get := @http_get E |}.

(** A task of 5 MiB whose server accepts range requests, after the probe. *)
Definition five_mib_task : DownloadTask.t :=
  DownloadTask.set_supports_range_requests true
    (DownloadTask.set_file_size (5 * 1024 * 1024)
       (example_task "http://example.com/file.bin" "file.bin")).

(** *** The heap invariant of [heapq] *)

Section heap_vocabulary.
Context {A : Type} (lt : A → A → bool).

(** No item is smaller than the item at its parent position
    [(j - 1) / 2]. *)
Definition heap_ordered (heap : list A) : Prop :=
  ∀ (j : nat) c p, (0 < j)%nat → heap !! j = Some c → heap !! ((j - 1) / 2)%nat = Some p →
    lt c p = false.

(** The heap invariant around a hole at [pos]: it holds between the
    positions other than [pos], and the children of [pos] are not smaller
    than the parent of [pos]. *)
Definition hole_ordered (heap : list A) (pos : nat) : Prop :=
  (∀ (j : nat) c p, (0 < j)%nat → j ≠ pos → ((j - 1) / 2)%nat ≠ pos →
     heap !! j = Some c → heap !! ((j - 1) / 2)%nat = Some p → lt c p = false) ∧
  (∀ (j : nat) c g, (0 < j)%nat → ((j - 1) / 2)%nat = pos → (0 < pos)%nat →
     heap !! j = Some c → heap !! ((pos - 1) / 2)%nat = Some g → lt c g = false).

(** [newitem] can fill the hole as far as the children of [pos] go. *)
Definition fits_above (heap : list A) (pos : nat) (newitem : A) : Prop :=
  ∀ (j : nat) c, (0 < j)%nat → ((j - 1) / 2)%nat = pos → heap !! j = Some c →
    lt c newitem = false.



End heap_vocabulary.

(** *** The manager's queue *)




(** A task scheduled for the time [s], in the example environment. *)
Definition scheduled_task (s : Q) : DownloadTask.t :=
  DownloadTask.set_scheduled_time (Some (Py.Finite s))
    (example_task "http://example.com/file.bin" "file.bin").

(** A task whose scheduled time is NaN. *)
Definition nan_scheduled_task : DownloadTask.t :=
  DownloadTask.set_scheduled_time (Some Py.NaN)
    (example_task "http://example.com/file.bin" "file.bin").

(** *** The scheduler and the database *)

(** Every entry of the scheduler's heap refers to a task object. *)
Definition schedule_valid (w : World.t) : Prop :=
  Forall (λ item, is_Some (World.objects w !! ScheduledItem.task item))
    (World.scheduled_downloads w).

(** The download [download_id] is in the schedule. *)
Definition is_scheduled_id (w : World.t) (download_id : string) : Prop :=
  ∃ item x, item ∈ World.scheduled_downloads w ∧
            World.objects w !! ScheduledItem.task item = Some x ∧
            DownloadTask.id x = download_id.

(** A state whose schedule holds the one task of [world_with x]. *)
Definition world_scheduled (x : DownloadTask.t) : World.t :=
  World.set_scheduled_downloads
    [ScheduledItem.mk (default (Py.Finite 0) (DownloadTask.scheduled_time x)) 0]
    (world_with x).

(** A state whose database holds the row of one task, as the process that
    saved it left it, and nothing else: what a new process finds. *)
Definition world_persisted (x : DownloadTask.t) : World.t :=
  World.set_db_downloads
    {[ DownloadTask.id x := @DatabaseManager.row_of_task example_externals x ]}
    World.empty.

(** A task that was being downloaded when its process died. *)
Definition interrupted_task : DownloadTask.t :=
  DownloadTask.set_status DOWNLOADING
    (example_task "http://example.com/file.bin" "file.bin").

(** The database after [save_download] of a task whose attributes are [x]. *)
Definition saved {env : Externals} (x : DownloadTask.t) (w : World.t) : World.t :=
  let w := World.set_db_downloads
             (<[DownloadTask.id x := DatabaseManager.row_of_task x]> (World.db_downloads w)) w in
  if bool_decide (DownloadTask.parts x = []) then w
  else World.set_db_download_parts
         (<[DownloadTask.id x := DownloadTask.parts x]> (World.db_download_parts w)) w.

(** *** The manager's registry *)

(** Some task of the registry has the URL [url] and a status other than
    Completed and Cancelled. *)
Definition has_live_download (w : World.t) (url : string) : Prop :=
  ∃ download_id task x,
    World.all_downloads w !! download_id = Some task ∧
    World.objects w !! task = Some x ∧
    DownloadTask.url x = url ∧
    DownloadTask.status x ≠ COMPLETED ∧ DownloadTask.status x ≠ CANCELLED.

(** The task object [task] exists. *)
Definition alive (task : nat) (w : World.t) : Prop := is_Some (World.objects w !! task).

(** *** Resuming and completing a download *)

(** No request was sent between two states. *)
Definition same_requests (w w' : World.t) : Prop :=
  World.requests_sent w' = World.requests_sent w.

(** The requests [requests] were sent between two states, and no other. *)
Definition sent (requests : list HttpRequest) (w w' : World.t) : Prop :=
  World.requests_sent w' = World.requests_sent w ++ requests.

(** [m], run in [w] by a thread that holds the locks [held], ends,
    returning or raising, after sending [requests] and nothing else. *)
Definition sends {A} (requests : list HttpRequest) (m : M A) (held : list Lock)
    (w : World.t) : Prop :=
  outcome m held w (λ _ w', sent requests w w') (λ w', sent requests w w').


(** Between two states no file appeared under a new name, except
    possibly [final], and every task kept its file name. *)
Definition keeps_names (final : string) (w w' : World.t) : Prop :=
  dom (World.files w') ⊆ dom (World.files w) ∪ {[final]} ∧
  ∀ r, DownloadTask.filename <$> World.objects w' !! r
       = DownloadTask.filename <$> World.objects w !! r.

(** As [keeps_names], and the file [final] is as it was. *)
Definition keeps_final (final : string) (w w' : World.t) : Prop :=
  keeps_names final w w' ∧ World.files w' !! final = World.files w !! final.

(** The bytes of the files at [paths], one after the other. *)
Definition merged_bytes (paths : list string) (files : gmap string (list Byte.byte))
  : list Byte.byte :=
  concat ((λ path, default [] (files !! path)) <$> paths).

(** The path the engine gives the temporary file of part 0 of the example
    task. *)
Definition example_temp_path : string := "/tmp/DownloadManager/0123456789ab_part_0.tmp".

(** The example task, of 100 bytes, in one part of which [downloaded]
    bytes are in the temporary file; [supports_range_requests] is set, as
    [setup_multithread_download] leaves it. *)
Definition one_part_task (downloaded : Z) (status : DownloadStatus) : DownloadTask.t :=
  DownloadTask.set_destination (Some "/home/user/Downloads"%string)
    (DownloadTask.set_status DOWNLOADING
       (DownloadTask.set_parts
          [DownloadPart.mk 0 0 99 downloaded status (Some example_temp_path)]
          (DownloadTask.set_supports_range_requests true
             (DownloadTask.set_file_size 100
                (example_task "http://example.com/file.bin" "file.bin"))))).

(** A paused download: 50 bytes of the one part are in its temporary
    file, and the engine holds the task's stop event, cleared by
    [resume_download]. *)
Definition world_resuming : World.t :=
  World.set_stop_events {[ "0123456789ab"%string := false ]}
    (World.set_files {[ example_temp_path := replicate 50 Byte.x2a ]}
       (world_with (one_part_task 50 PAUSED))).

(** A download whose one part is complete, while a file of the final name
    exists already in the destination directory. *)
Definition world_completing : World.t :=
  World.set_files
    {[ example_temp_path := example_body;
       "/home/user/Downloads/file.bin"%string := [Byte.x01; Byte.x02; Byte.x03] ]}
    (world_with (one_part_task 100 COMPLETED)).

(** ** Vocabulary of the further properties *)

(** *** Names and files *)

(** The name [_resolve_filename_conflict] tries at [counter]:
    [directory / "<base_name> (<counter>)<extension>"]. *)
Definition numbered_path (directory : option string) (base_name extension : string)
    (counter : nat) : string :=
  let new_name := base_name +:+ " (" +:+ pretty counter +:+ ")" +:+ extension in
  match directory with
  | Some d => d +:+ "/" +:+ new_name
  | None => new_name
  end.

(** The numbered names of a path: its stem, the counter, its suffix, in
    its directory. *)
Definition numbered_path_of (file_path : string) (counter : nat) : string :=
  let '(directory, name) := FileManager.path_parent_name file_path in
  let '(base_name, extension) := FileManager.stem_suffix name in
  numbered_path directory base_name extension counter.

(** *** The heap invariant below a position *)

Section heap_vocabulary_from.
Context {A : Type} (lt : A → A → bool).

(** The heap invariant between the positions from [k] on and their
    children: what [heapify] has established when it has sifted the
    positions from [k] on. *)
Definition heap_ordered_from (k : nat) (heap : list A) : Prop :=
  ∀ (j : nat) c p, (0 < j)%nat → (k ≤ (j - 1) / 2)%nat →
    heap !! j = Some c → heap !! ((j - 1) / 2)%nat = Some p → lt c p = false.

(** The same around a hole at [pos]. *)
Definition hole_ordered_from (k : nat) (heap : list A) (pos : nat) : Prop :=
  (∀ (j : nat) c p, (0 < j)%nat → (k ≤ (j - 1) / 2)%nat → j ≠ pos → ((j - 1) / 2)%nat ≠ pos →
     heap !! j = Some c → heap !! ((j - 1) / 2)%nat = Some p → lt c p = false) ∧
  (∀ (j : nat) c g, (0 < j)%nat → ((j - 1) / 2)%nat = pos → (k < pos)%nat →
     heap !! j = Some c → heap !! ((pos - 1) / 2)%nat = Some g → lt c g = false).

End heap_vocabulary_from.

(** The positions of the subtree whose root is [k]. *)
Inductive below (k : nat) : nat → Prop :=
| below_root : below k k
| below_left pos : below k pos → below k (2 * pos + 1)
| below_right pos : below k pos → below k (2 * pos + 2).

(** *** The state after [_queue_download] *)

(** The state [_queue_download] leaves, for a task whose attributes are
    [x]: the task is in the queue with its priority, its status is
    Queued, its row is saved, and the status callbacks were called. *)
Definition queued {env : Externals} (task : nat) (x : DownloadTask.t) (w : World.t) : World.t :=
  let w := World.set_download_queue
             (DownloadManager.put (World.download_queue w)
                (QueuedDownload.mk (DownloadTask.priority x) task)) w in
  let w := World.set_objects
             (alter (DownloadTask.set_status QUEUED) task (World.objects w)) w in
  let w := saved (DownloadTask.set_status QUEUED x) w in
  World.set_status_callbacks_called
    (World.status_callbacks_called w ++ [(task, QUEUED)]) w.

(** The download [download_id] is the one of the entry at position [i] of
    the schedule, and of no entry before it. *)
Definition first_scheduled_at (w : World.t) (download_id : string) (i : nat) : Prop :=
  (∃ item x, World.scheduled_downloads w !! i = Some item ∧
             World.objects w !! ScheduledItem.task item = Some x ∧
             DownloadTask.id x = download_id) ∧
  ∀ (j : nat) item x, (j < i)%nat → World.scheduled_downloads w !! j = Some item →
    World.objects w !! ScheduledItem.task item = Some x → DownloadTask.id x ≠ download_id.

(** *** What the manager's callbacks leave alone *)

(** Between two states only the database, the manager's set of active
    downloads and the records of the calls to the notifier and to the
    status callbacks have changed: what [_on_status_change] writes. *)
Definition status_change_only (w w' : World.t) : Prop :=
  World.objects w' = World.objects w ∧
  World.next_ref w' = World.next_ref w ∧
  World.ticks w' = World.ticks w ∧
  World.files w' = World.files w ∧
  World.requests_sent w' = World.requests_sent w ∧
  World.scheduled_downloads w' = World.scheduled_downloads w ∧
  World.condition_notified w' = World.condition_notified w ∧
  World.engine_active_downloads w' = World.engine_active_downloads w ∧
  World.download_threads w' = World.download_threads w ∧
  World.stop_events w' = World.stop_events w ∧
  World.progress_data w' = World.progress_data w ∧
  World.download_queue w' = World.download_queue w ∧
  World.all_downloads w' = World.all_downloads w ∧
  World.progress_callbacks_called w' = World.progress_callbacks_called w ∧
  World.last_db_update w' = World.last_db_update w.

(** The paths of the temporary files of a task's parts. *)
Definition temp_paths (x : DownloadTask.t) : list string :=
  omap (λ part, if Py.truthy_str (DownloadPart.temp_file_path part)
                then DownloadPart.temp_file_path part else None)
    (DownloadTask.parts x).

(** The example task, of 200 bytes, in two parts of 100 bytes; of the
    first part [downloaded] bytes are in its temporary file. *)
Definition two_part_task (downloaded : Z) (status : DownloadStatus) : DownloadTask.t :=
  DownloadTask.set_status DOWNLOADING
    (DownloadTask.set_parts
       [DownloadPart.mk 0 0 99 downloaded status (Some example_temp_path);
        DownloadPart.mk 1 100 199 0 PENDING
          (Some "/tmp/DownloadManager/0123456789ab_part_1.tmp"%string)]
       (DownloadTask.set_supports_range_requests true
          (DownloadTask.set_file_size 200
             (example_task "http://example.com/file.bin" "file.bin")))).

(** A download that the engine runs: the task is recorded as active and
    its stop event is clear. *)
Definition world_running (x : DownloadTask.t) : World.t :=
  World.set_engine_active_downloads {[ DownloadTask.id x ]}
    (World.set_stop_events {[ DownloadTask.id x := false ]} (world_with x)).

(** A paused download: its one part has 50 bytes, and the stop event the
    engine holds for it is set. *)
Definition paused_task : DownloadTask.t :=
  DownloadTask.set_status PAUSED (one_part_task 50 PAUSED).

Definition world_paused : World.t :=
  World.set_stop_events {[ "0123456789ab"%string := true ]}
    (World.set_files {[ example_temp_path := replicate 50 Byte.x2a ]}
       (world_with paused_task)).

(** What a server says of the example file. *)
Definition example_file_info : HTTPClient.FileInfo :=
  {| HTTPClient.fi_url := "http://example.com/file.bin";
     HTTPClient.fi_file_size := 100;
     HTTPClient.fi_supports_range := true;
     HTTPClient.fi_content_type := "application/octet-stream";
     HTTPClient.fi_filename := Some "served.bin"%string;
     HTTPClient.fi_headers := ∅ |}.

(** *** The state after [_on_status_change] *)




(** Between two states no download was added to the manager's active
    downloads. *)
Definition no_more_active (w w' : World.t) : Prop :=
  World.active_downloads w' ⊆ World.active_downloads w.


(** *** What SQLite stores *)

(** An integer that fits a column of SQLite: one of 64 bits, signed. *)
Definition int64 (z : Z) : Prop := (- 2 ^ 63 ≤ z < 2 ^ 63)%Z.

(** A task that [save_download] can store: its integers and those of its
    parts fit their columns (binding a larger one raises
    [OverflowError]), and no two of its parts have the same number (the
    table of the parts is [UNIQUE (download_id, part_number)], and the
    insertion of a second part of a number fails with nothing
    committed). The model of [save_download] has neither failure. *)
Definition storable (x : DownloadTask.t) : Prop :=
  int64 (DownloadTask.file_size x) ∧ int64 (DownloadTask.downloaded_bytes x) ∧
  int64 (DownloadTask.retry_count x) ∧ int64 (DownloadTask.max_retries x) ∧
  int64 (DownloadTask.num_threads x) ∧ int64 (DownloadTask.priority x) ∧
  Forall (λ part, int64 (DownloadPart.part_number part) ∧ int64 (DownloadPart.start_byte part) ∧
                  int64 (DownloadPart.end_byte part) ∧
                  int64 (DownloadPart.downloaded_bytes part))
    (DownloadTask.parts x) ∧
  NoDup (DownloadPart.part_number <$> DownloadTask.parts x).

(** A task as the database gives it back: a scheduled time that is NaN
    was stored as [NULL] and is read as [None]. *)
Definition as_stored (x : DownloadTask.t) : DownloadTask.t :=
  match DownloadTask.scheduled_time x with
  | Some Py.NaN => DownloadTask.set_scheduled_time None x
  | _ => x
  end.

(** The task in two parts, scheduled at a time that is NaN. *)
Definition nan_two_part_task : DownloadTask.t :=
  DownloadTask.set_scheduled_time (Some Py.NaN) (two_part_task 50 PAUSED).

(** *** Scheduled times that are numbers *)

(** No entry of a schedule has a time that is NaN. (An entry with such
    a time compares as neither before nor after any other, and a heap
    with one need not have its earliest entry first.) *)
Definition times_are_numbers (items : list ScheduledItem.t) : Prop :=
  Forall (λ item, ScheduledItem.scheduled_time item ≠ Py.NaN) items.

(** A schedule of three entries of the one task, at 900, at 3000 and at
    2500: a heap. The clock reads 1000. *)
Definition world_three_scheduled : World.t :=
  World.set_scheduled_downloads
    [ScheduledItem.mk (Py.Finite 900) 0; ScheduledItem.mk (Py.Finite 3000) 0;
     ScheduledItem.mk (Py.Finite 2500) 0]
    (world_with (scheduled_task 900)).

(** *** Three downloads and one slot *)

(** The example environment with room for one download at a time, and
    ids that tell the downloads of different URLs apart. *)
Definition single_slot_externals : Externals :=
  let E := example_externals in
  {| md5_id := λ url now, url; url_path_basename := @url_path_basename E;
     validators_url := @validators_url E; detect_video := @detect_video E;
     settings := {| max_threads_per_download := 8;
                    max_concurrent_downloads := 1;
                    enable_video_detection := true;
                    download_directory := "/home/user/Downloads";
                    category_directory := λ ext, "/home/user/Downloads"%string |};
     json_dumps := @json_dumps E; json_loads := @json_loads E; clock := @clock E;
     clock_after_epoch := @clock_after_epoch E;
     gettempdir := @gettempdir E; available_space := @available_space E;
     chunk_size := @chunk_size E; http_head := @http_head E; http_get := @http_get E |}.

Definition priority_task (url : string) (priority : Z) : DownloadTask.t :=
  DownloadTask.set_priority priority
    (@DownloadTask.__init__ single_slot_externals 1000 1000 url (Some "file.bin"%string) None).

(** The tasks A, of priority 0, B, of priority 10, and C, of priority 5,
    at the references 0, 1 and 2, in a manager that has nothing queued
    and nothing active. *)
Definition world_three_tasks : World.t :=
  World.set_next_ref 3
    (World.set_objects
       {[ 0%nat := priority_task "http://example.com/a" 0;
          1%nat := priority_task "http://example.com/b" 10;
          2%nat := priority_task "http://example.com/c" 5 ]}
       World.empty).


(** * Properties *)

(** ** The task model *)

Section task_facts.
Context {env : Externals}.
Local Open Scope Z_scope.

Lemma status_of_value_value s : status_of_value (status_value s) = Some s.
Proof. by destruct s. Qed.

Lemma truthy_str_Some s : Py.truthy_str (Some s) = true ↔ s ≠ ""%string.
Proof.
  unfold Py.truthy_str. destruct (String.eqb_spec s "") as [->|Hne]; simpl; split; try done.
Qed.

(** Each key of [to_dict] reads back the value stored under it. *)
Ltac eval_to_dict_lookups :=
  repeat match goal with
  | |- context [DownloadTask.to_dict ?x !! ?k] =>
      let v := eval vm_compute in (DownloadTask.to_dict x !! k) in
      replace (DownloadTask.to_dict x !! k) with v by (vm_compute; reflexivity)
  end.

Lemma from_dict_to_dict_gen t_id t_created t_default (x : DownloadTask.t) :
  DownloadTask.from_dict t_id t_created t_default (DownloadTask.to_dict x) =
  Some (DownloadTask.set_parts []
          (DownloadTask.set_filename
             (DownloadTask.filename
                (DownloadTask.__init__ t_id t_created (DownloadTask.url x)
                   (Some (DownloadTask.filename x)) (DownloadTask.destination x))) x)).
Proof.
  destruct x as [xid xurl xfn xdest xfs xdb xst xca xsa xcoa xem xrc xmr xsr xp xnt xds xeta xpp
                   xct xh xck xiv xvq xsch xpr].
  unfold DownloadTask.from_dict, Py.getitem, Py.get.
  eval_to_dict_lookups.
  cbn [mbind option_bind Py.as_str Py.as_int Py.as_bool Py.as_float Py.as_dict].
  match goal with
  | |- context [status_of_value ?v] =>
      replace (status_of_value v) with (Some xst) by (by destruct xst)
  end.
  destruct xdest, xsa, xcoa, xem, xct, xck, xvq, xsch as [[?|]|]; reflexivity.
Qed.

Lemma extract_filename_nonempty self_id url :
  DownloadTask._extract_filename_from_url self_id url ≠ ""%string.
Proof.
  unfold DownloadTask._extract_filename_from_url.
  destruct (url_path_basename url) as [filename|]; [|done].
  destruct (Py.truthy_str (Some filename)) eqn:Ht; simpl; [|done].
  destruct (Py.contains_char "." filename); simpl; [|done].
  by apply truthy_str_Some.
Qed.

Lemma set_filename_same x : DownloadTask.set_filename (DownloadTask.filename x) x = x.
Proof. by destruct x. Qed.

(** C3, as amended. For every task whose filename is not empty,
    [from_dict(to_dict(t))] is [t] with an empty list of parts: the 25
    task-level fields -- id, url, filename, destination, file_size,
    downloaded_bytes, status, created_at, started_at, completed_at,
    error_message, retry_count, max_retries, supports_range_requests,
    num_threads, download_speed, eta, progress_percentage, content_type,
    headers, checksum, is_video, video_quality, scheduled_time and
    priority -- are those of [t], whatever the clock reads while the task
    is rebuilt. *)
Theorem from_dict_to_dict (t_id t_created t_default : Q) (x : DownloadTask.t) :
  DownloadTask.filename x ≠ ""%string →
  DownloadTask.from_dict t_id t_created t_default (DownloadTask.to_dict x)
  = Some (DownloadTask.set_parts [] x).
Proof.
  intros Hfn. rewrite from_dict_to_dict_gen. do 2 f_equal.
  cbn [DownloadTask.__init__ DownloadTask.filename].
  apply truthy_str_Some in Hfn. rewrite Hfn. simpl. apply set_filename_same.
Qed.

(** A task whose filename is empty comes back with another filename: the
    constructor that [from_dict] calls replaces an empty filename by one
    taken from the URL, which is never empty. *)
Lemma from_dict_to_dict_empty_filename_gen t_id t_created t_default x :
  DownloadTask.filename x = ""%string →
  ∃ y, DownloadTask.from_dict t_id t_created t_default (DownloadTask.to_dict x) = Some y ∧
       DownloadTask.filename y ≠ DownloadTask.filename x.
Proof.
  intros Hfn. rewrite from_dict_to_dict_gen. eexists. split; [done|].
  rewrite Hfn. cbn [DownloadTask.__init__ DownloadTask.filename DownloadTask.set_parts
                      DownloadTask.set_filename Py.truthy_str]. simpl.
  apply extract_filename_nonempty.
Qed.

End task_facts.

(** The round trip at a task as the constructor builds it. *)
Lemma from_dict_to_dict_witness :
  @DownloadTask.from_dict example_externals 2000 2001 2002
    (DownloadTask.to_dict (example_task "http://example.com/file.bin" "file.bin"))
  = Some (DownloadTask.set_parts [] (example_task "http://example.com/file.bin" "file.bin")).
Proof.
  apply (@from_dict_to_dict example_externals 2000 2001 2002
           (example_task "http://example.com/file.bin" "file.bin")).
  vm_compute. discriminate.
Defined.

(** C3 as stated fails at a task whose filename is the empty string: in
    every environment and at every time the task rebuilt from its
    dictionary has a filename that is not the empty one. *)
Lemma from_dict_to_dict_empty_filename :
  ∃ x : DownloadTask.t,
    DownloadTask.filename x = ""%string ∧
    ∀ (E : Externals) (t_id t_created t_default : Q),
      ∃ y, @DownloadTask.from_dict E t_id t_created t_default (DownloadTask.to_dict x) = Some y ∧
           DownloadTask.filename y ≠ DownloadTask.filename x.
Proof.
  exists (DownloadTask.set_filename "" (example_task "http://example.com/file.bin" "file.bin")).
  split; [done|]. intros E t_id t_created t_default.
  by apply from_dict_to_dict_empty_filename_gen.
Qed.

(** ** Rules for [returns] *)

(** A lock is not among the locks of an explicit list. *)
Ltac not_held :=
  let Hin := fresh "Hin" in
  intros Hin;
  repeat (apply elem_of_cons in Hin as [Hin|Hin]; [discriminate Hin|]);
  by apply elem_of_nil in Hin.

Section returns_rules.
Context {env : Externals}.

Lemma returns_ret {A} (a : A) held w Q : Q a w → returns (mret a) held w Q.
Proof. done. Qed.

Lemma returns_bind {A B} (m : M A) (f : A → M B) held w Q :
  returns m held w (λ a w', returns (f a) held w' Q) → returns (m ≫= f) held w Q.
Proof.
  unfold returns, mbind, M_bind. by destruct (m held w).
Qed.

Lemma returns_mono {A} (m : M A) held w (Q Q' : A → World.t → Prop) :
  returns m held w Q → (∀ a w', Q a w' → Q' a w') → returns m held w Q'.
Proof. unfold returns. destruct (m held w); naive_solver. Qed.

Lemma returns_gets {A} (f : World.t → A) held w Q : Q (f w) w → returns (gets f) held w Q.
Proof. done. Qed.

Lemma returns_modify f held w Q : Q () (f w) → returns (modify f) held w Q.
Proof. done. Qed.

Lemma returns_time_time held w Q :
  Q (clock (World.ticks w)) (World.set_ticks (S (World.ticks w)) w) →
  returns time_time held w Q.
Proof. done. Qed.

Lemma returns_deref r x held w Q :
  World.objects w !! r = Some x → Q x w → returns (deref r) held w Q.
Proof. unfold returns, deref. by intros ->. Qed.

Lemma returns_update r f held w Q :
  Q () (World.set_objects (alter f r (World.objects w)) w) → returns (update r f) held w Q.
Proof. done. Qed.

Lemma returns_with_lock {A} l (body : M A) held w Q :
  l ∉ held → returns body (l :: held) w Q → returns (with_lock l body) held w Q.
Proof.
  intros Hl. unfold returns, with_lock. by rewrite bool_decide_eq_false_2.
Qed.

Lemma returns_try_except {A} (body : M A) handler held w Q :
  returns body held w Q → returns (try_except body handler) held w Q.
Proof. unfold returns, try_except. by destruct (body held w). Qed.

Lemma returns_inv {A} (m : M A) held w Q :
  returns m held w Q → ∃ a w', m held w = Returns a w' ∧ Q a w'.
Proof. unfold returns. destruct (m held w); naive_solver. Qed.

Lemma returns_intro {A} (m : M A) held w a w' (Q : A → World.t → Prop) :
  m held w = Returns a w' → Q a w' → returns m held w Q.
Proof. unfold returns. by intros ->. Qed.

Lemma bind_run {A B} (m : M A) (f : A → M B) held w :
  (m ≫= f) held w =
  match m held w with
  | Returns a w' => f a held w'
  | Raises e w' => Raises e w'
  | Blocks => Blocks
  end.
Proof. done. Qed.

Lemma ret_run {A} (a : A) held w : @mret M _ A a held w = Returns a w.
Proof. done. Qed.

Lemma raise_run {A} e held w : @raise A e held w = Raises e w.
Proof. done. Qed.

End returns_rules.


(** ** Rules for [outcome] and [frames] *)

Section frames_rules.
Context {env : Externals}.
Context (R : World.t → World.t → Prop).
Hypothesis R_refl : ∀ w, R w w.
Hypothesis R_trans : ∀ w1 w2 w3, R w1 w2 → R w2 w3 → R w1 w3.

Lemma frames_ret {A} (a : A) held : frames R (mret a) held.
Proof. intros w. apply R_refl. Qed.

Lemma frames_raise {A} e held : frames R (@raise A e) held.
Proof. intros w. apply R_refl. Qed.

Lemma frames_bind {A B} (m : M A) (f : A → M B) held :
  frames R m held → (∀ a, frames R (f a) held) → frames R (m ≫= f) held.
Proof.
  intros Hm Hf w. specialize (Hm w). unfold outcome in *. rewrite bind_run.
  destruct (m held w) as [a w1|e w1|]; [|done..].
  specialize (Hf a w1). unfold outcome in Hf.
  destruct (f a held w1); [eapply R_trans; eassumption.. | done].
Qed.

Lemma frames_try_except {A} (body : M A) handler held :
  frames R body held → (∀ e, frames R (handler e) held) →
  frames R (try_except body handler) held.
Proof.
  intros Hb Hh w. specialize (Hb w). unfold outcome, try_except in *.
  destruct (body held w) as [a w1|e w1|]; [done| |done].
  specialize (Hh e w1). unfold outcome in Hh.
  destruct (handler e held w1); [eapply R_trans; eassumption.. | done].
Qed.

Lemma frames_with_lock {A} l (body : M A) held :
  l ∉ held → frames R body (l :: held) → frames R (with_lock l body) held.
Proof.
  intros Hl Hb w. unfold outcome, with_lock. rewrite (bool_decide_eq_false_2 _ Hl).
  apply Hb.
Qed.

Lemma frames_gets {A} (f : World.t → A) held : frames R (gets f) held.
Proof. intros w. apply R_refl. Qed.

Lemma frames_modify f held : (∀ w, R w (f w)) → frames R (modify f) held.
Proof. intros Hf w. apply Hf. Qed.

Lemma frames_time_time held :
  (∀ w, R w (World.set_ticks (S (World.ticks w)) w)) → frames R time_time held.
Proof. intros Hf w. apply Hf. Qed.

Lemma frames_deref r held : frames R (deref r) held.
Proof. intros w. unfold outcome, deref. destruct (World.objects w !! r); apply R_refl. Qed.

Lemma frames_update r f held :
  (∀ w, R w (World.set_objects (alter f r (World.objects w)) w)) →
  frames R (update r f) held.
Proof. intros Hf w. apply Hf. Qed.

Lemma frames_for_each {B} (xs : list B) (body : B → M unit) held :
  (∀ x, frames R (body x) held) → frames R (for_each xs body) held.
Proof.
  intros Hbody. induction xs as [|x xs IH]; cbn [for_each].
  - apply frames_ret.
  - apply frames_bind; [apply Hbody | intros _; apply IH].
Qed.

Lemma frames_if {A} (b : bool) (m1 m2 : M A) held :
  frames R m1 held → frames R m2 held → frames R (if b then m1 else m2) held.
Proof. by destruct b. Qed.

End frames_rules.

Ltac lock_free :=
  repeat (apply not_elem_of_cons; split; [discriminate|]);
  first [assumption | apply not_elem_of_nil].

(** [framing refl trans side] proves [frames R m held] along the structure
    of [m], for a relation with the proofs [refl] and [trans]; [side]
    proves that a change of the state is in the relation. *)
Ltac framing refl trans side :=
  repeat first
    [ assumption
    | apply (frames_ret _ refl)
    | apply (frames_raise _ refl)
    | apply (frames_gets _ refl)
    | apply (frames_deref _ refl)
    | apply frames_modify; intros ?; side
    | apply frames_time_time; intros ?; side
    | apply frames_update; intros ?; side
    | apply frames_with_lock; [lock_free|]
    | apply (frames_bind _ trans); [|intros ?]
    | apply (frames_try_except _ trans); [|intros ?]
    | apply (frames_for_each _ refl trans); intros ?
    | match goal with
      | |- frames _ (if ?b then _ else _) _ => destruct b
      | |- frames _ (match ?x with _ => _ end) _ => destruct x
      end ].

Section outcome_rules.
Context {env : Externals}.

Lemma outcome_bind {A B} (m : M A) (f : A → M B) held w Q E :
  outcome m held w (λ a w', outcome (f a) held w' Q E) E → outcome (m ≫= f) held w Q E.
Proof. unfold outcome. rewrite bind_run. by destruct (m held w). Qed.

Lemma outcome_try_except {A} (body : M A) handler held w Q E :
  outcome body held w Q (λ w', ∀ e, outcome (handler e) held w' Q E) →
  outcome (try_except body handler) held w Q E.
Proof.
  unfold outcome, try_except. destruct (body held w) as [a w'|e w'|]; [done| |done].
  intros Hh. apply Hh.
Qed.

Lemma outcome_mono {A} (m : M A) held w (Q Q' : A → World.t → Prop) (E E' : World.t → Prop) :
  outcome m held w Q E → (∀ a w', Q a w' → Q' a w') → (∀ w', E w' → E' w') →
  outcome m held w Q' E'.
Proof. unfold outcome. destruct (m held w); eauto. Qed.

Lemma outcome_frames {A} R (m : M A) held w (Q : A → World.t → Prop) (E : World.t → Prop) :
  frames R m held → (∀ a w', R w w' → Q a w') → (∀ w', R w w' → E w') →
  outcome m held w Q E.
Proof. intros Hm HQ HE. eapply outcome_mono; [apply Hm | |]; eauto. Qed.

Lemma outcome_returns {A} (m : M A) held w Q E : returns m held w Q → outcome m held w Q E.
Proof. unfold returns, outcome. by destruct (m held w). Qed.

End outcome_rules.

(** ** Planning the parts of a download *)

Section parts_facts.
Context {env : Externals}.
Local Open Scope Z_scope.

Lemma setup_parts_single num_threads file_size x :
  num_threads ≤ 1 →
  DownloadTask.parts (DownloadTask.setup_multithread_download num_threads file_size x)
  = [DownloadPart.new 0 0 (file_size - 1)].
Proof.
  intros Hn. unfold DownloadTask.setup_multithread_download.
  destruct (Z.leb_spec num_threads 1); [done | lia].
Qed.

Lemma setup_parts_multi num_threads file_size x :
  1 < num_threads →
  DownloadTask.parts (DownloadTask.setup_multithread_download num_threads file_size x)
  = DownloadTask.multithread_part num_threads file_size (file_size `div` num_threads)
      <$> DownloadTask.range num_threads.
Proof.
  intros Hn. unfold DownloadTask.setup_multithread_download.
  destruct (Z.leb_spec num_threads 1); [lia | done].
Qed.

Lemma range_length n : length (DownloadTask.range n) = Z.to_nat n.
Proof. unfold DownloadTask.range. by rewrite length_fmap, length_seq. Qed.

Lemma range_lookup n (i : nat) :
  (i < Z.to_nat n)%nat → DownloadTask.range n !! i = Some (Z.of_nat i).
Proof.
  intros Hi. unfold DownloadTask.range.
  rewrite list_lookup_fmap, lookup_seq_lt by done. done.
Qed.

Lemma setup_parts_length num_threads file_size x :
  Z.of_nat (length (DownloadTask.parts
                      (DownloadTask.setup_multithread_download num_threads file_size x)))
  = Z.max 1 num_threads.
Proof.
  destruct (Z.le_gt_cases num_threads 1).
  - rewrite setup_parts_single by done. simpl. lia.
  - rewrite setup_parts_multi by lia. rewrite length_fmap, range_length. lia.
Qed.

Lemma setup_parts_lookup num_threads file_size x (i : nat) p :
  1 < num_threads →
  DownloadTask.parts (DownloadTask.setup_multithread_download num_threads file_size x) !! i
  = Some p →
  Z.of_nat i < num_threads ∧
  p = DownloadTask.multithread_part num_threads file_size (file_size `div` num_threads)
        (Z.of_nat i).
Proof.
  intros Hn. rewrite setup_parts_multi by done. rewrite list_lookup_fmap.
  intros Hp. destruct (DownloadTask.range num_threads !! i) as [j|] eqn:Hj; [|done].
  apply lookup_lt_Some in Hj as Hlt. rewrite range_length in Hlt.
  rewrite range_lookup in Hj by done. simplify_eq/=. split; [lia | done].
Qed.

(** The parts [setup_multithread_download] builds are in order and
    adjacent. *)
Lemma setup_parts_chained num_threads file_size x :
  chained file_size
    (DownloadTask.parts (DownloadTask.setup_multithread_download num_threads file_size x)).
Proof.
  destruct (Z.le_gt_cases num_threads 1) as [Hn|Hn].
  - rewrite setup_parts_single by done. repeat split.
    + intros [|i] p Hp; simpl in Hp; [by simplify_eq | done].
    + by eexists.
    + intros [|i] p q Hp Hq; simpl in Hq; done.
    + by eexists.
  - assert (Hn' : 1 < num_threads) by lia.
    set (ps := DownloadTask.parts _).
    assert (Hlk : ∀ i : nat, Z.of_nat i < num_threads →
              ps !! i = Some (DownloadTask.multithread_part num_threads file_size
                                (file_size `div` num_threads) (Z.of_nat i))).
    { intros i Hi. unfold ps. rewrite setup_parts_multi by done.
      rewrite list_lookup_fmap, range_lookup by lia. done. }
    repeat split.
    + intros i p Hp. apply setup_parts_lookup in Hp as [_ ->]; done.
    + eexists. split; [apply (Hlk 0%nat); lia|]. simpl. lia.
    + intros i p q Hp Hq.
      apply setup_parts_lookup in Hp as [Hi ->]; [|done].
      apply setup_parts_lookup in Hq as [Hi' ->]; [|done].
      unfold DownloadTask.multithread_part. simpl.
      destruct (Z.eqb_spec (Z.of_nat i) (num_threads - 1)); lia.
    + exists (DownloadTask.multithread_part num_threads file_size
                (file_size `div` num_threads) (num_threads - 1)).
      split.
      * rewrite last_lookup.
        replace (length ps) with (Z.to_nat num_threads); last first.
        { unfold ps. rewrite setup_parts_multi, length_fmap, range_length by done. done. }
        replace (Init.Nat.pred (Z.to_nat num_threads)) with (Z.to_nat (num_threads - 1)) by lia.
        rewrite Hlk by lia. do 2 f_equal. lia.
      * unfold DownloadTask.multithread_part. simpl. by rewrite Z.eqb_refl.
Qed.

(** For a file size that is not negative, none of them is inverted. *)
Lemma setup_parts_not_inverted num_threads file_size x (i : nat) p :
  0 ≤ file_size →
  DownloadTask.parts (DownloadTask.setup_multithread_download num_threads file_size x) !! i
  = Some p →
  DownloadPart.start_byte p ≤ DownloadPart.end_byte p + 1.
Proof.
  intros Hsize. destruct (Z.le_gt_cases num_threads 1) as [Hn|Hn].
  - rewrite setup_parts_single by done.
    destruct i as [|i]; intros Hp; simpl in Hp; [|done]. simplify_eq. simpl. lia.
  - intros Hp. apply setup_parts_lookup in Hp as [Hi ->]; [|lia].
    unfold DownloadTask.multithread_part. simpl.
    pose proof (Z.mul_div_le file_size num_threads ltac:(lia)) as Hle.
    assert (0 ≤ file_size `div` num_threads) as Hps by (apply Z.div_pos; lia).
    destruct (Z.eqb_spec (Z.of_nat i) (num_threads - 1)) as [->|_]; nia.
Qed.

Lemma setup_parts_tile num_threads file_size x :
  0 ≤ file_size →
  tiles file_size
    (DownloadTask.parts (DownloadTask.setup_multithread_download num_threads file_size x)).
Proof.
  intros Hsize. split; [apply setup_parts_chained|].
  intros i p. by apply setup_parts_not_inverted.
Qed.

(** [chained] and [tiles] look at the ranges only. *)
Lemma chained_part_range file_size ps ps' :
  part_range <$> ps = part_range <$> ps' → chained file_size ps → chained file_size ps'.
Proof.
  intros Heq (Hnum & (p0 & Hp0 & Hs0) & Hadj & (pl & Hpl & Hel)).
  assert (Hlk : ∀ i p', ps' !! i = Some p' →
            ∃ p, ps !! i = Some p ∧ part_range p = part_range p').
  { intros i p' Hp'.
    assert (Hi : (part_range <$> ps') !! i = Some (part_range p'))
      by (by rewrite list_lookup_fmap, Hp').
    rewrite <- Heq, list_lookup_fmap in Hi.
    destruct (ps !! i) as [p|]; simpl in Hi; [|done].
    exists p. split; [done | congruence]. }
  assert (Hlk' : ∀ i p, ps !! i = Some p →
            ∃ p', ps' !! i = Some p' ∧ part_range p = part_range p').
  { intros i p Hp.
    assert (Hi : (part_range <$> ps) !! i = Some (part_range p))
      by (by rewrite list_lookup_fmap, Hp).
    rewrite Heq, list_lookup_fmap in Hi.
    destruct (ps' !! i) as [p'|]; simpl in Hi; [|done].
    exists p'. split; [done | congruence]. }
  assert (Hlen : length ps = length ps').
  { rewrite <- (length_fmap part_range ps), Heq. apply length_fmap. }
  unfold part_range in *. repeat split.
  - intros i p' Hp'. destruct (Hlk _ _ Hp') as (p & Hp & Hr). specialize (Hnum _ _ Hp).
    injection Hr as Hr1 Hr2 Hr3. congruence.
  - destruct (Hlk' _ _ Hp0) as (p' & Hp' & Hr). exists p'.
    injection Hr as Hr1 Hr2 Hr3. split; [done | congruence].
  - intros i p' q' Hp' Hq'.
    destruct (Hlk _ _ Hp') as (p & Hp & Hr). destruct (Hlk _ _ Hq') as (q & Hq & Hr').
    specialize (Hadj _ _ _ Hp Hq).
    injection Hr as Hr1 Hr2 Hr3. injection Hr' as Hr1' Hr2' Hr3'. congruence.
  - rewrite last_lookup in Hpl. destruct (Hlk' _ _ Hpl) as (p' & Hp' & Hr).
    exists p'. rewrite last_lookup, <- Hlen.
    injection Hr as Hr1 Hr2 Hr3. split; [done | congruence].
Qed.

Lemma part_range_lookup (ps ps' : list DownloadPart.t) (i : nat) p' :
  part_range <$> ps = part_range <$> ps' → ps' !! i = Some p' →
  ∃ p, ps !! i = Some p ∧ part_range p = part_range p'.
Proof.
  intros Heq Hp'.
  assert (Hi : (part_range <$> ps') !! i = Some (part_range p'))
    by (by rewrite list_lookup_fmap, Hp').
  rewrite <- Heq, list_lookup_fmap in Hi.
  destruct (ps !! i) as [p|]; simpl in Hi; [|done].
  exists p. split; [done | congruence].
Qed.

Lemma tiles_part_range file_size ps ps' :
  part_range <$> ps = part_range <$> ps' → tiles file_size ps → tiles file_size ps'.
Proof.
  intros Heq [Hchained Hinv]. split; [by eapply chained_part_range|].
  intros i p' Hp'. destruct (part_range_lookup ps ps' i p' Heq Hp') as (p & Hp & Hr).
  specialize (Hinv _ _ Hp). unfold part_range in Hr. injection Hr as Hr1 Hr2 Hr3. lia.
Qed.

(** In parts that tile, the starts do not decrease, and a part ends
    before a later one starts. *)
Lemma tiles_starts_mono file_size ps (i j : nat) p q :
  tiles file_size ps → (i ≤ j)%nat → ps !! i = Some p → ps !! j = Some q →
  DownloadPart.start_byte p ≤ DownloadPart.start_byte q.
Proof.
  intros [(_ & _ & Hadj & _) Hinv] Hij Hp. revert q.
  induction Hij as [|j Hij IH]; intros q Hq.
  - simplify_eq. lia.
  - destruct (lookup_lt_is_Some_2 ps j) as [r Hr].
    { apply lookup_lt_Some in Hq. lia. }
    specialize (IH r Hr). rewrite (Hadj j r q Hr Hq). specialize (Hinv j r Hr). lia.
Qed.

Lemma tiles_ends_before file_size ps (i j : nat) p q :
  tiles file_size ps → (i < j)%nat → ps !! i = Some p → ps !! j = Some q →
  DownloadPart.end_byte p < DownloadPart.start_byte q.
Proof.
  intros Htiles Hij Hp Hq.
  destruct (lookup_lt_is_Some_2 ps (S i)) as [r Hr].
  { apply lookup_lt_Some in Hq. lia. }
  pose proof (tiles_starts_mono file_size ps (S i) j r q Htiles ltac:(lia) Hr Hq) as Hmono.
  destruct Htiles as [(_ & _ & Hadj & _) _]. rewrite (Hadj i p r Hp Hr) in Hmono. lia.
Qed.

(** Every byte from 0 to the end of a part is a byte of that part or of
    one before it. *)
Lemma tiles_covered_upto file_size ps (k : nat) p b :
  tiles file_size ps → ps !! k = Some p → 0 ≤ b ≤ DownloadPart.end_byte p →
  ∃ (i : nat) pi, ps !! i = Some pi ∧ in_part b pi.
Proof.
  intros Htiles. pose proof Htiles as [(_ & (p0 & Hp0 & Hs0) & Hadj & _) _].
  revert p. induction k as [|k IH]; intros p Hp Hb.
  - exists 0%nat, p. split; [done|]. unfold in_part. simplify_eq. lia.
  - destruct (Z.le_gt_cases (DownloadPart.start_byte p) b) as [Hle|Hgt].
    + exists (S k), p. split; [done|]. unfold in_part. lia.
    + destruct (lookup_lt_is_Some_2 ps k) as [r Hr].
      { apply lookup_lt_Some in Hp. lia. }
      apply (IH r Hr). rewrite (Hadj k r p Hr Hp) in Hgt. lia.
Qed.

(** Parts that tile leave no gap and do not overlap. *)
Lemma tiles_covers_once file_size ps : tiles file_size ps → covers_once file_size ps.
Proof.
  intros Htiles.
  pose proof Htiles as [(_ & (p0 & Hp0 & Hs0) & _ & (pl & Hpl & Hel)) Hinv].
  rewrite last_lookup in Hpl.
  assert (Hdisjoint : ∀ (i j : nat) p q b, (i < j)%nat → ps !! i = Some p → ps !! j = Some q →
                        in_part b p → in_part b q → False).
  { intros i j p q b Hij Hp Hq Hbp Hbq.
    pose proof (tiles_ends_before file_size ps i j p q Htiles Hij Hp Hq).
    unfold in_part in *. lia. }
  split.
  - intros i p b Hp Hb. unfold in_part in Hb.
    pose proof (tiles_starts_mono file_size ps 0 i p0 p Htiles ltac:(lia) Hp0 Hp) as Hstart.
    assert (DownloadPart.end_byte p ≤ DownloadPart.end_byte pl) as Hend.
    { apply lookup_lt_Some in Hp as Hlt.
      destruct (decide (i = Init.Nat.pred (length ps))) as [->|Hne]; [by simplify_eq|].
      pose proof (tiles_ends_before file_size ps i (Init.Nat.pred (length ps)) p pl Htiles
                    ltac:(lia) Hp Hpl).
      pose proof (Hinv _ _ Hpl). lia. }
    lia.
  - intros b Hb.
    destruct (tiles_covered_upto file_size ps (Init.Nat.pred (length ps)) pl b Htiles Hpl
                ltac:(lia))
      as (i & p & Hp & Hbp).
    exists i, p. split_and!; [done | done |].
    intros j q Hq Hbq. destruct (Nat.lt_trichotomy j i) as [Hlt|[->|Hlt]]; [|done|].
    + by destruct (Hdisjoint j i q p b).
    + by destruct (Hdisjoint i j p q b).
Qed.

End parts_facts.

(** ** What the persistence and notification steps leave alone *)

Section effects.
Context {env : Externals}.
Local Open Scope Z_scope.

Lemma returns_save_download task held w (Q : bool → World.t → Prop) :
  is_Some (World.objects w !! task) → DatabaseLock ∉ held →
  (∀ w', World.objects w' = World.objects w → Q true w') →
  returns (DatabaseManager.save_download task) held w Q.
Proof.
  intros [x Hx] Hl HQ. unfold DatabaseManager.save_download.
  apply returns_bind, (returns_deref _ x); [done|].
  apply returns_with_lock; [done|].
  unfold returns. simpl. case_bool_decide; by apply HQ.
Qed.

Lemma returns_notify_status_callbacks task held w (Q : unit → World.t → Prop) :
  is_Some (World.objects w !! task) →
  (∀ w', World.objects w' = World.objects w → Q () w') →
  returns (DownloadManager._notify_status_callbacks task) held w Q.
Proof.
  intros [x Hx] HQ. unfold DownloadManager._notify_status_callbacks.
  apply returns_bind, (returns_deref _ x); [done|]. by apply returns_modify, HQ.
Qed.

Lemma returns_notify task held w (Q : unit → World.t → Prop) :
  is_Some (World.objects w !! task) →
  (∀ w', World.objects w' = World.objects w → Q () w') →
  returns (DownloadManager.notify task) held w Q.
Proof.
  intros [x Hx] HQ. unfold DownloadManager.notify.
  apply returns_bind, (returns_deref _ x); [done|]. by apply returns_modify, HQ.
Qed.

Lemma returns_remove_active download_id held w (Q : unit → World.t → Prop) :
  ManagerLock ∉ held →
  (∀ w', World.objects w' = World.objects w → Q () w') →
  returns (DownloadManager.remove_active download_id) held w Q.
Proof.
  intros Hl HQ. unfold DownloadManager.remove_active.
  apply returns_with_lock; [done|]. by apply returns_modify, HQ.
Qed.

(** [_on_status_change] returns and leaves every task as it is. *)
Lemma returns_on_status_change task held w (Q : unit → World.t → Prop) :
  is_Some (World.objects w !! task) → ManagerLock ∉ held → DatabaseLock ∉ held →
  (∀ w', World.objects w' = World.objects w → Q () w') →
  returns (DownloadManager._on_status_change task) held w Q.
Proof.
  intros Hx Hm Hd HQ. unfold DownloadManager._on_status_change.
  apply returns_bind, returns_save_download; [done..|]. intros w1 E1.
  assert (Hx1 : is_Some (World.objects w1 !! task)) by (by rewrite E1).
  destruct Hx1 as [x1 Hx1].
  apply returns_bind, (returns_deref _ x1); [done|].
  apply returns_bind.
  assert (Hlast : ∀ w2, World.objects w2 = World.objects w1 →
            returns (DownloadManager._notify_status_callbacks task) held w2 Q).
  { intros w2 E2. apply returns_notify_status_callbacks; [by rewrite E2, Hx1|].
    intros w3 E3. apply HQ. congruence. }
  assert (Hnotify : ∀ w2, World.objects w2 = World.objects w1 →
            returns (DownloadManager.notify task) held w2
              (λ _ w3, returns (DownloadManager._notify_status_callbacks task) held w3 Q)).
  { intros w2 E2. apply returns_notify; [by rewrite E2, Hx1|].
    intros w3 E3. apply Hlast. congruence. }
  destruct (bool_decide (DownloadTask.status x1 ∈ [COMPLETED; CANCELLED; ERROR])).
  - apply returns_bind, returns_remove_active; [done|]. intros w2 E2.
    destruct (bool_decide (DownloadTask.status x1 = COMPLETED)); [by apply Hnotify|].
    destruct (bool_decide (DownloadTask.status x1 = ERROR)); [by apply Hnotify|].
    apply returns_ret. by apply Hlast.
  - apply returns_ret. by apply Hlast.
Qed.

(** Creating the temporary files gives every part a path and changes
    nothing else of the parts. *)
Lemma returns_create_temp_files task task_id parts (i : nat) held w y
    (Q : unit → World.t → Prop) :
  World.objects w !! task = Some y →
  (∀ w' y', World.objects w' !! task = Some y' →
            part_range <$> DownloadTask.parts y' = part_range <$> DownloadTask.parts y →
            Q () w') →
  returns (DownloadEngine.create_temp_files task task_id parts i) held w Q.
Proof.
  revert i w y Q. induction parts as [|part rest IH]; intros i w y Q Hy HQ; simpl.
  - apply returns_ret. by apply (HQ w y).
  - apply returns_bind. unfold FileManager.create_temp_file.
    apply returns_bind, returns_modify, returns_ret.
    apply returns_bind, returns_update.
    set (w1 := World.set_objects _ _).
    assert (Hy1 : World.objects w1 !! task =
              Some (DownloadTask.set_parts
                      (alter (DownloadPart.set_temp_file_path
                                (Some (FileManager.path_join FileManager.temp_dir
                                         (task_id +:+ "_part_"
                                            +:+ pretty (DownloadPart.part_number part)
                                            +:+ ".tmp"))))
                         i (DownloadTask.parts y)) y)).
    { unfold w1. simpl. destruct (World.files w !! _); simpl;
        by rewrite lookup_alter_eq, Hy. }
    eapply IH; [exact Hy1|].
    intros w' y' Hy' Hr. apply (HQ w' y' Hy'). rewrite Hr. simpl.
    apply list_eq. intros j.
    rewrite !list_lookup_fmap. destruct (decide (j = i)) as [->|Hne].
    + rewrite list_lookup_alter_eq. by destruct (DownloadTask.parts y !! i).
    + by rewrite list_lookup_alter_ne.
Qed.

End effects.

(** ** The part-planning step of the engine *)

Section setup_download.
Context {env : Externals}.
Local Open Scope Z_scope.

Lemma parts_start now y : DownloadTask.parts (DownloadTask.start now y) = DownloadTask.parts y.
Proof. done. Qed.

(** C1, as amended. [_setup_download], run on any task, returns; the
    number of parts it leaves on the task is
    [max 1 (min M (max 1 (file_size div 1 MiB)))] when the task supports
    range requests and [file_size > 1 MiB] -- which is
    [min M (max 1 (file_size div 1 MiB))] for every [M >= 1] -- and 1
    otherwise; the parts, in the order of their numbers, are adjacent:
    the first starts at 0, each starts one byte after the previous one
    ends, the last ends at [file_size - 1]; and when [file_size] is not
    negative they tile [0 .. file_size - 1] with no gaps or overlaps:
    no part is inverted, every byte of a part is a byte of the file, and
    every byte of the file is a byte of exactly one part. *)
Theorem setup_download_parts (w : World.t) (task : nat) (x : DownloadTask.t) :
  World.objects w !! task = Some x →
  ∃ w' x',
    run (DownloadEngine._setup_download DownloadManager._on_status_change task) w
      = Returns () w' ∧
    World.objects w' !! task = Some x' ∧
    Z.of_nat (length (DownloadTask.parts x')) =
      Z.max 1
        (if DownloadTask.supports_range_requests x && (1024 * 1024 <? DownloadTask.file_size x)
         then Z.min (max_threads_per_download settings)
                (Z.max 1 (DownloadTask.file_size x `div` (1024 * 1024)))
         else 1) ∧
    chained (DownloadTask.file_size x) (DownloadTask.parts x') ∧
    (0 ≤ DownloadTask.file_size x →
     tiles (DownloadTask.file_size x) (DownloadTask.parts x') ∧
     covers_once (DownloadTask.file_size x) (DownloadTask.parts x')).
Proof.
  intros Hx.
  set (n := DownloadEngine.planned_threads x).
  set (y := DownloadTask.setup_multithread_download n (DownloadTask.file_size x) x).
  cut (returns (DownloadEngine._setup_download DownloadManager._on_status_change task) [] w
         (λ _ w', ∃ x', World.objects w' !! task = Some x' ∧
                        part_range <$> DownloadTask.parts x' = part_range <$> DownloadTask.parts y)).
  { intros Hr. apply returns_inv in Hr as ([] & w' & Hrun & x' & Hx' & Hparts).
    assert (0 ≤ DownloadTask.file_size x →
            tiles (DownloadTask.file_size x) (DownloadTask.parts x')) as Htiles.
    { intros Hsize. eapply tiles_part_range; [symmetry; exact Hparts|].
      by apply setup_parts_tile. }
    exists w', x'. split_and!; [done..| | |].
    - rewrite <- (length_fmap part_range), Hparts, length_fmap. apply setup_parts_length.
    - eapply chained_part_range; [symmetry; exact Hparts|]. apply setup_parts_chained.
    - intros Hsize. split; [by apply Htiles | by apply tiles_covers_once, Htiles]. }
  unfold DownloadEngine._setup_download.
  apply returns_bind, (returns_deref _ x); [done|].
  apply returns_bind, returns_update.
  match goal with |- returns _ _ ?w1 _ =>
    assert (Hy : World.objects w1 !! task = Some y)
      by (simpl; by rewrite lookup_alter_eq, Hx) end.
  apply returns_bind, (returns_deref _ y); [done|].
  apply returns_bind. eapply returns_create_temp_files; [exact Hy|].
  intros w2 y2 Hy2 Hparts.
  apply returns_bind, returns_with_lock; [not_held|].
  apply returns_bind, returns_time_time.
  apply returns_bind, returns_time_time.
  apply returns_modify.
  apply returns_bind, returns_modify.
  apply returns_bind, returns_time_time.
  apply returns_bind, returns_update.
  match goal with |- returns _ _ ?w3 _ =>
    assert (Hy3 : World.objects w3 !! task
                  = Some (DownloadTask.start (clock (S (S (World.ticks w2)))) y2))
      by (simpl; by rewrite lookup_alter_eq, Hy2) end.
  apply returns_on_status_change; [by rewrite Hy3 | not_held | not_held |].
  intros w4 E4. eexists. rewrite E4. split; [exact Hy3|]. by rewrite parts_start.
Qed.

End setup_download.

Section setup_download_examples.
Local Open Scope Z_scope.

(** The theorem applies to a 5 MiB download under the default settings. *)
Lemma setup_download_parts_witness :
  ∃ w' x',
    run (@DownloadEngine._setup_download example_externals
           (@DownloadManager._on_status_change example_externals) 0%nat)
      (world_with five_mib_task) = Returns () w' ∧
    World.objects w' !! 0%nat = Some x' ∧
    Z.of_nat (length (DownloadTask.parts x')) =
      Z.max 1
        (if DownloadTask.supports_range_requests five_mib_task
            && (1024 * 1024 <? DownloadTask.file_size five_mib_task)
         then Z.min (max_threads_per_download (@settings example_externals))
                (Z.max 1 (DownloadTask.file_size five_mib_task `div` (1024 * 1024)))
         else 1) ∧
    tiles (DownloadTask.file_size five_mib_task) (DownloadTask.parts x') ∧
    covers_once (DownloadTask.file_size five_mib_task) (DownloadTask.parts x').
Proof.
  destruct (@setup_download_parts example_externals (world_with five_mib_task) 0%nat
              five_mib_task eq_refl)
    as (w' & x' & Hrun & Hx' & Hlength & _ & Htiles).
  exists w', x'. split_and!; [exact Hrun | exact Hx' | exact Hlength | |];
    apply Htiles; vm_compute; discriminate.
Defined.

(** C1 as stated fails when the cap [M] is not positive: with [M = 0] on
    a 5 MiB download that supports range requests the formula of the
    claim gives [N = min 0 (max 1 5) = 0], and the engine emits one part. *)
Lemma setup_download_zero_cap :
  Z.min 0 (Z.max 1 ((5 * 1024 * 1024) `div` (1024 * 1024))) = 0%Z ∧
  ∃ w' x',
    run (@DownloadEngine._setup_download (externals_with_max_threads 0)
           (@DownloadManager._on_status_change (externals_with_max_threads 0)) 0%nat)
      (world_with five_mib_task) = Returns () w' ∧
    World.objects w' !! 0%nat = Some x' ∧
    part_range <$> DownloadTask.parts x' = [(0, 0, 5 * 1024 * 1024 - 1)%Z].
Proof.
  split; [done|]. eexists _, _. split_and!.
  - vm_compute. reflexivity.
  - vm_compute. reflexivity.
  - vm_compute. reflexivity.
Qed.

(** A file size that is negative: the one part, from byte 0 to byte
    [file_size - 1], is inverted. *)
Lemma setup_download_negative_size :
  ∃ w' x',
    run (@DownloadEngine._setup_download example_externals
           (@DownloadManager._on_status_change example_externals) 0%nat)
      (world_with (DownloadTask.set_file_size (-5)
                     (example_task "http://example.com/file.bin" "file.bin")))
    = Returns () w' ∧
    World.objects w' !! 0%nat = Some x' ∧
    part_range <$> DownloadTask.parts x' = [(0, 0, -6)%Z].
Proof. eexists _, _. split_and!; vm_compute; reflexivity. Qed.

End setup_download_examples.

(** ** [heapq] keeps the heap invariant *)

Section heapq_facts.
#[local] Arguments Nat.div : simpl never.
#[local] Arguments Nat.mul : simpl never.
Context {A : Type} (lt : A → A → bool).
Hypothesis lt_irrefl : ∀ a, lt a a = false.
Hypothesis lt_trans : ∀ a b c, lt a b = true → lt b c = true → lt a c = true.
(** Being not smaller passes through an item that is greater than some
    other: this holds of an order that leaves some items, such as NaN,
    unrelated to every other. *)
Hypothesis lt_mid_trans :
  ∀ d a b c, lt d b = true → lt a b = false → lt b c = false → lt a c = false.

Lemma lt_asym a b : lt a b = true → lt b a = false.
Proof.
  intros Hab. destruct (lt b a) eqn:Hba; [|done].
  pose proof (lt_trans _ _ _ Hab Hba) as Haa. by rewrite lt_irrefl in Haa.
Qed.

Lemma parent_bounds (j : nat) : 2 * ((j - 1) / 2) ≤ j - 1 < 2 * ((j - 1) / 2) + 2.
Proof.
  pose proof (Nat.div_mod_eq (j - 1) 2). pose proof (Nat.mod_upper_bound (j - 1) 2). lia.
Qed.

Lemma parent_of_child (pos k : nat) : k = 2 * pos + 1 ∨ k = 2 * pos + 2 → (k - 1) / 2 = pos.
Proof. pose proof (parent_bounds k). lia. Qed.

Lemma child_of_parent (pos k : nat) :
  0 < k → (k - 1) / 2 = pos → k = 2 * pos + 1 ∨ k = 2 * pos + 2.
Proof. pose proof (parent_bounds k). lia. Qed.

(** The value at the hole does not matter. *)
Lemma hole_ordered_insert heap pos v :
  hole_ordered lt heap pos → hole_ordered lt (<[pos := v]> heap) pos.
Proof.
  intros [Ha Hb]. split.
  - intros j c p Hj Hne Hpne Hc Hp.
    rewrite list_lookup_insert_ne in Hc, Hp by done. eauto.
  - intros j c g Hj Hpj Hpos Hc Hg. pose proof (parent_bounds j). pose proof (parent_bounds pos).
    rewrite list_lookup_insert_ne in Hc, Hg by lia. eauto.
Qed.

Lemma fits_above_insert heap pos v newitem :
  fits_above lt heap pos newitem → fits_above lt (<[pos := v]> heap) pos newitem.
Proof.
  intros Hc j c Hj Hpj Hcj. pose proof (parent_bounds j).
  rewrite list_lookup_insert_ne in Hcj by lia. eauto.
Qed.

(** Filling the hole with an item that fits below its parent and above
    its children gives a heap. *)
Lemma fill_hole_ordered heap pos newitem :
  pos < length heap →
  hole_ordered lt heap pos → fits_above lt heap pos newitem →
  (∀ parent, 0 < pos → heap !! ((pos - 1) / 2) = Some parent → lt newitem parent = false) →
  heap_ordered lt (<[pos := newitem]> heap).
Proof.
  intros Hlen [Ha Hb] Hc Hup j c p Hj Hcj Hpj.
  destruct (decide (j = pos)) as [->|Hne].
  - rewrite list_lookup_insert_eq in Hcj by done. simplify_eq.
    pose proof (parent_bounds pos).
    rewrite list_lookup_insert_ne in Hpj by lia. eauto.
  - rewrite list_lookup_insert_ne in Hcj by done.
    destruct (decide ((j - 1) / 2 = pos)) as [Heq|Hpne].
    + rewrite Heq, list_lookup_insert_eq in Hpj by done. simplify_eq. eauto.
    + rewrite list_lookup_insert_ne in Hpj by done. eauto.
Qed.

(** One iteration of [_siftdown]: the parent moves down into the hole. *)
Lemma hole_moves_up heap pos newitem parent :
  0 < pos → pos < length heap →
  hole_ordered lt heap pos → fits_above lt heap pos newitem →
  heap !! ((pos - 1) / 2) = Some parent → lt newitem parent = true →
  hole_ordered lt (<[pos := parent]> heap) ((pos - 1) / 2) ∧
  fits_above lt (<[pos := parent]> heap) ((pos - 1) / 2) newitem.
Proof.
  intros Hpos Hlen [Ha Hb] Hc Hparent Hlt.
  pose proof (parent_bounds pos) as Hpb.
  split; [split|].
  - intros j c p Hj Hne Hpne Hcj Hpj.
    destruct (decide (j = pos)) as [->|Hjne]; [done|].
    rewrite list_lookup_insert_ne in Hcj by done.
    destruct (decide ((j - 1) / 2 = pos)) as [Heq|Hpjne].
    + rewrite Heq, list_lookup_insert_eq in Hpj by done. simplify_eq. eauto.
    + rewrite list_lookup_insert_ne in Hpj by done. eauto.
  - intros j c g Hj Hpj Hppos Hcj Hg.
    pose proof (parent_bounds ((pos - 1) / 2)) as Hgb.
    rewrite list_lookup_insert_ne in Hg by lia.
    assert (Hpg : lt parent g = false).
    { apply (Ha ((pos - 1) / 2)); [done | lia | lia | done | done]. }
    destruct (decide (j = pos)) as [->|Hjne].
    + rewrite list_lookup_insert_eq in Hcj by done. by simplify_eq.
    + rewrite list_lookup_insert_ne in Hcj by done.
      apply (lt_mid_trans newitem _ parent); [done | | done].
      apply (Ha j); [done | done | lia | done |]. by rewrite Hpj.
  - intros j c Hj Hpj Hcj.
    destruct (decide (j = pos)) as [->|Hjne].
    + rewrite list_lookup_insert_eq in Hcj by done. simplify_eq. by apply lt_asym.
    + rewrite list_lookup_insert_ne in Hcj by done.
      assert (Hcp : lt c parent = false).
      { apply (Ha j); [done | done | lia | done |]. by rewrite Hpj. }
      destruct (lt c newitem) eqn:Hcn; [|done].
      by rewrite (lt_trans _ _ _ Hcn Hlt) in Hcp.
Qed.

Lemma siftdown_loop_length bound heap newitem startpos pos :
  length (heapq._siftdown_loop lt bound heap newitem startpos pos) = length heap.
Proof.
  revert heap pos. induction bound as [|bound IH]; intros heap pos; simpl.
  - by rewrite length_insert.
  - case_decide; [|by rewrite length_insert].
    destruct (heap !! _); [|by rewrite length_insert].
    destruct (lt newitem a); [|by rewrite length_insert].
    by rewrite IH, length_insert.
Qed.

Lemma siftdown_loop_ordered bound heap newitem pos :
  pos ≤ bound → pos < length heap →
  hole_ordered lt heap pos → fits_above lt heap pos newitem →
  heap_ordered lt (heapq._siftdown_loop lt bound heap newitem 0 pos).
Proof.
  revert heap pos. induction bound as [|bound IH]; intros heap pos Hb Hlen Hh Hc; simpl.
  - apply fill_hole_ordered; [done..|]. intros; lia.
  - case_decide as Hpos; [|apply fill_hole_ordered; [done..|]; intros; lia].
    pose proof (parent_bounds pos) as Hpb.
    destruct (heap !! ((pos - 1) / 2)) as [parent|] eqn:Hparent; last first.
    { apply lookup_ge_None in Hparent. lia. }
    destruct (lt newitem parent) eqn:Hlt.
    + destruct (hole_moves_up heap pos newitem parent) as [Hh' Hc']; [done..|].
      apply IH; [lia | rewrite length_insert; lia | done | done].
    + apply fill_hole_ordered; [done..|]. intros parent' _ Hp'. by simplify_eq.
Qed.

Lemma siftdown_loop_perm bound heap newitem pos :
  pos < length heap →
  heapq._siftdown_loop lt bound heap newitem 0 pos ≡ₚ <[pos := newitem]> heap.
Proof.
  revert heap pos. induction bound as [|bound IH]; intros heap pos Hlen; simpl; [done|].
  case_decide as Hpos; [|done].
  pose proof (parent_bounds pos) as Hpb.
  destruct (heap !! ((pos - 1) / 2)) as [parent|] eqn:Hparent; [|done].
  destruct (lt newitem parent); [|done].
  rewrite IH by (rewrite length_insert; lia).
  rewrite <- (list_insert_insert_eq heap pos parent newitem).
  apply Permutation_insert_swap.
  - by rewrite list_lookup_insert_eq.
  - by rewrite list_lookup_insert_ne by lia.
Qed.

(** [heappush] *)

Lemma heappush_unfold heap item :
  heapq.heappush lt heap item
  = heapq._siftdown_loop lt (length heap) (heap ++ [item]) item 0 (length heap).
Proof.
  unfold heapq.heappush, heapq._siftdown. rewrite length_app. simpl.
  replace (length heap + 1 - 1) with (length heap) by lia.
  by rewrite lookup_app_r, Nat.sub_diag by lia.
Qed.

Lemma heappush_ordered heap item :
  heap_ordered lt heap → heap_ordered lt (heapq.heappush lt heap item).
Proof.
  intros Hh. rewrite heappush_unfold.
  apply siftdown_loop_ordered; [done | rewrite length_app; simpl; lia | |].
  - split.
    + intros j c p Hj Hne Hpne Hc Hp.
      assert (j < length heap).
      { apply lookup_lt_Some in Hc. rewrite length_app in Hc. simpl in Hc. lia. }
      pose proof (parent_bounds j).
      rewrite lookup_app_l in Hc, Hp by lia. eauto.
    + intros j c g Hj Hpj _ Hc _. apply lookup_lt_Some in Hc.
      rewrite length_app in Hc. simpl in Hc. pose proof (parent_bounds j). lia.
  - intros j c Hj Hpj Hc. apply lookup_lt_Some in Hc.
    rewrite length_app in Hc. simpl in Hc. pose proof (parent_bounds j). lia.
Qed.

Lemma heappush_perm heap item : heapq.heappush lt heap item ≡ₚ item :: heap.
Proof.
  rewrite heappush_unfold, siftdown_loop_perm by (rewrite length_app; simpl; lia).
  rewrite list_insert_id.
  - by rewrite Permutation_app_comm.
  - by rewrite lookup_app_r, Nat.sub_diag by lia.
Qed.

Lemma heappush_length heap item : length (heapq.heappush lt heap item) = S (length heap).
Proof. by rewrite heappush_perm. Qed.

(** [heappop] *)

Lemma smaller_child_spec heap pos :
  2 * pos + 1 < length heap →
  let c := heapq.smaller_child lt heap (2 * pos + 1) in
  (c = 2 * pos + 1 ∨ c = 2 * pos + 2) ∧ c < length heap ∧
  ∀ j cj cc, j = 2 * pos + 1 ∨ j = 2 * pos + 2 → j ≠ c →
             heap !! j = Some cj → heap !! c = Some cc → lt cj cc = false.
Proof.
  intros Hlen. unfold heapq.smaller_child.
  destruct (lookup_lt_is_Some_2 heap (2 * pos + 1) Hlen) as [l Hl]. rewrite Hl.
  destruct (heap !! (2 * pos + 1 + 1)) as [r|] eqn:Hr.
  - apply lookup_lt_Some in Hr as Hrlen.
    destruct (lt l r) eqn:Hlr; simpl.
    + split_and!; [lia | lia |]. intros j cj cc Hj Hne Hcj Hcc.
      assert (j = 2 * pos + 1 + 1) as -> by lia. simplify_eq. by apply lt_asym.
    + split_and!; [lia | lia |]. intros j cj cc Hj Hne Hcj Hcc.
      assert (j = 2 * pos + 1) as -> by lia. by simplify_eq.
  - split_and!; [lia | lia |]. intros j cj cc Hj Hne Hcj Hcc.
    assert (j = 2 * pos + 1 + 1) as -> by lia. by simplify_eq.
Qed.

(** One iteration of [_siftup]: the smaller child moves up into the hole. *)
Lemma hole_moves_down heap pos child :
  2 * pos + 1 < length heap →
  heap !! heapq.smaller_child lt heap (2 * pos + 1) = Some child →
  hole_ordered lt heap pos →
  hole_ordered lt (<[pos := child]> heap) (heapq.smaller_child lt heap (2 * pos + 1)).
Proof.
  intros Hlen Hchild [Ha Hb].
  destruct (smaller_child_spec heap pos Hlen) as (Hc & Hclen & Hsib).
  set (c := heapq.smaller_child lt heap (2 * pos + 1)) in *.
  assert (Hpc : (c - 1) / 2 = pos) by (by apply parent_of_child).
  split.
  - intros j cj p Hj Hne Hpne Hcj Hpj.
    destruct (decide (j = pos)) as [->|Hjne].
    + rewrite list_lookup_insert_eq in Hcj by lia. simplify_eq.
      pose proof (parent_bounds pos).
      rewrite list_lookup_insert_ne in Hpj by lia.
      apply (Hb c); [lia | done | lia | done | done].
    + rewrite list_lookup_insert_ne in Hcj by done.
      destruct (decide ((j - 1) / 2 = pos)) as [Heq|Hpjne].
      * rewrite Heq, list_lookup_insert_eq in Hpj by lia. simplify_eq.
        apply (Hsib j); [by apply child_of_parent | done | done | done].
      * rewrite list_lookup_insert_ne in Hpj by done. eauto.
  - intros j cj g Hj Hpj Hcpos Hcj Hg.
    pose proof (parent_bounds j).
    rewrite list_lookup_insert_ne in Hcj by lia.
    rewrite Hpc, list_lookup_insert_eq in Hg by lia. simplify_eq.
    apply (Ha j); [done | lia | lia | done |]. by rewrite Hpj.
Qed.

Lemma siftup_loop_spec bound heap pos heap' leaf :
  length heap ≤ bound + pos → pos < length heap → hole_ordered lt heap pos →
  heapq._siftup_loop lt bound heap pos = (heap', leaf) →
  length heap' = length heap ∧ leaf < length heap ∧ length heap ≤ 2 * leaf + 1 ∧
  hole_ordered lt heap' leaf ∧
  ∀ v, <[leaf := v]> heap' ≡ₚ <[pos := v]> heap.
Proof.
  revert heap pos. induction bound as [|bound IH]; intros heap pos Hb Hlen Hh Hloop;
    cbn [heapq._siftup_loop] in Hloop.
  - lia.
  - case_decide as Hchild; last first.
    { simplify_eq. split_and!; [done | done | lia | done | done]. }
    destruct (smaller_child_spec heap pos Hchild) as (Hc & Hclen & _).
    set (c := heapq.smaller_child lt heap (2 * pos + 1)) in *.
    destruct (lookup_lt_is_Some_2 heap c Hclen) as [child Hchildv]. rewrite Hchildv in Hloop.
    apply IH in Hloop as (Hl' & Hleaf & Hnochild & Hh' & Hperm).
    + rewrite length_insert in Hl', Hleaf, Hnochild.
      split_and!; [done..|]. intros v. rewrite Hperm.
      rewrite <- (list_insert_insert_eq heap pos child v).
      apply Permutation_insert_swap.
      * by rewrite list_lookup_insert_eq.
      * by rewrite list_lookup_insert_ne by lia.
    + rewrite length_insert. lia.
    + rewrite length_insert. lia.
    + by apply hole_moves_down.
Qed.

Lemma siftup_root_spec heap :
  0 < length heap → hole_ordered lt heap 0 →
  heap_ordered lt (heapq._siftup lt heap 0) ∧ heapq._siftup lt heap 0 ≡ₚ heap.
Proof.
  intros Hlen Hh. unfold heapq._siftup.
  destruct (lookup_lt_is_Some_2 heap 0 Hlen) as [newitem Hnew]. rewrite Hnew.
  destruct (heapq._siftup_loop lt (length heap) heap 0) as [heap' leaf] eqn:Hloop.
  apply siftup_loop_spec in Hloop as (Hl' & Hleaf & Hnochild & Hh' & Hperm); [|lia|done|done].
  unfold heapq._siftdown. rewrite list_lookup_insert_eq by lia. split.
  - apply siftdown_loop_ordered; [done | rewrite length_insert; lia | |].
    + by apply hole_ordered_insert.
    + intros j c Hj Hpj Hc. apply lookup_lt_Some in Hc. rewrite length_insert in Hc.
      pose proof (parent_bounds j). lia.
  - rewrite siftdown_loop_perm by (rewrite length_insert; lia).
    rewrite list_insert_insert_eq, Hperm. by rewrite list_insert_id.
Qed.

Lemma heap_ordered_app heap tail : heap_ordered lt (heap ++ tail) → heap_ordered lt heap.
Proof.
  intros Hh j c p Hj Hc Hp. apply (Hh j c p Hj); by apply lookup_app_l_Some.
Qed.

Lemma heap_ordered_hole_root heap : heap_ordered lt heap → hole_ordered lt heap 0.
Proof.
  intros Hh. split.
  - intros j c p Hj _ _. by apply Hh.
  - intros; lia.
Qed.

(** The first item of a heap is not greater than any other, when being
    not smaller is transitive among the items of the heap. *)
Lemma heap_root_least heap root :
  (∀ a b c, a ∈ heap → b ∈ heap → c ∈ heap →
            lt a b = false → lt b c = false → lt a c = false) →
  heap_ordered lt heap → heap !! 0 = Some root →
  ∀ j x, heap !! j = Some x → lt x root = false.
Proof.
  intros Hneg Hh Hroot j. induction (lt_wf j) as [j _ IH]. intros x Hx.
  destruct (decide (j = 0)) as [->|Hj].
  - by simplify_eq.
  - pose proof (parent_bounds j).
    assert (Hplen : (j - 1) / 2 < length heap).
    { apply lookup_lt_Some in Hx. lia. }
    destruct (lookup_lt_is_Some_2 heap _ Hplen) as [p Hp].
    apply (Hneg _ p); [by eapply list_elem_of_lookup_2.. | |].
    + apply (Hh j); [lia | done | done].
    + apply (IH ((j - 1) / 2)); [lia | done].
Qed.

Lemma heappop_None heap : heapq.heappop lt heap = None ↔ heap = [].
Proof.
  unfold heapq.heappop. destruct (last heap) as [lastelt|] eqn:Hlast.
  - split; [|by intros ->]. by destruct (take _ heap !! 0).
  - by apply last_None in Hlast as ->.
Qed.

(** [heappop] returns the first item and leaves a heap of the others. *)
Lemma heappop_heap heap item rest :
  heap_ordered lt heap → heapq.heappop lt heap = Some (item, rest) →
  heap !! 0 = Some item ∧ heap_ordered lt rest ∧ heap ≡ₚ item :: rest.
Proof.
  intros Hh. unfold heapq.heappop.
  destruct (last heap) as [lastelt|] eqn:Hlast; [|done].
  apply last_Some in Hlast as [body ->].
  rewrite length_app. simpl. replace (length body + 1 - 1) with (length body) by lia.
  rewrite take_app_length.
  destruct (body !! 0) as [returnitem|] eqn:Hroot; intros [= <- <-].
  - assert (Hlen : 0 < length (<[0 := lastelt]> body)).
    { rewrite length_insert. by apply lookup_lt_Some in Hroot. }
    destruct (siftup_root_spec (<[0 := lastelt]> body) Hlen) as [Hord Hperm].
    { apply hole_ordered_insert, heap_ordered_hole_root. by eapply heap_ordered_app. }
    split_and!; [by apply lookup_app_l_Some | done |].
    rewrite Hperm. destruct body as [|b body]; [done|]. simpl in *. simplify_eq.
    rewrite <- Permutation_middle. by rewrite Permutation_app_comm.
  - destruct body; [|done]. by split_and!.
Qed.


End heapq_facts.

(** ** The order in which a heap is emptied *)

Section heapq_order_facts.
Context {A : Type} (lt : A → A → bool).
Hypothesis lt_irrefl : ∀ a, lt a a = false.
Hypothesis lt_trans : ∀ a b c, lt a b = true → lt b c = true → lt a c = true.
Hypothesis lt_neg_trans : ∀ a b c, lt a b = false → lt b c = false → lt a c = false.





End heapq_order_facts.


(** ** The order in which the manager's queue is emptied *)

Section queue_facts.
Local Open Scope Z_scope.









End queue_facts.

(** ** The scheduler *)

Section scheduler_facts.
Context {env : Externals}.

Lemma float_lt_true a b : Py.float_lt a b = true ↔ (a < b)%Q.
Proof.
  unfold Py.float_lt. rewrite negb_true_iff. split.
  - intros Hle. apply Qnot_le_lt. intros Hle'. apply Qle_bool_iff in Hle'. congruence.
  - intros Hlt. destruct (Qle_bool b a) eqn:Hle; [|done].
    apply Qle_bool_iff in Hle. by apply Qlt_not_le in Hlt.
Qed.

Lemma float_lt_false a b : Py.float_lt a b = false ↔ (b <= a)%Q.
Proof.
  unfold Py.float_lt. rewrite negb_false_iff. apply Qle_bool_iff.
Qed.

Lemma float_le_true a b : Py.float_le a b = true ↔ (a <= b)%Q.
Proof. apply Qle_bool_iff. Qed.

Lemma float_le_false a b : Py.float_le a b = false ↔ (b < a)%Q.
Proof.
  unfold Py.float_le. split.
  - intros Hle. apply Qnot_le_lt. intros Hle'. apply Qle_bool_iff in Hle'. congruence.
  - intros Hlt. destruct (Qle_bool a b) eqn:Hle; [|done].
    apply Qle_bool_iff in Hle. by apply Qlt_not_le in Hlt.
Qed.

(** [<] on floats with NaN is irreflexive and transitive; being not
    smaller is transitive through an item that is not NaN, and so
    through one that is greater than some other. *)
Lemma py_lt_irrefl a : Py.lt a a = false.
Proof. destruct a as [x|]; [|done]. apply float_lt_false, Qle_refl. Qed.

Lemma py_lt_trans a b c : Py.lt a b = true → Py.lt b c = true → Py.lt a c = true.
Proof.
  destruct a as [x|], b as [y|], c as [z|]; cbn [Py.lt]; try done.
  rewrite !float_lt_true. apply Qlt_trans.
Qed.

Lemma py_lt_neg_trans a b c :
  b ≠ Py.NaN → Py.lt a b = false → Py.lt b c = false → Py.lt a c = false.
Proof.
  destruct a as [x|], b as [y|], c as [z|]; cbn [Py.lt]; try done.
  rewrite !float_lt_false. intros _ Hab Hbc. by eapply Qle_trans.
Qed.

Lemma scheduled_lt_irrefl a : ScheduledItem.lt a a = false.
Proof. apply py_lt_irrefl. Qed.

Lemma scheduled_lt_trans a b c :
  ScheduledItem.lt a b = true → ScheduledItem.lt b c = true → ScheduledItem.lt a c = true.
Proof. apply py_lt_trans. Qed.

Lemma scheduled_lt_neg_trans a b c :
  ScheduledItem.scheduled_time b ≠ Py.NaN →
  ScheduledItem.lt a b = false → ScheduledItem.lt b c = false → ScheduledItem.lt a c = false.
Proof. apply py_lt_neg_trans. Qed.

Lemma scheduled_lt_mid_trans d a b c :
  ScheduledItem.lt d b = true →
  ScheduledItem.lt a b = false → ScheduledItem.lt b c = false → ScheduledItem.lt a c = false.
Proof.
  intros Hdb. apply scheduled_lt_neg_trans. unfold ScheduledItem.lt in Hdb.
  intros Hnan. rewrite Hnan in Hdb. by destruct (ScheduledItem.scheduled_time d).
Qed.

(** [schedule_download], evaluated. *)
Lemma schedule_download_unfold held w task x :
  World.objects w !! task = Some x →
  DownloadScheduler.schedule_download task held w =
  if negb (Py.truthy_float (DownloadTask.scheduled_time x)) then Returns false w
  else if Py.le (default (Py.Finite 0) (DownloadTask.scheduled_time x))
            (Py.Finite (clock (World.ticks w)))
  then Returns false (World.set_ticks (S (World.ticks w)) w)
  else if bool_decide (SchedulerLock ∈ held) then Blocks
  else Returns true
         (World.set_condition_notified (S (World.condition_notified w))
            (World.set_scheduled_downloads
               (heapq.heappush ScheduledItem.lt (World.scheduled_downloads w)
                  (ScheduledItem.mk (default (Py.Finite 0) (DownloadTask.scheduled_time x))
                     task))
               (World.set_ticks (S (World.ticks w)) w))).
Proof.
  intros Hx. unfold DownloadScheduler.schedule_download, mbind, M_bind, deref.
  rewrite Hx. destruct (negb _); [done|]. unfold time_time.
  destruct (Py.le _ _); [done|].
  unfold DownloadScheduler.with_condition, with_lock.
  by destruct (bool_decide _).
Qed.

(** C8, as amended. With [now] the reading of the clock at the call:
    [schedule_download(task)] returns [False] and leaves the heap, the
    condition and the tasks as they are whenever [task.scheduled_time] is
    absent or is a number not greater than [now]; and when
    [task.scheduled_time] is a number greater than [now], or is NaN, it
    returns [True], the heap is the result of [heappush] with the entry
    [(scheduled_time, task)] -- the old entries and the new one, and a
    heap if it was one -- and the condition is notified once. *)
Theorem schedule_download_spec (w : World.t) (task : nat) (x : DownloadTask.t) :
  World.objects w !! task = Some x →
  (match DownloadTask.scheduled_time x with
   | None => True
   | Some (Py.Finite s) => (s <= clock (World.ticks w))%Q
   | Some Py.NaN => False
   end →
   ∃ w', run (DownloadScheduler.schedule_download task) w = Returns false w' ∧
         World.scheduled_downloads w' = World.scheduled_downloads w ∧
         World.condition_notified w' = World.condition_notified w ∧
         World.objects w' = World.objects w) ∧
  (∀ s, DownloadTask.scheduled_time x = Some s →
        match s with
        | Py.Finite q => (clock (World.ticks w) < q)%Q
        | Py.NaN => True
        end →
   ∃ w', run (DownloadScheduler.schedule_download task) w = Returns true w' ∧
         World.scheduled_downloads w'
           = heapq.heappush ScheduledItem.lt (World.scheduled_downloads w)
               (ScheduledItem.mk s task) ∧
         World.scheduled_downloads w' ≡ₚ ScheduledItem.mk s task :: World.scheduled_downloads w ∧
         (heap_ordered ScheduledItem.lt (World.scheduled_downloads w) →
          heap_ordered ScheduledItem.lt (World.scheduled_downloads w')) ∧
         World.condition_notified w' = S (World.condition_notified w) ∧
         World.objects w' = World.objects w).
Proof.
  intros Hx. unfold run. rewrite (schedule_download_unfold _ _ _ _ Hx). split.
  - destruct (DownloadTask.scheduled_time x) as [[s|]|]; simpl; [|done|by eexists].
    intros Hle. destruct (Qeq_bool s 0); simpl; [by eexists|].
    apply float_le_true in Hle. rewrite Hle. by eexists.
  - intros s Hs Hlt. pose proof (clock_after_epoch (World.ticks w)) as Hnow.
    rewrite Hs.
    assert (negb (Py.truthy_float (Some s)) = false
            ∧ Py.le (default (Py.Finite 0) (Some s)) (Py.Finite (clock (World.ticks w)))
              = false) as [-> ->].
    { destruct s as [q|]; simpl; [|done]. split.
      - destruct (Qeq_bool q 0) eqn:Heq; [|done]. apply Qeq_bool_iff in Heq. lra.
      - by apply float_le_false. }
    simpl.
    eexists. split_and!; [done | done | | | done | done]; simpl.
    + apply heappush_perm.
    + intros Hheap. apply heappush_ordered;
        [apply scheduled_lt_irrefl | apply scheduled_lt_trans
        | apply scheduled_lt_mid_trans | done].
Qed.

Lemma find_from_found items (i : nat) download_id held w :
  Forall (λ item, is_Some (World.objects w !! ScheduledItem.task item)) items →
  (∃ item x, item ∈ items ∧ World.objects w !! ScheduledItem.task item = Some x ∧
             DownloadTask.id x = download_id) →
  ∃ j item, DownloadScheduler.find_from items i download_id held w
            = Returns (Some (j, item)) w.
Proof.
  revert i. induction items as [|item0 rest IH]; intros i Hvalid (item & x & Hin & Hx & Hid).
  - by apply elem_of_nil in Hin.
  - apply Forall_cons in Hvalid as [[x0 Hx0] Hvalid].
    cbn [DownloadScheduler.find_from]. unfold mbind, M_bind, deref. rewrite Hx0.
    destruct (String.eqb_spec (DownloadTask.id x0) download_id) as [Heq|Hne]; [by eexists _, _|].
    apply IH; [done|]. apply elem_of_cons in Hin as [->|Hin].
    + simplify_eq.
    + by exists item, x.
Qed.

(** [reschedule_download] of a download that is in the schedule never
    returns: it calls [unschedule_download] while it holds the
    scheduler's lock, which [unschedule_download] acquires again. This is
    so whatever the new time is. (It settles C10: the call does not return
    [False], and the entry is not removed.) *)
Theorem reschedule_download_blocks (w : World.t) (download_id : string)
    (new_time : Py.float) :
  schedule_valid w → is_scheduled_id w download_id →
  run (DownloadScheduler.reschedule_download download_id new_time) w = Blocks.
Proof.
  intros Hvalid Hin. unfold run, DownloadScheduler.reschedule_download.
  unfold DownloadScheduler.with_condition at 1, with_lock at 1. simpl.
  unfold mbind at 1, M_bind at 1. unfold gets at 1.
  unfold mbind at 1, M_bind at 1.
  destruct (find_from_found (World.scheduled_downloads w) 0 download_id [SchedulerLock] w
              Hvalid Hin) as (j & item & ->).
  reflexivity.
Qed.

End scheduler_facts.

Section scheduler_examples.
Local Open Scope Q_scope.

(** Scheduling, at time 1000, a task due at 2000 and a task due at 500. *)
Lemma schedule_download_spec_witness :
  (∃ w', run (@DownloadScheduler.schedule_download example_externals 0%nat)
           (world_with (scheduled_task 500)) = Returns false w' ∧
         World.scheduled_downloads w' = [] ∧
         World.condition_notified w' = 0%nat ∧
         World.objects w' = World.objects (world_with (scheduled_task 500))) ∧
  (∃ w', run (@DownloadScheduler.schedule_download example_externals 0%nat)
           (world_with (scheduled_task 2000)) = Returns true w' ∧
         World.scheduled_downloads w' = [ScheduledItem.mk (Py.Finite 2000) 0%nat] ∧
         World.condition_notified w' = 1%nat).
Proof.
  split.
  - refine (proj1 (@schedule_download_spec example_externals
                     (world_with (scheduled_task 500)) 0%nat (scheduled_task 500) _) _).
    + reflexivity.
    + vm_compute. discriminate.
  - destruct (proj2 (@schedule_download_spec example_externals
                       (world_with (scheduled_task 2000)) 0%nat (scheduled_task 2000)
                       eq_refl) (Py.Finite 2000) eq_refl)
      as (w' & Hrun & Hheap & _ & _ & Hnot & _).
    + reflexivity.
    + exists w'. split_and!; [exact Hrun | exact Hheap | exact Hnot].
Defined.

(** C8 as stated fails for a scheduled time that is NaN: it is not
    greater than the time of the call, 1000, nor than any other, and
    [schedule_download] puts the task in the schedule and returns
    [True]. *)
Lemma schedule_download_nan :
  Py.lt (Py.Finite 1000) Py.NaN = false ∧
  ∃ w',
    run (@DownloadScheduler.schedule_download example_externals 0%nat)
      (world_with nan_scheduled_task) = Returns true w' ∧
    World.scheduled_downloads w' = [ScheduledItem.mk Py.NaN 0%nat] ∧
    World.condition_notified w' = 1%nat.
Proof.
  split; [reflexivity|]. eexists. split_and!; reflexivity.
Qed.

End scheduler_examples.


Section reschedule_examples.
Local Open Scope Q_scope.

(** The failing input of C10: at time 1000, the schedule holds one task,
    due at 2000, and it is rescheduled to the past time 500. *)
Lemma reschedule_download_blocks_witness :
  run (@DownloadScheduler.reschedule_download example_externals
         (DownloadTask.id (scheduled_task 2000)) (Py.Finite 500))
      (world_scheduled (scheduled_task 2000)) = Blocks.
Proof.
  apply (@reschedule_download_blocks example_externals).
  - repeat constructor. by eexists.
  - eexists _, _. split_and!; [apply list_elem_of_here | reflexivity | reflexivity].
Defined.

End reschedule_examples.

(** ** Loading the persisted tasks at start-up *)

Section recovery_facts.
Context {env : Externals}.

Lemma ids_by_created_at_desc_nil w :
  DatabaseManager.ids_by_created_at_desc w = [] ↔ World.db_downloads w = ∅.
Proof.
  unfold DatabaseManager.ids_by_created_at_desc. split.
  - intros Hnil. apply fmap_nil_inv in Hnil.
    apply map_to_list_empty_iff, Permutation_nil_r.
    rewrite <- Hnil. by rewrite merge_sort_Permutation.
  - intros ->. by rewrite map_to_list_empty.
Qed.

(** [load_all_downloads] calls [load_download] for every row while it
    holds the database lock, which [load_download] acquires again: as
    soon as there is a row, it never returns. *)
Lemma load_all_downloads_blocks w :
  World.db_downloads w ≠ ∅ → run DatabaseManager.load_all_downloads w = Blocks.
Proof.
  intros Hne. unfold run, DatabaseManager.load_all_downloads,
    DatabaseManager._get_connection, with_lock. simpl.
  unfold mbind, M_bind, gets.
  destruct (DatabaseManager.ids_by_created_at_desc w) as [|download_id rest] eqn:Hids.
  - by apply ids_by_created_at_desc_nil in Hids.
  - reflexivity.
Qed.

(** With no persisted task there is nothing to recover. *)
Lemma load_downloads_empty w :
  World.db_downloads w = ∅ → run DownloadManager._load_downloads w = Returns () w.
Proof.
  intros Hempty. unfold run, DownloadManager._load_downloads,
    DatabaseManager.load_all_downloads, DatabaseManager._get_connection, with_lock. simpl.
  unfold mbind, M_bind, gets.
  apply ids_by_created_at_desc_nil in Hempty. by rewrite Hempty.
Qed.

(** Start-up recovery never returns when a task is persisted: the tasks
    are not loaded, none is rewritten to Paused, none reaches the
    scheduler. (It settles C7.) *)
Theorem load_downloads_blocks (w : World.t) :
  World.db_downloads w ≠ ∅ → run DownloadManager._load_downloads w = Blocks.
Proof.
  intros Hne. unfold run, DownloadManager._load_downloads.
  unfold mbind, M_bind. fold (run DatabaseManager.load_all_downloads w).
  by rewrite load_all_downloads_blocks.
Qed.

Lemma save_download_run task x held w :
  World.objects w !! task = Some x → DatabaseLock ∉ held →
  DatabaseManager.save_download task held w = Returns true (saved x w).
Proof.
  intros Hx Hl. unfold DatabaseManager.save_download, DatabaseManager._get_connection.
  rewrite bind_run. unfold deref. rewrite Hx. unfold with_lock.
  rewrite (bool_decide_eq_false_2 _ Hl). unfold saved.
  rewrite !bind_run. unfold modify at 1. case_bool_decide; reflexivity.
Qed.

(** The last step of the loop: a task whose scheduled time is still
    ahead, at the two readings of the clock that follow, is pushed on the
    scheduler's heap. *)
Lemma returns_schedule_if_scheduled w task x :
  World.objects w !! task = Some x →
  returns
    (scheduled ← is_scheduled task;
     if scheduled : bool
     then DownloadScheduler.schedule_download task ;; mret ()
     else mret ()) [ManagerLock] w
    (λ _ w',
       World.all_downloads w' = World.all_downloads w ∧
       World.objects w' = World.objects w ∧
       World.db_downloads w' = World.db_downloads w ∧
       (∀ s, DownloadTask.scheduled_time x = Some (Py.Finite s) →
             (clock (World.ticks w) < s)%Q → (clock (S (World.ticks w)) < s)%Q →
             World.scheduled_downloads w'
             = heapq.heappush ScheduledItem.lt (World.scheduled_downloads w)
                 (ScheduledItem.mk (Py.Finite s) task)) ∧
       (DownloadTask.scheduled_time x = None →
        World.scheduled_downloads w' = World.scheduled_downloads w)).
Proof.
  intros Hx. unfold is_scheduled.
  apply returns_bind, returns_bind, (returns_deref _ x); [done|].
  destruct (DownloadTask.scheduled_time x) as [s|] eqn:Hs; last first.
  { apply returns_ret, returns_ret. split_and!; done. }
  apply returns_bind, returns_time_time, returns_ret.
  unfold DownloadTask.is_scheduled. rewrite Hs.
  destruct s as [s|]; cbn [Py.lt]; last first.
  { apply returns_ret. split_and!; done. }
  destruct (Py.float_lt (clock (World.ticks w)) s) eqn:Hlt1; last first.
  { apply returns_ret. split_and!; [done.. | | done].
    intros s' [= <-] Hlt. apply float_lt_true in Hlt. congruence. }
  apply returns_bind. unfold returns at 1.
  erewrite schedule_download_unfold; [|simpl; exact Hx].
  rewrite Hs. simpl.
  pose proof (clock_after_epoch (World.ticks w)) as Hnow.
  apply float_lt_true in Hlt1.
  assert (Hnz : Qeq_bool s 0 = false).
  { destruct (Qeq_bool s 0) eqn:Heq; [|done]. apply Qeq_bool_iff in Heq. lra. }
  cbn [Py.truthy_float]. rewrite Hnz. simpl.
  destruct (Py.float_le s (clock (S (World.ticks w)))) eqn:Hle.
  - apply returns_ret. split_and!; [done.. | | done].
    intros s' [= <-] _ Hlt. apply float_le_false in Hlt. congruence.
  - apply returns_ret. simpl. split_and!; [done.. | | done].
    by intros s' [= <-] _ _.
Qed.

(** What the loop of [_load_downloads] does with one loaded task, were
    [load_all_downloads] to return it: the task enters the registry; a
    task persisted as Downloading is rewritten to Paused and saved again,
    a task of any other status keeps it and is not saved; and a task
    whose scheduled time is still ahead, at the two readings of the clock
    that follow, is pushed on the scheduler's heap. *)
Lemma load_downloads_loop_one w task x :
  World.objects w !! task = Some x →
  returns (DownloadManager._load_downloads_loop [task]) [ManagerLock] w
    (λ _ w',
       World.all_downloads w' = <[DownloadTask.id x := task]> (World.all_downloads w) ∧
       (DownloadTask.status x = DOWNLOADING →
        World.objects w' !! task = Some (DownloadTask.set_status PAUSED x) ∧
        World.db_downloads w' !! DownloadTask.id x
          = Some (DatabaseManager.row_of_task (DownloadTask.set_status PAUSED x))) ∧
       (DownloadTask.status x ≠ DOWNLOADING →
        World.objects w' !! task = Some x ∧
        World.db_downloads w' = World.db_downloads w) ∧
       (∀ s, DownloadTask.scheduled_time x = Some (Py.Finite s) →
             (clock (World.ticks w) < s)%Q → (clock (S (World.ticks w)) < s)%Q →
             World.scheduled_downloads w'
             = heapq.heappush ScheduledItem.lt (World.scheduled_downloads w)
                 (ScheduledItem.mk (Py.Finite s) task)) ∧
       (DownloadTask.scheduled_time x = None →
        World.scheduled_downloads w' = World.scheduled_downloads w)).
Proof.
  intros Hx. unfold DownloadManager._load_downloads_loop. cbn [for_each].
  apply returns_bind.
  apply returns_bind, (returns_deref _ x); [done|].
  apply returns_bind, returns_modify.
  apply returns_bind.
  destruct (decide (DownloadTask.status x = DOWNLOADING)) as [Hst|Hst].
  - rewrite (bool_decide_eq_true_2 _ Hst).
    apply returns_bind, returns_update.
    apply returns_bind. unfold returns at 1.
    erewrite save_download_run; [|simpl; by rewrite lookup_alter_eq, Hx | not_held].
    apply returns_ret.
    eapply returns_mono.
    { apply (returns_schedule_if_scheduled _ task (DownloadTask.set_status PAUSED x)).
      unfold saved. case_bool_decide; simpl; by rewrite lookup_alter_eq, Hx. }
    intros [] w' (Hr & Ho & Hd & Hs & Hn). apply returns_ret.
    rewrite Hr, Ho, Hd. split_and!.
    + unfold saved. by case_bool_decide.
    + intros _. unfold saved. case_bool_decide; simpl;
        rewrite lookup_alter_eq, Hx, lookup_insert_eq; done.
    + done.
    + intros s Hs1 Hlt1 Hlt2. rewrite (Hs s); [| done | |];
        unfold saved; case_bool_decide; done.
    + intros Hnone. rewrite Hn by done. unfold saved. by case_bool_decide.
  - rewrite (bool_decide_eq_false_2 _ Hst). apply returns_ret.
    eapply returns_mono.
    { by apply (returns_schedule_if_scheduled _ task x). }
    intros [] w' (Hr & Ho & Hd & Hs & Hn). apply returns_ret.
    rewrite Hr, Ho, Hd. split_and!; [done | done | | done | done].
    intros _. by split.
Qed.

End recovery_facts.

(** The failing input of C7: the database holds one task, persisted with
    the status Downloading. *)
Lemma load_downloads_blocks_witness :
  run (@DownloadManager._load_downloads example_externals) (world_persisted interrupted_task)
  = Blocks.
Proof.
  apply (@load_downloads_blocks example_externals).
  apply insert_non_empty.
Defined.

(** ** Cancelling a download *)

Section cancel_facts.
Context {env : Externals}.





Lemma status_cancel x : DownloadTask.status (DownloadTask.cancel x) = CANCELLED.
Proof. done. Qed.


End cancel_facts.


(** ** Adding a download *)

Section add_facts.
Context {env : Externals}.

Lemma is_duplicate_of_spec url w entry :
  DownloadManager.is_duplicate_of url w entry = true ↔
  ∃ x, World.objects w !! entry.2 = Some x ∧ DownloadTask.url x = url ∧
       DownloadTask.status x ≠ COMPLETED ∧ DownloadTask.status x ≠ CANCELLED.
Proof.
  unfold DownloadManager.is_duplicate_of.
  destruct (World.objects w !! entry.2) as [x|]; last first.
  { split; [done|]. by intros (? & ? & _). }
  rewrite andb_true_iff, negb_true_iff, bool_decide_eq_false.
  rewrite !elem_of_cons, elem_of_nil. split.
  - intros [Hst Hurl]. exists x. apply String.eqb_eq in Hurl.
    split_and!; [done | done | |]; intros Heq; apply Hst; auto.
  - intros (? & [= <-] & Hurl & Hc & Hx). split; [|by apply String.eqb_eq].
    intros [?|[?|[]]]; done.
Qed.

Lemma is_duplicate_url_run url w :
  run (DownloadManager._is_duplicate_url url) w
  = Returns (existsb (DownloadManager.is_duplicate_of url w)
               (map_to_list (World.all_downloads w))) w.
Proof. done. Qed.

Lemma is_duplicate_url_spec url w :
  existsb (DownloadManager.is_duplicate_of url w) (map_to_list (World.all_downloads w)) = true
  ↔ has_live_download w url.
Proof.
  rewrite existsb_exists. unfold has_live_download. split.
  - intros ([download_id task] & Hin & Hdup).
    apply list_elem_of_In, elem_of_map_to_list in Hin.
    apply is_duplicate_of_spec in Hdup as (x & ? & ? & ? & ?). by exists download_id, task, x.
  - intros (download_id & task & x & Hreg & Hx & ? & ? & ?).
    exists (download_id, task). split.
    + by apply list_elem_of_In, elem_of_map_to_list.
    + apply is_duplicate_of_spec. by exists x.
Qed.

(** Steps that keep a task object in existence. *)

Lemma alive_update task r f w :
  alive task w → alive task (World.set_objects (alter f r (World.objects w)) w).
Proof. unfold alive. simpl. by rewrite lookup_alter_is_Some. Qed.

Lemma returns_update_alive task r f held w (Q : unit → World.t → Prop) :
  alive task w → (∀ w', alive task w' → Q () w') → returns (update r f) held w Q.
Proof. intros Ha HQ. by apply returns_update, HQ, alive_update. Qed.

Lemma returns_deref_alive task held w (Q : DownloadTask.t → World.t → Prop) :
  alive task w → (∀ x, Q x w) → returns (deref task) held w Q.
Proof. intros [x Hx] HQ. by apply (returns_deref _ x). Qed.

Lemma returns_save_download_alive task held w (Q : bool → World.t → Prop) :
  alive task w → DatabaseLock ∉ held →
  (∀ b w', alive task w' → Q b w') →
  returns (DatabaseManager.save_download task) held w Q.
Proof.
  intros Ha Hl HQ. apply returns_save_download; [done..|].
  intros w' E. apply HQ. unfold alive. by rewrite E.
Qed.

Lemma returns_notify_status_callbacks_alive task held w (Q : unit → World.t → Prop) :
  alive task w → (∀ w', alive task w' → Q () w') →
  returns (DownloadManager._notify_status_callbacks task) held w Q.
Proof.
  intros Ha HQ. apply returns_notify_status_callbacks; [done|].
  intros w' E. apply HQ. unfold alive. by rewrite E.
Qed.

Lemma returns_queue_download task held w (Q : unit → World.t → Prop) :
  alive task w → DatabaseLock ∉ held →
  (∀ w', alive task w' → Q () w') →
  returns (DownloadManager._queue_download task) held w Q.
Proof.
  intros Ha Hl HQ. unfold DownloadManager._queue_download.
  apply returns_bind, (returns_deref_alive task); [done|]. intros x.
  apply returns_bind, returns_modify.
  apply returns_bind, (returns_update_alive task); [done|]. intros w1 Ha1.
  apply returns_bind, returns_save_download_alive; [done..|]. intros b w2 Ha2.
  by apply returns_notify_status_callbacks_alive.
Qed.

Lemma returns_schedule_download task held w (Q : bool → World.t → Prop) :
  alive task w → SchedulerLock ∉ held →
  (∀ b w', alive task w' → Q b w') →
  returns (DownloadScheduler.schedule_download task) held w Q.
Proof.
  intros [x Hx] Hl HQ. unfold returns.
  rewrite (schedule_download_unfold _ _ _ _ Hx).
  rewrite (bool_decide_eq_false_2 _ Hl).
  destruct (negb _); [apply HQ; by exists x|].
  destruct (Py.le _ _); apply HQ; by exists x.
Qed.

(** The body of [add_download] after the two checks: it returns the new
    task. *)
Lemma returns_add_download_rest url filename destination scheduled_time priority w :
  returns
    (t_id ← time_time;
     t_created ← time_time;
     task ← new_object (DownloadTask.__init__ t_id t_created url filename destination);
     update task (DownloadTask.set_scheduled_time scheduled_time) ;;
     update task (DownloadTask.set_priority priority) ;;
     (if enable_video_detection settings then
        match detect_video url with
        | Some video_info =>
            update task (DownloadTask.set_is_video true) ;;
            update task (DownloadTask.set_video_quality (vi_quality video_info)) ;;
            (if Py.truthy_str (vi_direct_url video_info)
             then update task (DownloadTask.set_url (default ""%string (vi_direct_url video_info)))
             else mret ())
        | None => mret ()
        end
      else mret ()) ;;
     x ← deref task;
     (if negb (Py.truthy_str (DownloadTask.destination x))
      then update task (DownloadTask.set_destination (Some (download_directory settings)))
      else mret ()) ;;
     DatabaseManager.save_download task ;;
     x ← deref task;
     with_lock ManagerLock
       (modify (λ w, World.set_all_downloads
                       (<[DownloadTask.id x := task]> (World.all_downloads w)) w)) ;;
     (if Py.truthy_float scheduled_time then
        now ← time_time;
        if Py.lt (Py.Finite now) (default (Py.Finite 0) scheduled_time) then
          DownloadScheduler.schedule_download task ;;
          update task (DownloadTask.set_status QUEUED)
        else DownloadManager._queue_download task
      else DownloadManager._queue_download task) ;;
     DownloadManager._notify_status_callbacks task ;;
     mret task) [] w (λ _ _, True).
Proof.
  apply returns_bind, returns_time_time.
  apply returns_bind, returns_time_time.
  apply returns_bind. unfold returns at 1, new_object.
  set (task := World.next_ref _).
  match goal with |- returns _ _ ?w1 _ =>
    assert (Ha : alive task w1) by (unfold alive; simpl; by rewrite lookup_insert_eq);
    generalize dependent w1 end.
  intros w1 Ha1.
  apply returns_bind, (returns_update_alive task); [done|]. intros w2 Ha2.
  apply returns_bind, (returns_update_alive task); [done|]. intros w3 Ha3.
  apply returns_bind.
  assert (Hrest : ∀ w4, alive task w4 →
    returns
      (x ← deref task;
       (if negb (Py.truthy_str (DownloadTask.destination x))
        then update task (DownloadTask.set_destination (Some (download_directory settings)))
        else mret ()) ;;
       DatabaseManager.save_download task ;;
       x ← deref task;
       with_lock ManagerLock
         (modify (λ w, World.set_all_downloads
                         (<[DownloadTask.id x := task]> (World.all_downloads w)) w)) ;;
       (if Py.truthy_float scheduled_time then
          now ← time_time;
          if Py.lt (Py.Finite now) (default (Py.Finite 0) scheduled_time) then
            DownloadScheduler.schedule_download task ;;
            update task (DownloadTask.set_status QUEUED)
          else DownloadManager._queue_download task
        else DownloadManager._queue_download task) ;;
       DownloadManager._notify_status_callbacks task ;;
       mret task) [] w4 (λ _ _, True)).
  { intros w4 Ha4.
    apply returns_bind, (returns_deref_alive task); [done|]. intros x.
    apply returns_bind.
    assert (Hsave : ∀ w5, alive task w5 →
      returns
        (DatabaseManager.save_download task ;;
         x ← deref task;
         with_lock ManagerLock
           (modify (λ w, World.set_all_downloads
                           (<[DownloadTask.id x := task]> (World.all_downloads w)) w)) ;;
         (if Py.truthy_float scheduled_time then
            now ← time_time;
            if Py.lt (Py.Finite now) (default (Py.Finite 0) scheduled_time) then
              DownloadScheduler.schedule_download task ;;
              update task (DownloadTask.set_status QUEUED)
            else DownloadManager._queue_download task
          else DownloadManager._queue_download task) ;;
         DownloadManager._notify_status_callbacks task ;;
         mret task) [] w5 (λ _ _, True)).
    { intros w5 Ha5.
      apply returns_bind, returns_save_download_alive; [done | not_held |]. intros b w6 Ha6.
      apply returns_bind, (returns_deref_alive task); [done|]. intros x'.
      apply returns_bind, returns_with_lock; [not_held|]. apply returns_modify.
      match goal with |- returns _ _ ?w7 _ =>
        assert (Ha7 : alive task w7) by done; generalize dependent w7 end.
      intros w7 Ha7. apply returns_bind.
      assert (Hlast : ∀ w8, alive task w8 →
        returns (DownloadManager._notify_status_callbacks task ;; mret task) [] w8
          (λ _ _, True)).
      { intros w8 Ha8. by apply returns_bind, returns_notify_status_callbacks_alive. }
      assert (Hqueue : ∀ w8, alive task w8 →
        returns (DownloadManager._queue_download task) [] w8
          (λ _ w9, returns (DownloadManager._notify_status_callbacks task ;; mret task)
                     [] w9 (λ _ _, True))).
      { intros w8 Ha8. apply returns_queue_download; [done | not_held | done]. }
      destruct (Py.truthy_float scheduled_time); [|by apply Hqueue].
      apply returns_bind, returns_time_time.
      destruct (Py.lt _ _); [|by apply Hqueue].
      apply returns_bind, returns_schedule_download; [done | not_held |]. intros b' w8 Ha8.
      apply (returns_update_alive task); [done|]. done. }
    destruct (negb _).
    - apply (returns_update_alive task); [done|]. done.
    - by apply returns_ret, Hsave. }
  destruct (enable_video_detection settings); [|by apply returns_ret, Hrest].
  destruct (detect_video url) as [video_info|]; [|by apply returns_ret, Hrest].
  apply returns_bind, (returns_update_alive task); [done|]. intros w4 Ha4.
  apply returns_bind, (returns_update_alive task); [done|]. intros w5 Ha5.
  destruct (Py.truthy_str _).
  - apply (returns_update_alive task); [done|]. done.
  - by apply returns_ret, Hrest.
Qed.

(** C6. For every URL that [validators.url] accepts: the body of
    [add_download] raises "URL already exists in downloads", in an
    unchanged state, if and only if some task of the registry has that
    URL and a status other than Completed and Cancelled; [add_download]
    then returns [None] and the state is the one it started from (no task
    object, no database row, no queue or schedule entry is added); and
    when there is no such task [add_download] returns a task. *)
Theorem add_download_duplicate (w : World.t) (url : string)
    (filename destination : option string) (scheduled_time : option Py.float)
    (priority : Z) :
  validators_url url = true →
  (run (DownloadManager.add_download_body url filename destination scheduled_time priority) w
     = Raises "URL already exists in downloads" w
   ↔ has_live_download w url) ∧
  (has_live_download w url →
   run (DownloadManager.add_download url filename destination scheduled_time priority) w
     = Returns None w) ∧
  (¬ has_live_download w url →
   ∃ task w',
     run (DownloadManager.add_download url filename destination scheduled_time priority) w
       = Returns (Some task) w').
Proof.
  intros Hvalid.
  pose proof (is_duplicate_url_spec url w) as Hspec.
  pose proof (returns_add_download_rest url filename destination scheduled_time priority w)
    as Hrest.
  apply returns_inv in Hrest as (task & w' & Hrest & _).
  pose proof (is_duplicate_url_run url w) as Hrun. unfold run in Hrun.
  unfold DownloadManager.add_download, try_except, run.
  rewrite (bind_run (DownloadManager.add_download_body _ _ _ _ _)).
  unfold DownloadManager.add_download_body. rewrite Hvalid. cbn [negb].
  rewrite !bind_run, !ret_run. cbv beta iota.
  rewrite !bind_run, !Hrun. cbv beta iota.
  rewrite !bind_run.
  destruct (existsb _ _) eqn:Hdup.
  - rewrite !raise_run, !ret_run.
    split_and!.
    + split; [intros _; by apply Hspec | done].
    + done.
    + intros Hno. destruct Hno. by apply Hspec.
  - rewrite !ret_run. cbv beta iota. rewrite !Hrest, !ret_run.
    split_and!.
    + split; [done|]. intros Hyes. apply Hspec in Hyes. congruence.
    + intros Hyes. apply Hspec in Hyes. congruence.
    + intros _. by exists task, w'.
Qed.

End add_facts.


(** Adding twice the URL of a download that is still pending. *)
Lemma add_download_duplicate_witness :
  let w := World.set_all_downloads {[ "0123456789ab"%string := 0%nat ]}
             (world_with (example_task "http://example.com/file.bin" "file.bin")) in
  run (@DownloadManager.add_download example_externals "http://example.com/file.bin"
         None None None 0) w = Returns None w.
Proof.
  intros w.
  apply (@add_download_duplicate example_externals w "http://example.com/file.bin"
           None None None 0%Z eq_refl).
  exists "0123456789ab"%string, 0%nat, (example_task "http://example.com/file.bin" "file.bin").
  split_and!; [reflexivity | reflexivity | reflexivity | discriminate | discriminate].
Defined.

(** ** Resuming a part, and merging the parts *)

Section resume_facts.
Context {env : Externals}.
Local Open Scope Z_scope.

(** With more than one part, the request of a part that is not complete
    carries a [Range] header that starts after the bytes already there. *)
Lemma request_of_many_parts x part :
  DownloadTask.supports_range_requests x = true →
  (1 < length (DownloadTask.parts x))%nat →
  DownloadPart.start_byte part + DownloadPart.downloaded_bytes part ≤ DownloadPart.end_byte part →
  DownloadEngine.request_of x part
  = Some (Some (DownloadPart.start_byte part + DownloadPart.downloaded_bytes part,
                DownloadPart.end_byte part)).
Proof.
  intros Hsr Hlen Hle. unfold DownloadEngine.request_of. rewrite Hsr.
  destruct (Z.ltb_spec (DownloadPart.end_byte part)
              (DownloadPart.start_byte part + DownloadPart.downloaded_bytes part)); [lia|].
  destruct (Z.ltb_spec 1 (Z.of_nat (length (DownloadTask.parts x)))); [done | lia].
Qed.

(** With exactly one part, the request of a part that is not complete
    carries no [Range] header, whatever was downloaded of it, and although
    the task supports range requests. *)
Lemma request_of_one_part (x : DownloadTask.t) (part : DownloadPart.t) :
  DownloadTask.parts x = [part] →
  DownloadPart.start_byte part + DownloadPart.downloaded_bytes part ≤ DownloadPart.end_byte part →
  DownloadEngine.request_of x part = Some None.
Proof.
  intros Hparts Hle. unfold DownloadEngine.request_of. rewrite Hparts.
  destruct (Z.ltb_spec (DownloadPart.end_byte part)
              (DownloadPart.start_byte part + DownloadPart.downloaded_bytes part)); [lia|].
  by rewrite andb_false_r.
Qed.

Lemma same_requests_refl w : same_requests w w.
Proof. done. Qed.

Lemma same_requests_trans w1 w2 w3 :
  same_requests w1 w2 → same_requests w2 w3 → same_requests w1 w3.
Proof. unfold same_requests. congruence. Qed.

(** Steps that send no request, however they end. *)
Ltac no_request :=
  framing same_requests_refl same_requests_trans
    ltac:(repeat (match goal with
                  | |- context [match ?x with _ => _ end] => destruct x
                  end);
          reflexivity).

Lemma no_request_on_progress_update task held :
  DatabaseLock ∉ held → frames same_requests (DownloadManager._on_progress_update task) held.
Proof.
  intros Hd. unfold DownloadManager._on_progress_update. no_request.
Qed.

Lemma no_request_update_overall_progress task held :
  EngineLock ∉ held → DatabaseLock ∉ held →
  frames same_requests
    (DownloadEngine._update_overall_progress DownloadManager._on_progress_update task) held.
Proof.
  intros He Hd. unfold DownloadEngine._update_overall_progress.
  no_request.
Qed.

Lemma sends_frames {A} (m : M A) held w requests :
  frames same_requests m held → sent requests w w → sends requests m held w.
Proof.
  intros Hm Hw. apply (outcome_frames same_requests _ _ _ _ _ Hm);
    unfold same_requests, sent in *; intros; congruence.
Qed.

Lemma sent_same requests w w1 w2 :
  sent requests w w1 → same_requests w1 w2 → sent requests w w2.
Proof. unfold sent, same_requests. congruence. Qed.

Lemma same_sent requests w w1 w2 :
  same_requests w w1 → sent requests w1 w2 → sent requests w w2.
Proof. unfold sent, same_requests. congruence. Qed.

(** A step that sends [requests], followed by steps that send nothing. *)
Lemma sends_bind_l {A B} (m : M A) (f : A → M B) held w requests :
  sends requests m held w → (∀ a, frames same_requests (f a) held) →
  sends requests (m ≫= f) held w.
Proof.
  intros Hm Hf. apply outcome_bind. apply (outcome_mono m held w _ _ _ _ Hm); [|done].
  intros a w1 Hw1. apply (outcome_frames same_requests _ _ _ _ _ (Hf a));
    intros; by eapply sent_same.
Qed.

(** A step that returns and sends nothing, followed by a step that sends
    [requests]. *)
Lemma sends_bind_r {A B} (m : M A) (f : A → M B) held w requests :
  returns m held w (λ _ w1, same_requests w w1) → (∀ a w1, sends requests (f a) held w1) →
  sends requests (m ≫= f) held w.
Proof.
  intros Hm Hf. apply outcome_bind. apply outcome_returns.
  apply (returns_mono _ _ _ _ _ Hm).
  intros a w1 Hw1. apply (outcome_mono _ _ _ _ _ _ _ (Hf a w1)); intros; by eapply same_sent.
Qed.

Lemma sends_try_except {A} (body : M A) handler held w requests :
  sends requests body held w → (∀ e, frames same_requests (handler e) held) →
  sends requests (try_except body handler) held w.
Proof.
  intros Hb Hh. apply outcome_try_except. apply (outcome_mono _ _ _ _ _ _ _ Hb); [done|].
  intros w1 Hw1 e. apply (outcome_frames same_requests _ _ _ _ _ (Hh e));
    intros; by eapply sent_same.
Qed.

Lemma sends_send request held w : sends [request] (HTTPClient.send request) held w.
Proof. done. Qed.

Lemma no_request_stream body (callback : Z → M unit) held :
  (∀ n, frames same_requests (callback n) held) →
  frames same_requests (HTTPClient.stream body callback) held.
Proof. intros Hcb. unfold HTTPClient.stream. no_request. apply Hcb. Qed.

(** [download_full] sends one [GET] without a [Range] header, whatever
    the progress callback does short of sending requests itself, and
    whether the transfer succeeds or not. *)
Lemma sends_download_full url (callback : Z → M unit) held w :
  (∀ n, frames same_requests (callback n) held) →
  sends [GET url None] (HTTPClient.download_full url callback) held w.
Proof.
  intros Hcb. unfold HTTPClient.download_full.
  apply sends_bind_l; [apply sends_send|]. intros _.
  destruct (http_get url None); [by apply no_request_stream | no_request].
Qed.

(** [download_range] sends one [GET] with the [Range] header it was
    asked for. *)
Lemma sends_download_range url start_byte end_byte (callback : Z → M unit) held w :
  (∀ n, frames same_requests (callback n) held) →
  sends [GET url (Some (start_byte, end_byte))]
    (HTTPClient.download_range url start_byte end_byte callback) held w.
Proof.
  intros Hcb. unfold HTTPClient.download_range.
  apply sends_bind_l; [apply sends_send|]. intros _.
  destruct (http_get url (Some (start_byte, end_byte))); [by apply no_request_stream | no_request].
Qed.

(** The requests of a run of [_download_part] are given by [request_of]:
    the worker of a part sends the request [request_of] says, if any, and
    no other, however the run ends; and it ends. *)
Lemma download_part_sends task i x part w :
  World.objects w !! task = Some x →
  DownloadTask.parts x !! i = Some part →
  sends (match DownloadEngine.request_of x part with
         | Some range => [GET (DownloadTask.url x) range]
         | None => []
         end)
    (DownloadEngine._download_part DownloadManager._on_progress_update task i) [] w.
Proof.
  intros Hx Hpart. unfold DownloadEngine._download_part.
  unfold sends. apply outcome_bind. unfold outcome at 1, deref. rewrite Hx, Hpart.
  assert (∀ n resume, frames same_requests
            (stopped ← DownloadEngine.stop_event (DownloadTask.id x);
             if stopped : bool then raise "Download cancelled"
             else
               DownloadEngine.update_part task i
                 (DownloadPart.set_downloaded_bytes (resume + n)) ;;
               DownloadEngine._update_overall_progress
                 DownloadManager._on_progress_update task) []) as Hcb.
  { intros n resume. unfold DownloadEngine.stop_event, DownloadEngine.update_part.
    no_request; apply no_request_update_overall_progress; lock_free. }
  apply sends_try_except.
  - destruct (DownloadEngine.request_of x part) as [range|].
    + apply sends_bind_r; [by apply returns_update|].
      intros _ w1. apply sends_bind_l.
      * destruct range as [[start_byte end_byte]|];
          [apply sends_download_range | apply sends_download_full]; intros n; apply Hcb.
      * intros data. unfold DownloadEngine.update_part, FileManager.append_to_temp_file.
        no_request.
    + apply sends_frames; [|unfold sent; by rewrite app_nil_r].
      unfold DownloadEngine.update_part. no_request.
  - intros e. unfold DownloadEngine.stop_event, DownloadEngine.update_part. no_request.
Qed.

(** C2, resume offset. For every task that supports range requests and
    has exactly one part, of which some bytes, but not all, are
    downloaded: the worker of that part ([_download_part], as
    [resume_download] starts it) sends one request, a [GET] of the task's
    URL with no [Range] header, and no other; it does not ask for the
    bytes from [start_byte + downloaded_bytes]. *)
Theorem download_part_single_part_request (w : World.t) (task : nat)
    (x : DownloadTask.t) (part : DownloadPart.t) :
  World.objects w !! task = Some x →
  DownloadTask.supports_range_requests x = true →
  DownloadTask.parts x = [part] →
  DownloadPart.downloaded_bytes part ≠ 0 →
  DownloadPart.start_byte part + DownloadPart.downloaded_bytes part ≤ DownloadPart.end_byte part →
  sends [GET (DownloadTask.url x) None]
    (DownloadEngine._download_part DownloadManager._on_progress_update task 0) [] w.
Proof.
  intros Hx _ Hparts _ Hle.
  pose proof (download_part_sends task 0 x part w Hx) as Hsends.
  rewrite Hparts in Hsends. specialize (Hsends eq_refl).
  by rewrite (request_of_one_part x part Hparts Hle) in Hsends.
Qed.

End resume_facts.

Section merge_facts.
Context {env : Externals}.
Local Open Scope Z_scope.

Lemma keeps_names_refl final w : keeps_names final w w.
Proof. split; [apply union_subseteq_l | done]. Qed.

Lemma keeps_names_trans final w1 w2 w3 :
  keeps_names final w1 w2 → keeps_names final w2 w3 → keeps_names final w1 w3.
Proof.
  intros [Hf12 Hn12] [Hf23 Hn23]. split.
  - intros p Hp. apply Hf23 in Hp. apply elem_of_union in Hp as [Hp|Hp].
    + by apply Hf12.
    + apply elem_of_union. by right.
  - intros r. by rewrite Hn23.
Qed.

Lemma keeps_names_write final content w :
  keeps_names final w (World.set_files (<[final := content]> (World.files w)) w).
Proof.
  split; [|done]. cbn. rewrite dom_insert. intros p Hp.
  apply elem_of_union in Hp as [Hp|Hp]; apply elem_of_union; [by right | by left].
Qed.

Lemma keeps_names_delete final path w :
  keeps_names final w (World.set_files (delete path (World.files w)) w).
Proof.
  split; [|done]. cbn. rewrite dom_delete. intros p Hp.
  apply elem_of_difference in Hp as [Hp _]. apply elem_of_union. by left.
Qed.

Lemma keeps_names_update final r f w :
  (∀ x, DownloadTask.filename (f x) = DownloadTask.filename x) →
  keeps_names final w (World.set_objects (alter f r (World.objects w)) w).
Proof.
  intros Hf. split; [apply union_subseteq_l|]. intros r'. cbn.
  destruct (decide (r = r')) as [->|Hne].
  - rewrite lookup_alter_eq. destruct (World.objects w !! r'); cbn; [by rewrite Hf | done].
  - by rewrite lookup_alter_ne.
Qed.

Lemma keeps_names_other final w w' :
  World.files w' = World.files w → World.objects w' = World.objects w →
  keeps_names final w w'.
Proof. intros Hf Ho. unfold keeps_names. rewrite Hf, Ho. apply keeps_names_refl. Qed.

(** Steps that make no file of a new name, but possibly [final], and
    rename no task. *)
Ltac no_new_name final :=
  framing (keeps_names_refl final) (keeps_names_trans final)
    ltac:(first [ apply keeps_names_write
                | apply keeps_names_delete
                | apply keeps_names_update; intros []; reflexivity
                | apply keeps_names_other; reflexivity ]).

Lemma no_new_name_merge_copy final temp_files held :
  frames (keeps_names final) (FileManager.merge_copy temp_files final) held.
Proof.
  induction temp_files as [|temp_file_path rest IH]; cbn [FileManager.merge_copy];
    unfold FileManager.exists_; no_new_name final.
Qed.

Lemma no_new_name_merge_temp_files final temp_files held :
  FileManagerLock ∉ held →
  frames (keeps_names final) (FileManager.merge_temp_files temp_files final) held.
Proof.
  intros Hl. unfold FileManager.merge_temp_files, FileManager.exists_.
  pose proof (no_new_name_merge_copy final temp_files (FileManagerLock :: held)).
  no_new_name final.
Qed.

Lemma no_new_name_on_status_change final task held :
  DatabaseLock ∉ held → ManagerLock ∉ held →
  frames (keeps_names final) (DownloadManager._on_status_change task) held.
Proof.
  intros Hd Hm. unfold DownloadManager._on_status_change. no_new_name final.
Qed.

(** Completing a download whose task has a destination: the merged bytes
    go to [destination/filename] and nowhere else. The run returns; no
    file appears under another name, whether [destination/filename]
    exists already or not; and the task keeps its file name. *)
Lemma complete_download_keeps_names w task x destination :
  World.objects w !! task = Some x →
  DownloadTask.destination x = Some destination →
  destination ≠ ""%string →
  returns (DownloadEngine._complete_download DownloadManager._on_status_change task) [] w
    (λ _ w', keeps_names (FileManager.path_join destination (DownloadTask.filename x)) w w').
Proof.
  intros Hx Hdest Hne.
  set (final := FileManager.path_join destination (DownloadTask.filename x)).
  assert (outcome (DownloadEngine._complete_download DownloadManager._on_status_change task)
            [] w (λ _ w', keeps_names final w w') (λ _, False)) as Hout.
  2: { unfold outcome, returns in *.
       by destruct (DownloadEngine._complete_download _ task [] w). }
  unfold DownloadEngine._complete_download. apply outcome_try_except.
  assert (∀ e w1, keeps_names final w w1 →
            outcome (update task (DownloadTask.error e)) [] w1
              (λ _ w', keeps_names final w w') (λ _, False)) as Hhandler.
  { intros e w1 Hw1. unfold outcome. cbn.
    apply (keeps_names_trans final _ _ _ Hw1). by apply keeps_names_update; intros []. }
  match goal with
  | |- outcome ?body _ _ _ _ =>
      cut (outcome body [] w (λ _ w', keeps_names final w w') (λ w', keeps_names final w w'))
  end.
  { intros Hbody. apply (outcome_mono _ _ _ _ _ _ _ Hbody); [done|].
    intros w1 Hw1 e. by apply Hhandler. }
  apply outcome_bind. unfold outcome at 1, deref. rewrite Hx.
  apply outcome_bind. unfold outcome at 1, gets.
  match goal with |- outcome (if ?b then _ else _) _ _ _ _ => destruct b end.
  { apply (outcome_frames (keeps_names final)); [|done..].
    no_new_name final. }
  rewrite Hdest. cbn [Py.truthy_str].
  assert (String.eqb destination "" = false) as -> by by apply String.eqb_neq.
  cbn [negb]. apply outcome_bind. unfold outcome at 1. rewrite ret_run.
  apply outcome_bind. unfold outcome at 1, deref. rewrite Hx, Hdest. cbn [default].
  fold final.
  apply (outcome_frames (keeps_names final)); [|done..].
  pose proof (no_new_name_merge_temp_files final) as Hmerge.
  pose proof (no_new_name_on_status_change final task []) as Hstatus.
  apply (frames_bind _ (keeps_names_trans final)); [apply Hmerge; lock_free|].
  intros merged. unfold FileManager.verify_file_integrity, FileManager.exists_,
    FileManager.get_file_size, FileManager.cleanup_temp_files,
    DownloadEngine._notify_status_change.
  no_new_name final.
Qed.

Lemma keeps_final_refl final w : keeps_final final w w.
Proof. split; [apply keeps_names_refl | done]. Qed.

Lemma keeps_final_trans final w1 w2 w3 :
  keeps_final final w1 w2 → keeps_final final w2 w3 → keeps_final final w1 w3.
Proof.
  intros [Hn12 Hf12] [Hn23 Hf23]. split; [by eapply keeps_names_trans | congruence].
Qed.

Lemma keeps_final_delete final path w :
  path ≠ final →
  keeps_final final w (World.set_files (delete path (World.files w)) w).
Proof. intros Hne. split; [apply keeps_names_delete | cbn; by rewrite lookup_delete_ne]. Qed.

Lemma keeps_final_update final r f w :
  (∀ x, DownloadTask.filename (f x) = DownloadTask.filename x) →
  keeps_final final w (World.set_objects (alter f r (World.objects w)) w).
Proof. intros Hf. split; [by apply keeps_names_update | done]. Qed.

Lemma keeps_final_other final w w' :
  World.files w' = World.files w → World.objects w' = World.objects w →
  keeps_final final w w'.
Proof. intros Hf Ho. split; [by apply keeps_names_other | by rewrite Hf]. Qed.

(** Steps that leave the file [final] as it is, make no file of a new
    name and rename no task. *)
Ltac final_kept final :=
  framing (keeps_final_refl final) (keeps_final_trans final)
    ltac:(first [ apply keeps_final_update; intros []; reflexivity
                | apply keeps_final_other; reflexivity ]).

Lemma final_kept_cleanup_temp_files final temp_files held :
  final ∉ temp_files →
  frames (keeps_final final) (FileManager.cleanup_temp_files temp_files) held.
Proof.
  unfold FileManager.cleanup_temp_files.
  induction temp_files as [|path rest IH]; intros Hnotin; cbn [for_each].
  - apply (frames_ret _ (keeps_final_refl final)).
  - apply not_elem_of_cons in Hnotin as [Hne Hnotin].
    apply (frames_bind _ (keeps_final_trans final)); [|intros _; by apply IH].
    apply frames_modify. intros w. by apply keeps_final_delete.
Qed.

Lemma final_kept_on_status_change final task held :
  DatabaseLock ∉ held → ManagerLock ∉ held →
  frames (keeps_final final) (DownloadManager._on_status_change task) held.
Proof.
  intros Hd Hm. unfold DownloadManager._on_status_change. final_kept final.
Qed.

Lemma merged_bytes_insert final content temp_files files :
  final ∉ temp_files →
  merged_bytes temp_files (<[final := content]> files) = merged_bytes temp_files files.
Proof.
  unfold merged_bytes. induction temp_files as [|path rest IH]; intros Hnotin; [done|].
  apply not_elem_of_cons in Hnotin as [Hne Hnotin]. cbn.
  by rewrite lookup_insert_ne, IH.
Qed.

(** The loop of [merge_temp_files] appends the bytes of the temporary
    files, all of which exist, to the output file. *)
Lemma merge_copy_returns temp_files final held w written :
  final ∉ temp_files →
  Forall (λ path, is_Some (World.files w !! path)) temp_files →
  World.files w !! final = Some written →
  returns (FileManager.merge_copy temp_files final) held w
    (λ _ w', World.files w'
             = <[final := written ++ merged_bytes temp_files (World.files w)]> (World.files w)
             ∧ World.objects w' = World.objects w).
Proof.
  revert w written. induction temp_files as [|path rest IH]; intros w written Hnotin Hall Hfinal.
  - cbn. split; [|done]. unfold merged_bytes. cbn. by rewrite app_nil_r, insert_id.
  - apply not_elem_of_cons in Hnotin as [Hne Hnotin].
    apply Forall_cons in Hall as [Hpath Hall]. cbn [FileManager.merge_copy].
    apply returns_bind. unfold FileManager.exists_. apply returns_gets.
    rewrite (bool_decide_eq_true_2 _ Hpath).
    apply returns_bind, returns_modify. rewrite Hfinal. cbn [default].
    eapply returns_mono.
    + apply (IH _ (written ++ default [] (World.files w !! path)) Hnotin).
      * cbn. eapply Forall_impl; [apply Forall_and; split; [apply Hall|]|].
        -- apply Forall_forall. intros p Hp. exact Hp.
        -- cbn. intros p [Hp Hin]. rewrite lookup_insert_ne; [done|].
           by intros <-.
      * cbn. by rewrite lookup_insert_eq.
    + cbn. intros _ w' [-> ->]. split; [|done].
      rewrite insert_insert_eq, merged_bytes_insert by done.
      unfold merged_bytes. cbn. by rewrite <- app_assoc.
Qed.

(** [merge_temp_files] returns [True] when the temporary files exist: the
    output file then holds their bytes and nothing of what it held. *)
Lemma merge_temp_files_returns temp_files final held w :
  FileManagerLock ∉ held →
  final ∉ temp_files →
  Forall (λ path, is_Some (World.files w !! path)) temp_files →
  returns (FileManager.merge_temp_files temp_files final) held w
    (λ merged w', merged = true
                  ∧ World.files w' = <[final := merged_bytes temp_files (World.files w)]> (World.files w)
                  ∧ World.objects w' = World.objects w).
Proof.
  intros Hl Hnotin Hall. unfold FileManager.merge_temp_files.
  apply returns_try_except, returns_with_lock; [done|].
  apply returns_bind, returns_modify. apply returns_bind.
  eapply returns_mono.
  - apply (merge_copy_returns _ _ _ _ [] Hnotin).
    + cbn. eapply Forall_impl; [apply Forall_and; split; [apply Hall|]|].
      * apply Forall_forall. intros p Hp. exact Hp.
      * cbn. intros p [Hp Hin]. rewrite lookup_insert_ne; [done|].
        by intros <-.
    + cbn. by rewrite lookup_insert_eq.
  - cbn. intros _ w' [Hfiles Hobjects].
    rewrite insert_insert_eq, merged_bytes_insert in Hfiles by done.
    apply returns_bind. unfold FileManager.exists_.
    apply returns_gets. rewrite Hfiles, lookup_insert_eq.
    rewrite bool_decide_eq_true_2 by done. by apply returns_ret.
Qed.

Lemma existing_temp_files_exist x files :
  Forall (λ path, is_Some (files !! path)) (DownloadEngine.existing_temp_files x files).
Proof.
  unfold DownloadEngine.existing_temp_files. apply Forall_forall. intros path Hin.
  apply list_elem_of_omap in Hin as (part & _ & Hpart).
  destruct (DownloadPart.temp_file_path part) as [path'|]; [|done].
  destruct (Py.truthy_str (Some path')); [|done]. cbn in Hpart.
  destruct (bool_decide_reflect (is_Some (files !! path'))); by simplify_eq.
Qed.

(** C5, file name collision at merge time. For every task with a
    destination, such that a file exists already at
    [destination/filename] and the task has temporary files to merge
    (none of them that very file): [_complete_download] returns, and
    afterwards the file at [destination/filename] holds the merged bytes
    of the temporary files, so what was there is overwritten; no file
    exists under a name that was not there before, so none was made at
    [<stem> (1)<ext>] or any other free name; and the task has the file
    name it had. *)
Theorem complete_download_overwrites (w : World.t) (task : nat) (x : DownloadTask.t)
    (destination : string) (existing : list Byte.byte) :
  World.objects w !! task = Some x →
  DownloadTask.destination x = Some destination →
  destination ≠ ""%string →
  World.files w !! FileManager.path_join destination (DownloadTask.filename x) = Some existing →
  DownloadEngine.existing_temp_files x (World.files w) ≠ [] →
  FileManager.path_join destination (DownloadTask.filename x)
    ∉ DownloadEngine.existing_temp_files x (World.files w) →
  returns (DownloadEngine._complete_download DownloadManager._on_status_change task) [] w
    (λ _ w',
       World.files w' !! FileManager.path_join destination (DownloadTask.filename x)
       = Some (merged_bytes (DownloadEngine.existing_temp_files x (World.files w)) (World.files w))
       ∧ dom (World.files w') ⊆ dom (World.files w)
       ∧ DownloadTask.filename <$> World.objects w' !! task = Some (DownloadTask.filename x)).
Proof.
  intros Hx Hdest Hne Hexists Htemp Hnotin.
  set (final := FileManager.path_join destination (DownloadTask.filename x)) in *.
  set (temp_files := DownloadEngine.existing_temp_files x (World.files w)) in *.
  set (P := λ w' : World.t,
         World.files w' !! final = Some (merged_bytes temp_files (World.files w))
         ∧ keeps_names final w w').
  assert (outcome (DownloadEngine._complete_download DownloadManager._on_status_change task)
            [] w (λ _ w', P w') (λ _, False)) as Hout.
  2: { unfold outcome, returns in *.
       destruct (DownloadEngine._complete_download _ task [] w) as [[] w'| |]; [|done..].
       destruct Hout as [Hfinal [Hdom Hnames]]. split; [done|]. split.
       - intros p Hp. apply Hdom in Hp. apply elem_of_union in Hp as [Hp|Hp]; [done|].
         apply elem_of_singleton in Hp as ->. by apply elem_of_dom.
       - by rewrite Hnames, Hx. }
  assert (∀ w1 w2, P w1 → keeps_final final w1 w2 → P w2) as HP.
  { intros w1 w2 [Hfinal Hnames] [Hnames' Hfinal']. split; [congruence|].
    by eapply keeps_names_trans. }
  unfold DownloadEngine._complete_download. apply outcome_try_except.
  match goal with
  | |- outcome ?body _ _ _ _ => cut (outcome body [] w (λ _ w', P w') (λ w', P w'))
  end.
  { intros Hbody. apply (outcome_mono _ _ _ _ _ _ _ Hbody); [done|].
    intros w1 Hw1 e. unfold outcome. cbn. apply (HP w1); [done|].
    by apply keeps_final_update; intros []. }
  apply outcome_bind. unfold outcome at 1, deref. rewrite Hx.
  apply outcome_bind. unfold outcome at 1, gets. fold temp_files.
  rewrite (bool_decide_eq_false_2 _ Htemp).
  rewrite Hdest. cbn [Py.truthy_str].
  assert (String.eqb destination "" = false) as -> by by apply String.eqb_neq.
  cbn [negb]. apply outcome_bind. unfold outcome at 1. rewrite ret_run.
  apply outcome_bind. unfold outcome at 1, deref. rewrite Hx, Hdest. cbn [default].
  fold final.
  apply outcome_bind, outcome_returns.
  eapply returns_mono.
  { apply (merge_temp_files_returns temp_files final [] w); [lock_free | done |].
    apply existing_temp_files_exist. }
  cbn beta. intros merged w1 (-> & Hfiles & Hobjects).
  assert (P w1) as HP1.
  { split; [by rewrite Hfiles, lookup_insert_eq|]. split.
    - rewrite Hfiles, dom_insert. intros p Hp.
      apply elem_of_union in Hp as [Hp|Hp]; apply elem_of_union; [by right | by left].
    - intros r. by rewrite Hobjects. }
  apply (outcome_frames (keeps_final final)); [|intros; by eapply HP..].
  pose proof (final_kept_cleanup_temp_files final temp_files [] Hnotin) as Hcleanup.
  unfold FileManager.verify_file_integrity, FileManager.exists_,
    FileManager.get_file_size, DownloadEngine._notify_status_change.
  final_kept final.
Qed.

End merge_facts.

Section engine_examples.
Local Open Scope Z_scope.

(** The failing input of C2: the one part, bytes 0 to 99, of a task that
    supports range requests has 50 bytes downloaded. *)
Lemma download_part_single_part_request_witness :
  sends [GET "http://example.com/file.bin" None]
    (@DownloadEngine._download_part example_externals
       (@DownloadManager._on_progress_update example_externals) 0%nat 0%nat)
    [] world_resuming.
Proof.
  apply (@download_part_single_part_request example_externals world_resuming 0%nat
           (one_part_task 50 PAUSED)
           (DownloadPart.mk 0 0 99 50 PAUSED (Some example_temp_path)));
    [reflexivity | reflexivity | reflexivity | discriminate | discriminate].
Defined.

(** Run on that input, the worker sends one [GET] without a [Range]
    header, appends the 100 bytes it receives to the 50 already in the
    temporary file, and records 150 bytes for a part of 100. *)
Lemma download_part_single_part_resume :
  ∃ w' x',
    run (@DownloadEngine._download_part example_externals
           (@DownloadManager._on_progress_update example_externals) 0%nat 0%nat)
      world_resuming = Returns () w' ∧
    World.requests_sent w' = [GET "http://example.com/file.bin" None] ∧
    length <$> World.files w' !! example_temp_path = Some 150%nat ∧
    World.objects w' !! 0%nat = Some x' ∧
    DownloadPart.downloaded_bytes <$> DownloadTask.parts x' = [150].
Proof.
  eexists _, _. split_and!; [vm_compute; reflexivity | reflexivity..].
Qed.

(** The failing input of C5: the part of a download is complete and
    [/home/user/Downloads/file.bin] exists already, with three bytes. *)
Lemma complete_download_overwrites_witness :
  returns (@DownloadEngine._complete_download example_externals
             (@DownloadManager._on_status_change example_externals) 0%nat)
    [] world_completing
    (λ _ w',
       World.files w' !! "/home/user/Downloads/file.bin"%string = Some example_body
       ∧ dom (World.files w') ⊆ dom (World.files world_completing)
       ∧ DownloadTask.filename <$> World.objects w' !! 0%nat = Some "file.bin"%string).
Proof.
  apply (@complete_download_overwrites example_externals world_completing 0%nat
           (one_part_task 100 COMPLETED) "/home/user/Downloads"
           [Byte.x01; Byte.x02; Byte.x03]);
    [reflexivity | reflexivity | discriminate | reflexivity | discriminate |].
  apply not_elem_of_cons. split; [discriminate | apply not_elem_of_nil].
Defined.

(** Run on that input, completing the download overwrites the file with
    the merged bytes; no [file (1).bin] is made, and the task keeps the
    name [file.bin] and is marked completed. *)
Lemma complete_download_example :
  ∃ w' x',
    run (@DownloadEngine._complete_download example_externals
           (@DownloadManager._on_status_change example_externals) 0%nat)
      world_completing = Returns () w' ∧
    World.files world_completing !! "/home/user/Downloads/file.bin"%string
      = Some [Byte.x01; Byte.x02; Byte.x03] ∧
    World.files w' !! "/home/user/Downloads/file.bin"%string = Some example_body ∧
    World.files w' !! "/home/user/Downloads/file (1).bin"%string = None ∧
    dom (World.files w') = {[ "/home/user/Downloads/file.bin"%string ]} ∧
    World.objects w' !! 0%nat = Some x' ∧
    DownloadTask.filename x' = "file.bin"%string ∧
    DownloadTask.status x' = COMPLETED.
Proof.
  eexists _, _. split_and!; [vm_compute; reflexivity | reflexivity..].
Qed.

(** On the same files, [_resolve_filename_conflict], which only
    [move_to_final_location] calls, gives the name the merge does not use. *)
Lemma resolve_filename_conflict_example :
  @FileManager._resolve_filename_conflict "/home/user/Downloads/file.bin"
    (World.files world_completing)
  = Some "/home/user/Downloads/file (1).bin"%string.
Proof. reflexivity. Qed.

End engine_examples.


(** ** The file manager *)

Section file_facts.
Context {env : Externals}.
Local Open Scope Z_scope.

Lemma length_append (x y : string) :
  String.length (x +:+ y) = (String.length x + String.length y)%nat.
Proof. induction x as [|c x IH]; simpl; [done | by rewrite IH]. Qed.

Lemma append_inj_r (a b s : string) : a +:+ s = b +:+ s → a = b.
Proof.
  revert b. induction a as [|c a IH]; intros [|d b] Heq.
  - done.
  - apply (f_equal String.length) in Heq. rewrite !length_append in Heq. simpl in Heq. lia.
  - apply (f_equal String.length) in Heq. rewrite !length_append in Heq. simpl in Heq. lia.
  - injection Heq as -> Heq. f_equal. by apply IH.
Qed.

Lemma numbered_path_inj directory base_name extension (j k : nat) :
  numbered_path directory base_name extension j = numbered_path directory base_name extension k →
  j = k.
Proof.
  unfold numbered_path. intros Heq.
  assert (base_name +:+ " (" +:+ pretty j +:+ ")" +:+ extension
          = base_name +:+ " (" +:+ pretty k +:+ ")" +:+ extension) as Hname.
  { destruct directory as [d|]; [|done].
    by apply (String.app_inj d), (String.app_inj "/") in Heq. }
  apply (String.app_inj base_name), (String.app_inj " (") in Hname.
  assert (pretty j +:+ (")" +:+ extension) = pretty k +:+ (")" +:+ extension)) as Hnum by done.
  apply append_inj_r in Hnum. by apply pretty_nat_inj in Hnum.
Qed.

(** The search of [_resolve_filename_conflict] stops at the first free
    numbered name. *)
Lemma resolve_from_Some bound directory base_name extension (counter : nat) files new_path :
  FileManager.resolve_from bound directory base_name extension counter files = Some new_path →
  ∃ k : nat, (counter ≤ k)%nat ∧ new_path = numbered_path directory base_name extension k ∧
             files !! new_path = None ∧
             ∀ j : nat, (counter ≤ j < k)%nat →
                        is_Some (files !! numbered_path directory base_name extension j).
Proof.
  revert counter. induction bound as [|bound IH]; intros counter; simpl; [done|].
  fold (numbered_path directory base_name extension counter).
  case_bool_decide as Hex.
  - intros Hres. apply IH in Hres as (k & Hk & -> & Hfree & Hbelow).
    exists k. split_and!; [lia | done | done |].
    intros j Hj. destruct (decide (j = counter)) as [->|]; [done|]. apply Hbelow. lia.
  - intros [= <-]. exists counter. split_and!; [done | done | | intros j; lia].
    by apply eq_None_not_Some.
Qed.

Lemma resolve_from_None bound directory base_name extension (counter : nat) files :
  FileManager.resolve_from bound directory base_name extension counter files = None →
  ∀ j : nat, (counter ≤ j < counter + bound)%nat →
             is_Some (files !! numbered_path directory base_name extension j).
Proof.
  revert counter. induction bound as [|bound IH]; intros counter; simpl; [intros _ j; lia|].
  fold (numbered_path directory base_name extension counter).
  case_bool_decide as Hex; [|done].
  intros Hres j Hj. destruct (decide (j = counter)) as [->|]; [done|].
  apply (IH _ Hres). lia.
Qed.

(** Among any [size files + 1] numbered names one is free: the search
    ends. *)
Lemma resolve_from_total directory base_name extension (counter : nat)
    (files : gmap string (list Byte.byte)) :
  is_Some (FileManager.resolve_from (S (size files)) directory base_name extension counter files).
Proof.
  destruct (FileManager.resolve_from _ _ _ _ _ _) as [p|] eqn:Hres; [done|].
  exfalso. pose proof (resolve_from_None _ _ _ _ _ _ Hres) as Hall.
  set (names := numbered_path directory base_name extension <$> seq counter (S (size files))).
  assert (NoDup names) as Hnodup.
  { apply NoDup_fmap_2; [|apply NoDup_seq]. intros j k. apply numbered_path_inj. }
  assert (list_to_set names ⊆@{gset string} dom files) as Hsub.
  { intros p Hp. apply elem_of_list_to_set, list_elem_of_fmap in Hp as (j & -> & Hj).
    apply elem_of_dom, Hall. apply elem_of_seq in Hj. lia. }
  apply subseteq_size in Hsub.
  rewrite size_list_to_set, size_dom in Hsub by done.
  unfold names in Hsub. rewrite length_fmap, length_seq in Hsub. lia.
Qed.

(** The path [_resolve_filename_conflict] gives is not in use. *)
Lemma resolve_filename_conflict_unused (file_path : string)
    (files : gmap string (list Byte.byte)) :
  ∃ new_path,
    FileManager._resolve_filename_conflict file_path files = Some new_path ∧
    files !! new_path = None.
Proof.
  unfold FileManager._resolve_filename_conflict.
  case_bool_decide as Hex; simpl.
  - destruct (FileManager.path_parent_name file_path) as [directory name].
    destruct (FileManager.stem_suffix name) as [base_name extension].
    destruct (resolve_from_total directory base_name extension 1 files) as [p Hp].
    exists p. split; [done|].
    by apply resolve_from_Some in Hp as (k & _ & _ & Hfree & _).
  - exists file_path. by apply eq_None_not_Some in Hex.
Qed.

(** X1. [_resolve_filename_conflict] always ends, with a path at which
    no file exists: the path it was given when that one is free, and
    otherwise the numbered name [<stem> (k)<suffix>], in the same
    directory, of the least [k ≥ 1] that is free. *)
Theorem resolve_filename_conflict_free (file_path : string)
    (files : gmap string (list Byte.byte)) :
  ∃ new_path,
    FileManager._resolve_filename_conflict file_path files = Some new_path ∧
    files !! new_path = None ∧
    (files !! file_path = None → new_path = file_path) ∧
    (is_Some (files !! file_path) →
     ∃ k : nat, (1 ≤ k)%nat ∧ new_path = numbered_path_of file_path k ∧
                ∀ j : nat, (1 ≤ j < k)%nat → is_Some (files !! numbered_path_of file_path j)).
Proof.
  unfold FileManager._resolve_filename_conflict, numbered_path_of.
  case_bool_decide as Hex; simpl.
  - destruct (FileManager.path_parent_name file_path) as [directory name].
    destruct (FileManager.stem_suffix name) as [base_name extension].
    destruct (resolve_from_total directory base_name extension 1 files) as [p Hp].
    exists p. split; [done|].
    apply resolve_from_Some in Hp as (k & Hk & -> & Hfree & Hbelow).
    split_and!; [done | | by exists k].
    intros Hnone. rewrite Hnone in Hex. by destruct Hex.
  - exists file_path. apply eq_None_not_Some in Hex. split_and!; [done..|].
    rewrite Hex. by intros [].
Qed.

Lemma move_to_final_location_run temp_path final_path held w :
  FileManager.move_to_final_location temp_path final_path held w
  = match FileManager._resolve_filename_conflict final_path (World.files w),
          World.files w !! temp_path with
    | Some new_path, Some content =>
        Returns true
          (World.set_files (<[new_path := content]> (delete temp_path (World.files w))) w)
    | _, _ => Raises "Failed to move file to final location" w
    end.
Proof.
  unfold FileManager.move_to_final_location. rewrite bind_run. unfold gets at 1.
  cbv beta iota delta [id].
  destruct (FileManager._resolve_filename_conflict _ _); [|done].
  by destruct (World.files w !! temp_path).
Qed.

(** X2. [move_to_final_location] never overwrites a file. When the
    temporary file exists the call returns [True]: its bytes are then at
    a path where no file was, the temporary file is gone, and every
    other file is as it was. When the temporary file does not exist the
    call raises and no file changes. *)
Theorem move_to_final_location_keeps_files (temp_path final_path : string)
    (held : list Lock) (w : World.t) :
  (∀ content, World.files w !! temp_path = Some content →
     ∃ new_path w',
       FileManager.move_to_final_location temp_path final_path held w = Returns true w' ∧
       FileManager._resolve_filename_conflict final_path (World.files w) = Some new_path ∧
       World.files w !! new_path = None ∧
       World.files w' !! new_path = Some content ∧
       World.files w' !! temp_path = None ∧
       (∀ path, path ≠ temp_path → path ≠ new_path →
                World.files w' !! path = World.files w !! path)) ∧
  (World.files w !! temp_path = None →
     FileManager.move_to_final_location temp_path final_path held w
     = Raises "Failed to move file to final location" w).
Proof.
  rewrite move_to_final_location_run.
  destruct (resolve_filename_conflict_unused final_path (World.files w))
    as (new_path & -> & Hfree). split.
  - intros content Htemp. eexists new_path, _. rewrite Htemp. split; [reflexivity|].
    assert (new_path ≠ temp_path) as Hne by (intros ->; congruence).
    cbn. split_and!; [done | done | by rewrite lookup_insert_eq | |].
    + by rewrite lookup_insert_ne, lookup_delete_eq.
    + intros path Htemp' Hnew. by rewrite lookup_insert_ne, lookup_delete_ne.
  - by intros ->.
Qed.

Lemma cleanup_temp_files_run temp_files held w :
  FileManager.cleanup_temp_files temp_files held w
  = Returns () (World.set_files (foldl (λ files path, delete path files) (World.files w) temp_files) w).
Proof.
  unfold FileManager.cleanup_temp_files. revert w.
  induction temp_files as [|path rest IH]; intros w; cbn [for_each foldl].
  - rewrite ret_run. by destruct w.
  - rewrite bind_run. unfold modify at 1. rewrite IH. by destruct w.
Qed.

Lemma lookup_foldl_delete {V} (paths : list string) (files : gmap string V) path :
  foldl (λ files path, delete path files) files paths !! path
  = if bool_decide (path ∈ paths) then None else files !! path.
Proof.
  revert files. induction paths as [|p rest IH]; intros files; cbn [foldl]; [done|].
  rewrite IH. destruct (decide (path = p)) as [->|Hne].
  - rewrite lookup_delete_eq, (bool_decide_eq_true_2 (p ∈ p :: rest)) by apply list_elem_of_here.
    by case_bool_decide.
  - rewrite lookup_delete_ne by done.
    rewrite (bool_decide_ext (path ∈ p :: rest) (path ∈ rest)); [done|].
    rewrite elem_of_cons. split; [by intros [?|?] | by right].
Qed.

(** X3. [cleanup_temp_files] returns, whatever it is given: afterwards
    no file exists at any of the paths, a path at which no file was is
    passed over, and every other file is as it was. *)
Theorem cleanup_temp_files_removes (temp_files : list string) (held : list Lock) (w : World.t) :
  ∃ w',
    FileManager.cleanup_temp_files temp_files held w = Returns () w' ∧
    (∀ path, World.files w' !! path
             = if bool_decide (path ∈ temp_files) then None else World.files w !! path) ∧
    World.objects w' = World.objects w.
Proof.
  rewrite cleanup_temp_files_run. eexists. split; [done|]. split; [|done].
  intros path. cbn. apply lookup_foldl_delete.
Qed.

(** X4. [append_to_temp_file] returns the number of bytes it was given
    and the file grows by as many, the bytes coming after those it held;
    a file that did not exist is created ([get_file_size] counts it as
    0 bytes); no other file changes. *)
Theorem append_to_temp_file_grows (temp_file_path : string) (data : list Byte.byte)
    (held : list Lock) (w : World.t) :
  ∃ size w',
    FileManager.get_file_size temp_file_path held w = Returns size w ∧
    FileManager.append_to_temp_file temp_file_path data held w
      = Returns (Z.of_nat (length data)) w' ∧
    World.files w' !! temp_file_path
      = Some (default [] (World.files w !! temp_file_path) ++ data) ∧
    FileManager.get_file_size temp_file_path held w'
      = Returns (size + Z.of_nat (length data)) w' ∧
    (∀ path, path ≠ temp_file_path → World.files w' !! path = World.files w !! path).
Proof.
  unfold FileManager.get_file_size, FileManager.append_to_temp_file, gets.
  eexists _, _. split; [reflexivity|]. split; [reflexivity|]. cbn.
  rewrite lookup_insert_eq. split_and!; [done | |].
  - f_equal. rewrite length_app. destruct (World.files w !! temp_file_path); simpl; lia.
  - intros path Hne. by rewrite lookup_insert_ne.
Qed.

Lemma prefix_slash_append (s x y : string) :
  String.prefix "/" (s +:+ "_part_" +:+ x) = String.prefix "/" (s +:+ "_part_" +:+ y).
Proof.
  destruct s as [|c s]; [reflexivity|].
  change (String.prefix "/" (String c (s +:+ "_part_" +:+ x))
          = String.prefix "/" (String c (s +:+ "_part_" +:+ y))).
  cbn [String.prefix]. destruct (ascii_dec "/" c); [|done].
  assert (∀ t, String.prefix "" t = true) as Hempty by (by intros []).
  by rewrite !Hempty.
Qed.

Lemma path_join_inj_part directory (s x y : string) :
  FileManager.path_join directory (s +:+ "_part_" +:+ x +:+ ".tmp")
  = FileManager.path_join directory (s +:+ "_part_" +:+ y +:+ ".tmp") → x = y.
Proof.
  unfold FileManager.path_join.
  rewrite (prefix_slash_append s (x +:+ ".tmp") (y +:+ ".tmp")).
  assert (s +:+ "_part_" +:+ x +:+ ".tmp" = s +:+ "_part_" +:+ y +:+ ".tmp" → x = y) as Hinj.
  { intros Heq. apply (String.app_inj s), (String.app_inj "_part_") in Heq.
    by apply append_inj_r in Heq. }
  destruct (String.prefix _ _); [done|].
  destruct (String.eqb directory ""); [done|].
  intros Heq. apply Hinj. by apply (String.app_inj directory), (String.app_inj "/") in Heq.
Qed.

(** X5. [create_temp_file] returns the path of the part's temporary
    file and the file exists afterwards; a file that is there already
    keeps its bytes ([touch]), and no other file changes. The parts of
    one download get different paths: two calls with the same download
    id return the same path only for the same part number. *)
Theorem create_temp_file_keeps_bytes (download_id : string) (part_number other_number : Z)
    (held : list Lock) (w : World.t) :
  ∃ temp_path w',
    FileManager.create_temp_file download_id part_number held w = Returns temp_path w' ∧
    World.files w' !! temp_path = Some (default [] (World.files w !! temp_path)) ∧
    (∀ path, path ≠ temp_path → World.files w' !! path = World.files w !! path) ∧
    (∀ other_path w'',
       FileManager.create_temp_file download_id other_number held w'
         = Returns other_path w'' →
       other_path = temp_path → other_number = part_number).
Proof.
  unfold FileManager.create_temp_file. eexists _, _. rewrite bind_run. unfold modify at 1.
  rewrite ret_run. split; [reflexivity|]. split_and!.
  - destruct (World.files w !! _) eqn:Hfile; cbn; [done|]. by rewrite lookup_insert_eq.
  - intros path Hne. destruct (World.files w !! _) eqn:Hfile; cbn; [done|].
    by rewrite lookup_insert_ne.
  - intros other_path w''. rewrite bind_run. unfold modify at 1. rewrite ret_run.
    intros [= <- _] Heq. apply path_join_inj_part in Heq. by apply pretty_Z_inj in Heq.
Qed.

(** X6. Merging and verifying. When the temporary files exist, none of
    them being the output file, [merge_temp_files] followed by
    [verify_file_integrity] with the expected size [n] leaves the output
    file holding the bytes of the temporary files, in their order, and
    the verification answers whether these are [n] bytes. *)
Theorem merge_then_verify (temp_files : list string) (final_path : string)
    (expected_size : Z) (held : list Lock) (w : World.t) :
  FileManagerLock ∉ held →
  final_path ∉ temp_files →
  Forall (λ path, is_Some (World.files w !! path)) temp_files →
  returns
    (FileManager.merge_temp_files temp_files final_path ;;
     FileManager.verify_file_integrity final_path expected_size) held w
    (λ verified w',
       World.files w' !! final_path = Some (merged_bytes temp_files (World.files w)) ∧
       verified = bool_decide
                    (Z.of_nat (length (merged_bytes temp_files (World.files w)))
                     = expected_size) ∧
       ∀ path, path ≠ final_path → World.files w' !! path = World.files w !! path).
Proof.
  intros Hl Hnotin Hall. apply returns_bind.
  eapply returns_mono; [by apply merge_temp_files_returns|].
  cbn beta. intros merged w' (_ & Hfiles & _).
  unfold FileManager.verify_file_integrity, FileManager.exists_, FileManager.get_file_size.
  apply returns_bind, returns_gets. rewrite Hfiles, lookup_insert_eq.
  rewrite bool_decide_eq_true_2 by done. cbn [negb].
  apply returns_bind, returns_gets. rewrite ?Hfiles, ?lookup_insert_eq.
  assert (∀ path, path ≠ final_path →
            <[final_path := merged_bytes temp_files (World.files w)]> (World.files w) !! path
            = World.files w !! path) as Hother.
  { intros path Hne. by rewrite lookup_insert_ne. }
  destruct (Z.eqb_spec (Z.of_nat (length (merged_bytes temp_files (World.files w))))
              expected_size) as [Heq|Hne]; cbn [negb]; apply returns_ret.
  - rewrite bool_decide_eq_true_2, Hfiles by done. split_and!; [by rewrite lookup_insert_eq | done..].
  - rewrite bool_decide_eq_false_2, Hfiles by done. split_and!; [by rewrite lookup_insert_eq | done..].
Qed.

(** The buffer of a tenth is a product of doubles: 1540 bytes free are
    not enough for a download of 1400 bytes, [1400 * 1.1] being
    [1540.0000000000002]; 1541 bytes are. *)
Lemma ensure_sufficient_space_rounds path :
  (available_space path = 1540%Z → FileManager.ensure_sufficient_space path 1400 = false) ∧
  (available_space path = 1541%Z → FileManager.ensure_sufficient_space path 1400 = true).
Proof.
  unfold FileManager.ensure_sufficient_space. split; intros ->; by vm_compute.
Qed.

End file_facts.

Section file_examples.
Local Open Scope Z_scope.

(** Merging the one temporary file of the example, of 100 bytes, into a
    new file and verifying it against 100 bytes. *)
Lemma merge_then_verify_witness :
  returns
    (@FileManager.merge_temp_files [example_temp_path] "/home/user/Downloads/new.bin" ;;
     @FileManager.verify_file_integrity "/home/user/Downloads/new.bin" 100) [] world_completing
    (λ verified w',
       World.files w' !! "/home/user/Downloads/new.bin"%string = Some example_body ∧
       verified = true ∧
       ∀ path, path ≠ "/home/user/Downloads/new.bin"%string →
               World.files w' !! path = World.files world_completing !! path).
Proof.
  apply (merge_then_verify [example_temp_path] "/home/user/Downloads/new.bin" 100 []
           world_completing).
  - apply not_elem_of_nil.
  - apply not_elem_of_cons. split; [discriminate | apply not_elem_of_nil].
  - repeat constructor. by eexists.
Defined.

End file_examples.

(** ** The database *)

(** Each key of [to_dict] reads back the value stored under it. *)
Ltac to_dict_lookups :=
  repeat match goal with
  | |- context [DownloadTask.to_dict ?x !! ?k] =>
      let v := eval vm_compute in (DownloadTask.to_dict x !! k) in
      replace (DownloadTask.to_dict x !! k) with v by (vm_compute; reflexivity)
  end.

Section db_facts.
Context {env : Externals}.
Local Open Scope Z_scope.

Lemma by_part_number_total : Total DatabaseManager.by_part_number.
Proof. intros p q. unfold DatabaseManager.by_part_number. lia. Qed.

#[local] Existing Instance by_part_number_total.

Lemma row_of_task_headers x :
  DatabaseManager.row_of_task x !! "headers"
  = Some (Py.Str (json_dumps (DownloadTask.headers x))).
Proof.
  unfold DatabaseManager.row_of_task.
  by rewrite !lookup_insert_ne, lookup_insert_eq by done.
Qed.

Lemma row_of_task_supports_range_requests x :
  DatabaseManager.bool_of_column (DatabaseManager.row_of_task x !! "supports_range_requests")
  = Some (Py.Bool (DownloadTask.supports_range_requests x)).
Proof.
  unfold DatabaseManager.row_of_task.
  rewrite !lookup_insert_ne, lookup_insert_eq by done.
  by destruct (DownloadTask.supports_range_requests x).
Qed.

Lemma row_of_task_is_video x :
  DatabaseManager.bool_of_column (DatabaseManager.row_of_task x !! "is_video")
  = Some (Py.Bool (DownloadTask.is_video x)).
Proof.
  unfold DatabaseManager.row_of_task. rewrite lookup_insert_ne, lookup_insert_eq by done.
  by destruct (DownloadTask.is_video x).
Qed.

Lemma sql_stored_scheduled_time x :
  Py.sql_stored (Py.of_opt_float_nan (DownloadTask.scheduled_time x))
  = Py.of_opt_float_nan (DownloadTask.scheduled_time (as_stored x)).
Proof. unfold as_stored. by destruct x as [? ? ? ? ? ? ? ? ? ? ? ? ? ? ? ? ? ? ? ? ? ? ? ? [[?|]|] ?]. Qed.

Lemma to_dict_as_stored x k :
  k ≠ "scheduled_time"%string →
  DownloadTask.to_dict (as_stored x) !! k = DownloadTask.to_dict x !! k.
Proof.
  intros Hk. unfold as_stored.
  destruct x as [? ? ? ? ? ? ? ? ? ? ? ? ? ? ? ? ? ? ? ? ? ? ? ? [[?|]|] ?]; [done| |done].
  unfold DownloadTask.to_dict. cbn [DownloadTask.set_scheduled_time list_to_map foldr
    DownloadTask.id DownloadTask.url DownloadTask.filename DownloadTask.destination
    DownloadTask.file_size DownloadTask.downloaded_bytes DownloadTask.status
    DownloadTask.created_at DownloadTask.started_at DownloadTask.completed_at
    DownloadTask.error_message DownloadTask.retry_count DownloadTask.max_retries
    DownloadTask.supports_range_requests DownloadTask.parts DownloadTask.num_threads
    DownloadTask.download_speed DownloadTask.eta DownloadTask.progress_percentage
    DownloadTask.content_type DownloadTask.headers DownloadTask.checksum DownloadTask.is_video
    DownloadTask.video_quality DownloadTask.scheduled_time DownloadTask.priority
    fst snd uncurry].
  repeat match goal with
         | |- <[?k' := _]> _ !! k = <[?k' := _]> _ !! k =>
             destruct (decide (k = k')) as [->|?];
             [by rewrite !lookup_insert_eq | rewrite !(lookup_insert_ne _ k' k) by done]
         end.
  done.
Qed.

(** The row of a task, with its three converted columns converted
    back, is the dictionary of the task as it is stored. *)
Lemma row_of_task_converted x :
  <["is_video" := Py.Bool (DownloadTask.is_video x)]>
    (<["supports_range_requests" := Py.Bool (DownloadTask.supports_range_requests x)]>
       (<["headers" := Py.Dict (DownloadTask.headers x)]> (DatabaseManager.row_of_task x)))
  = DownloadTask.to_dict (as_stored x).
Proof.
  apply map_eq. intros k. unfold DatabaseManager.row_of_task.
  destruct (decide (k = "is_video"%string)) as [->|Hiv].
  { rewrite lookup_insert_eq, to_dict_as_stored by done. destruct x. by to_dict_lookups. }
  rewrite lookup_insert_ne by done.
  destruct (decide (k = "supports_range_requests"%string)) as [->|Hsr].
  { rewrite lookup_insert_eq, to_dict_as_stored by done. destruct x. by to_dict_lookups. }
  rewrite lookup_insert_ne by done.
  destruct (decide (k = "headers"%string)) as [->|Hh].
  { rewrite lookup_insert_eq, to_dict_as_stored by done. destruct x. by to_dict_lookups. }
  rewrite lookup_insert_ne by done.
  destruct (decide (k = "scheduled_time"%string)) as [->|Hst].
  { rewrite lookup_insert_eq, sql_stored_scheduled_time.
    destruct (as_stored x). by to_dict_lookups. }
  rewrite !lookup_insert_ne by done. by rewrite to_dict_as_stored.
Qed.

Lemma as_stored_fields x :
  DownloadTask.filename (as_stored x) = DownloadTask.filename x ∧
  DownloadTask.headers (as_stored x) = DownloadTask.headers x ∧
  DownloadTask.id (as_stored x) = DownloadTask.id x ∧
  DownloadTask.parts (as_stored x) = DownloadTask.parts x.
Proof.
  unfold as_stored. by destruct x as [? ? ? ? ? ? ? ? ? ? ? ? ? ? ? ? ? ? ? ? ? ? ? ? [[?|]|] ?].
Qed.

Lemma from_dict_to_dict_filename t_id t_created t_default x :
  DownloadTask.filename x ≠ ""%string →
  DownloadTask.from_dict t_id t_created t_default (DownloadTask.to_dict x)
  = Some (DownloadTask.set_parts [] x).
Proof.
  intros Hfn. rewrite from_dict_to_dict_gen. do 2 f_equal.
  cbn [DownloadTask.__init__ DownloadTask.filename].
  apply truthy_str_Some in Hfn. rewrite Hfn. simpl. apply set_filename_same.
Qed.

Lemma set_parts_twice p q x :
  DownloadTask.set_parts p (DownloadTask.set_parts q x) = DownloadTask.set_parts p x.
Proof. by destruct x. Qed.

(** [load_download] of a row that [save_download] wrote. *)
Lemma load_download_saved x held w :
  DatabaseLock ∉ held →
  World.db_downloads w !! DownloadTask.id x = Some (DatabaseManager.row_of_task x) →
  DownloadTask.filename x ≠ ""%string →
  json_dumps (DownloadTask.headers x) ≠ ""%string →
  json_loads (json_dumps (DownloadTask.headers x)) = Some (DownloadTask.headers x) →
  DatabaseManager.load_download (DownloadTask.id x) held w
  = Returns (Some (World.next_ref w))
      (World.set_next_ref (S (World.next_ref w))
         (World.set_objects
            (<[World.next_ref w :=
                 DownloadTask.set_parts
                   (merge_sort DatabaseManager.by_part_number
                      (default [] (World.db_download_parts w !! DownloadTask.id x)))
                   (as_stored x)]>
               (World.objects w))
            (World.set_ticks (S (S (S (World.ticks w)))) w))).
Proof.
  intros Hl Hrow Hfn Hne Hjson.
  destruct (as_stored_fields x) as (Hsfn & _ & _ & Hsparts).
  unfold DatabaseManager.load_download, DatabaseManager._get_connection, with_lock.
  rewrite (bool_decide_eq_false_2 _ Hl). rewrite bind_run. unfold gets at 1. rewrite Hrow.
  rewrite row_of_task_headers, row_of_task_supports_range_requests, row_of_task_is_video.
  cbn [DatabaseManager.headers_of_column].
  apply String.eqb_neq in Hne. rewrite Hne, Hjson, row_of_task_converted.
  rewrite !bind_run. unfold time_time at 1. rewrite !bind_run. unfold time_time at 1.
  rewrite !bind_run. unfold time_time at 1.
  rewrite from_dict_to_dict_filename by (by rewrite Hsfn).
  rewrite !bind_run. unfold gets at 1. rewrite !bind_run. unfold new_object at 1.
  rewrite ret_run. unfold DatabaseManager.part_rows. cbn.
  case_bool_decide as Hparts; [|by rewrite set_parts_twice].
  by rewrite Hparts.
Qed.

(** X7. Saving a task and loading it back. For a task that SQLite can
    store (its integers fit 64 bits and its parts have different
    numbers), whose filename is not empty and whose headers [json]
    writes and reads back, [save_download] followed by [load_download]
    of its id returns a new task object with the 25 task-level fields of
    the saved task, but for a scheduled time that is NaN, which comes
    back as [None]; and with its parts, in the order of their part
    numbers. (A task saved without parts is assumed to have no part rows
    from an earlier save: [save_download] does not remove them.) *)
Theorem save_then_load_download (w : World.t) (task : nat) (x : DownloadTask.t)
    (held : list Lock) :
  World.objects w !! task = Some x →
  DatabaseLock ∉ held →
  storable x →
  DownloadTask.filename x ≠ ""%string →
  json_dumps (DownloadTask.headers x) ≠ ""%string →
  json_loads (json_dumps (DownloadTask.headers x)) = Some (DownloadTask.headers x) →
  (DownloadTask.parts x = [] → World.db_download_parts w !! DownloadTask.id x = None) →
  returns
    (DatabaseManager.save_download task ;;
     DatabaseManager.load_download (DownloadTask.id x)) held w
    (λ loaded w',
       ∃ task' parts',
         loaded = Some task' ∧
         World.objects w' !! task' = Some (DownloadTask.set_parts parts' (as_stored x)) ∧
         parts' ≡ₚ DownloadTask.parts x ∧
         Sorted DatabaseManager.by_part_number parts').
Proof.
  intros Hx Hl _ Hfn Hne Hjson Hstale. apply returns_bind. unfold returns at 1.
  rewrite (save_download_run _ x) by done.
  unfold returns. rewrite load_download_saved; [|done| |done..]; last first.
  { unfold saved. case_bool_decide; cbn; by rewrite lookup_insert_eq. }
  eexists _, _. split; [done|]. split; [cbn; by rewrite lookup_insert_eq|].
  assert (default [] (World.db_download_parts (saved x w) !! DownloadTask.id x)
          = DownloadTask.parts x) as ->.
  { unfold saved. case_bool_decide as Hparts; cbn.
    - by rewrite Hstale, Hparts.
    - by rewrite lookup_insert_eq. }
  split; [apply merge_sort_Permutation | apply Sorted_merge_sort, _].
Qed.

Lemma db_delete_download_run download_id held w :
  DatabaseLock ∉ held →
  DatabaseManager.delete_download download_id held w
  = Returns (bool_decide (is_Some (World.db_downloads w !! download_id)))
      (World.set_db_downloads (delete download_id (World.db_downloads w))
         (World.set_db_download_parts (delete download_id (World.db_download_parts w)) w)).
Proof.
  intros Hl. unfold DatabaseManager.delete_download, DatabaseManager._get_connection, with_lock.
  by rewrite (bool_decide_eq_false_2 _ Hl).
Qed.

(** X8. [DatabaseManager.delete_download] answers whether the download
    had a row; afterwards the download has neither a row nor part rows,
    [load_download] of its id returns [None], and the rows and part rows
    of every other download are as they were. *)
Theorem db_delete_download_removes (download_id : string) (w : World.t) :
  ∃ w',
    run (DatabaseManager.delete_download download_id) w
      = Returns (bool_decide (is_Some (World.db_downloads w !! download_id))) w' ∧
    World.db_downloads w' !! download_id = None ∧
    World.db_download_parts w' !! download_id = None ∧
    run (DatabaseManager.load_download download_id) w' = Returns None w' ∧
    (∀ other, other ≠ download_id →
       World.db_downloads w' !! other = World.db_downloads w !! other ∧
       World.db_download_parts w' !! other = World.db_download_parts w !! other).
Proof.
  unfold run. rewrite db_delete_download_run by apply not_elem_of_nil.
  eexists. split; [done|]. cbn.
  rewrite !lookup_delete_eq. split_and!; [done | done | |].
  - unfold DatabaseManager.load_download, DatabaseManager._get_connection, with_lock.
    rewrite bool_decide_eq_false_2 by apply not_elem_of_nil.
    rewrite bind_run. unfold gets at 1. cbn.
    by rewrite lookup_delete_eq.
  - intros other Hother. by rewrite !lookup_delete_ne.
Qed.

Lemma update_download_progress_run download_id downloaded_bytes progress_percentage
    download_speed eta held w :
  DatabaseLock ∉ held →
  DatabaseManager.update_download_progress download_id downloaded_bytes progress_percentage
    download_speed eta held w
  = Returns (bool_decide (is_Some (World.db_downloads w !! download_id)))
      (World.set_db_downloads
         (alter (λ row, <["downloaded_bytes" := Py.Int downloaded_bytes]>
                          (<["progress_percentage" := Py.Float progress_percentage]>
                             (<["download_speed" := Py.Float download_speed]>
                                (<["eta" := Py.Float eta]> row))))
            download_id (World.db_downloads w)) w).
Proof.
  intros Hl. unfold DatabaseManager.update_download_progress, DatabaseManager._get_connection,
    with_lock.
  by rewrite (bool_decide_eq_false_2 _ Hl).
Qed.


Lemma filter_nil_forall {B} (f : B → bool) (l : list B) :
  List.filter f l = [] ↔ ∀ x, x ∈ l → f x = false.
Proof.
  induction l as [|y l IH]; simpl.
  - split; [|done]. intros _ x Hx. by apply elem_of_nil in Hx.
  - destruct (f y) eqn:Hy.
    + split; [done|]. intros Hall. rewrite Hall in Hy; [done | apply list_elem_of_here].
    + rewrite IH. split.
      * intros Hall x Hx. apply elem_of_cons in Hx as [->|Hx]; auto.
      * intros Hall x Hx. apply Hall. by apply list_elem_of_further.
Qed.

Lemma ids_with_status_nil status w :
  DatabaseManager.ids_with_status status w = [] ↔
  ∀ download_id row, World.db_downloads w !! download_id = Some row →
                     row !! "status" ≠ Some (Py.Str (status_value status)).
Proof.
  unfold DatabaseManager.ids_with_status. split.
  - intros Hnil. apply fmap_nil_inv in Hnil.
    assert (List.filter (DatabaseManager.has_status (status_value status))
              (map_to_list (World.db_downloads w)) = []) as Hfilter.
    { apply Permutation_nil_r. rewrite <- Hnil. by rewrite merge_sort_Permutation. }
    intros download_id row Hrow Hstatus.
    pose proof (proj1 (filter_nil_forall _ _) Hfilter (download_id, row)) as Hfalse.
    unfold DatabaseManager.has_status in Hfalse. cbn in Hfalse.
    rewrite Hstatus, String.eqb_refl in Hfalse.
    by discriminate Hfalse; apply elem_of_map_to_list.
  - intros Hall.
    assert (List.filter (DatabaseManager.has_status (status_value status))
              (map_to_list (World.db_downloads w)) = []) as ->; [|done].
    apply filter_nil_forall. intros [download_id row] Hin.
    apply elem_of_map_to_list in Hin. unfold DatabaseManager.has_status. cbn.
    destruct (row !! "status") as [[| | | | |s|]|] eqn:Hstatus; try done.
    destruct (String.eqb_spec s (status_value status)) as [->|]; [|done].
    by destruct (Hall download_id row).
Qed.

Lemma get_downloads_by_status_run status w :
  run (DatabaseManager.get_downloads_by_status status) w
  = match DatabaseManager.ids_with_status status w with
    | [] => Returns [] w
    | _ :: _ => Blocks
    end.
Proof.
  unfold run, DatabaseManager.get_downloads_by_status, DatabaseManager._get_connection,
    with_lock.
  rewrite bool_decide_eq_false_2 by apply not_elem_of_nil.
  rewrite bind_run. unfold gets at 1.
  by destruct (DatabaseManager.ids_with_status status w).
Qed.

(** X10. [get_downloads_by_status] returns the empty list when no
    stored download has the status, and never returns when one has: it
    calls [load_download] for the row while it holds the database lock,
    which [load_download] acquires again. *)
Theorem get_downloads_by_status_blocks (status : DownloadStatus) (w : World.t) :
  ((∃ download_id row, World.db_downloads w !! download_id = Some row ∧
                       row !! "status" = Some (Py.Str (status_value status))) →
   run (DatabaseManager.get_downloads_by_status status) w = Blocks) ∧
  ((∀ download_id row, World.db_downloads w !! download_id = Some row →
                       row !! "status" ≠ Some (Py.Str (status_value status))) →
   run (DatabaseManager.get_downloads_by_status status) w = Returns [] w).
Proof.
  rewrite get_downloads_by_status_run. split.
  - intros (download_id & row & Hrow & Hstatus).
    destruct (DatabaseManager.ids_with_status status w) as [|first rest] eqn:Hids.
    + by destruct (proj1 (ids_with_status_nil _ _) Hids download_id row).
    + reflexivity.
  - intros Hall. by rewrite (proj2 (ids_with_status_nil _ _) Hall).
Qed.

Lemma delete_parts_run (ids : list string) held w :
  for_each ids (λ download_id,
    modify (λ w, World.set_db_download_parts
                   (delete download_id (World.db_download_parts w)) w)) held w
  = Returns ()
      (World.set_db_download_parts
         (foldl (λ parts download_id, delete download_id parts) (World.db_download_parts w) ids)
         w).
Proof.
  revert w. induction ids as [|download_id rest IH]; intros w; cbn [for_each foldl].
  - rewrite ret_run. by destruct w.
  - rewrite bind_run. unfold modify at 1. rewrite IH. by destruct w.
Qed.

Lemma cleanup_completed_downloads_run days_old w :
  run (DatabaseManager.cleanup_completed_downloads days_old) w
  = let cutoff_time := (clock (World.ticks w) - inject_Z (days_old * 24 * 3600))%Q in
    let download_ids :=
      (List.filter (λ row, DatabaseManager.completed_before cutoff_time row.2)
         (map_to_list (World.db_downloads w))).*1 in
    Returns (Z.of_nat (length download_ids))
      (World.set_db_downloads
         (filter (λ row, DatabaseManager.completed_before cutoff_time row.2 = false)
            (World.db_downloads w))
         (World.set_db_download_parts
            (foldl (λ parts download_id, delete download_id parts)
               (World.db_download_parts w) download_ids)
            (World.set_ticks (S (World.ticks w)) w))).
Proof.
  unfold run, DatabaseManager.cleanup_completed_downloads. rewrite bind_run.
  unfold time_time at 1. unfold DatabaseManager._get_connection, with_lock.
  rewrite bool_decide_eq_false_2 by apply not_elem_of_nil.
  rewrite bind_run. unfold gets at 1. rewrite bind_run, delete_parts_run.
  reflexivity.
Qed.

Lemma length_filter_split {B} (f : B → bool) (l : list B) :
  (length (List.filter f l) + length (List.filter (λ x, negb (f x)) l) = length l)%nat.
Proof. induction l as [|x l IH]; simpl; [done|]. destruct (f x); simpl; lia. Qed.

Lemma list_filter_bool {B} (f : B → bool) (l : list B) :
  List.filter (λ x, negb (f x)) l = filter (λ x, f x = false) l.
Proof.
  induction l as [|x l IH]; [done|]. cbn [List.filter]. rewrite filter_cons, IH.
  destruct (f x) eqn:Hx; cbn [negb].
  - by rewrite decide_False by done.
  - by rewrite decide_True by done.
Qed.

(** X11. [cleanup_completed_downloads(days_old)] deletes the rows whose
    status is completed and whose [completed_at] lies before the cutoff,
    [days_old] days before the reading of the clock, together with their
    part rows, and returns their number; every other row, and the part
    rows of every other download, are as they were. *)
Theorem cleanup_completed_downloads_removes (days_old : Z) (w : World.t) :
  ∃ w' removed,
    run (DatabaseManager.cleanup_completed_downloads days_old) w = Returns removed w' ∧
    (∀ download_id,
       World.db_downloads w' !! download_id
       = row ← World.db_downloads w !! download_id;
         if DatabaseManager.completed_before
              (clock (World.ticks w) - inject_Z (days_old * 24 * 3600))%Q row
         then None else Some row) ∧
    (∀ download_id,
       World.db_download_parts w' !! download_id
       = match World.db_downloads w !! download_id with
         | Some row =>
             if DatabaseManager.completed_before
                  (clock (World.ticks w) - inject_Z (days_old * 24 * 3600))%Q row
             then None else World.db_download_parts w !! download_id
         | None => World.db_download_parts w !! download_id
         end) ∧
    removed = Z.of_nat (size (World.db_downloads w)) - Z.of_nat (size (World.db_downloads w')).
Proof.
  rewrite cleanup_completed_downloads_run. cbv zeta.
  set (cutoff_time := (clock (World.ticks w) - inject_Z (days_old * 24 * 3600))%Q).
  set (old := λ row : string * gmap string Py.value,
                DatabaseManager.completed_before cutoff_time row.2).
  eexists _, _. split; [reflexivity|]. cbn. split_and!.
  - intros download_id. rewrite map_lookup_filter.
    destruct (World.db_downloads w !! download_id) as [row|]; [|done]. cbn.
    destruct (DatabaseManager.completed_before cutoff_time row) eqn:Hold.
    + by rewrite option_guard_False by (cbn; congruence).
    + by rewrite option_guard_True.
  - intros download_id. rewrite lookup_foldl_delete.
    destruct (World.db_downloads w !! download_id) as [row|] eqn:Hrow.
    + destruct (DatabaseManager.completed_before cutoff_time row) eqn:Hold.
      * rewrite bool_decide_eq_true_2; [done|].
        apply list_elem_of_fmap. exists (download_id, row). split; [done|].
        apply list_elem_of_In, filter_In. split; [|done].
        by apply list_elem_of_In, elem_of_map_to_list.
      * rewrite bool_decide_eq_false_2; [done|].
        intros Hin. apply list_elem_of_fmap in Hin as ([id' row'] & -> & Hin).
        apply list_elem_of_In, filter_In in Hin as [Hin Hold'].
        apply list_elem_of_In, elem_of_map_to_list in Hin. unfold old in *. cbn [fst snd] in *.
        rewrite Hrow in Hin. injection Hin as <-. congruence.
    + rewrite bool_decide_eq_false_2; [done|].
      intros Hin. apply list_elem_of_fmap in Hin as ([id' row'] & -> & Hin).
      apply list_elem_of_In, filter_In in Hin as [Hin _].
      apply list_elem_of_In, elem_of_map_to_list in Hin. cbn [fst snd] in *. congruence.
  - rewrite length_fmap.
    pose proof (length_filter_split old (map_to_list (World.db_downloads w))) as Hsplit.
    rewrite list_filter_bool in Hsplit.
    rewrite <- !length_map_to_list.
    rewrite (map_filter_alt (λ row, old row = false)).
    rewrite map_to_list_to_map; [subst old; cbv beta in *; lia|].
    subst old. apply NoDup_fmap_fst.
    + intros k v1 v2 Hv1 Hv2. apply list_elem_of_filter in Hv1 as [_ Hv1].
      apply list_elem_of_filter in Hv2 as [_ Hv2].
      apply elem_of_map_to_list in Hv1, Hv2. congruence.
    + apply NoDup_filter, NoDup_map_to_list.
Qed.

End db_facts.

Section db_examples.
Local Open Scope Z_scope.

(** Saving and loading the task in two parts whose scheduled time is
    NaN: the parts come back, the scheduled time does not. *)
Lemma save_then_load_download_witness :
  returns
    (@DatabaseManager.save_download example_externals 0%nat ;;
     @DatabaseManager.load_download example_externals "0123456789ab") []
    (world_with nan_two_part_task)
    (λ loaded w',
       ∃ task' parts',
         loaded = Some task' ∧
         World.objects w' !! task'
           = Some (DownloadTask.set_parts parts'
                     (DownloadTask.set_scheduled_time None (two_part_task 50 PAUSED))) ∧
         parts' ≡ₚ DownloadTask.parts (two_part_task 50 PAUSED) ∧
         Sorted (@DatabaseManager.by_part_number) parts').
Proof.
  apply (@save_then_load_download example_externals
           (world_with nan_two_part_task) 0%nat nan_two_part_task []).
  - reflexivity.
  - apply not_elem_of_nil.
  - unfold storable, int64. cbn. split_and!; try lia.
    + repeat (apply Forall_cons; split; [cbn; lia|]). apply Forall_nil_2.
    + apply NoDup_cons. split; [|apply NoDup_singleton].
      intros Hin. apply list_elem_of_singleton in Hin. discriminate Hin.
  - discriminate.
  - discriminate.
  - reflexivity.
  - discriminate.
Defined.

End db_examples.

(** ** [heapify] *)

Section heapify_facts.
#[local] Arguments Nat.div : simpl never.
#[local] Arguments Nat.mul : simpl never.
Context {A : Type} (lt : A → A → bool).
Hypothesis lt_irrefl : ∀ a, lt a a = false.
Hypothesis lt_trans : ∀ a b c, lt a b = true → lt b c = true → lt a c = true.
Hypothesis lt_mid_trans :
  ∀ d a b c, lt d b = true → lt a b = false → lt b c = false → lt a c = false.

Lemma below_le k pos : below k pos → k ≤ pos.
Proof. induction 1; lia. Qed.

Lemma below_parent k pos :
  below k pos → k < pos → below k ((pos - 1) / 2) ∧ k ≤ (pos - 1) / 2 ∧ 0 < pos.
Proof.
  intros Hbelow Hlt. destruct Hbelow as [|p Hp|p Hp]; [lia | |].
  - rewrite (parent_of_child p (2 * p + 1)) by lia. pose proof (below_le _ _ Hp).
    split_and!; [done | done | lia].
  - rewrite (parent_of_child p (2 * p + 2)) by lia. pose proof (below_le _ _ Hp).
    split_and!; [done | done | lia].
Qed.

Lemma heap_ordered_from_0 heap : heap_ordered_from lt 0 heap ↔ heap_ordered lt heap.
Proof.
  split.
  - intros Hh j c p Hj. apply Hh; [done | lia].
  - intros Hh j c p Hj _. by apply Hh.
Qed.

Lemma hole_ordered_from_insert k heap pos v :
  hole_ordered_from lt k heap pos → hole_ordered_from lt k (<[pos := v]> heap) pos.
Proof.
  intros [Ha Hb]. split.
  - intros j c p Hj Hk Hne Hpne Hc Hp.
    rewrite list_lookup_insert_ne in Hc, Hp by done. eauto.
  - intros j c g Hj Hpj Hpos Hc Hg. pose proof (parent_bounds j). pose proof (parent_bounds pos).
    rewrite list_lookup_insert_ne in Hc, Hg by lia. eauto.
Qed.

Lemma fill_hole_ordered_from k heap pos newitem :
  pos < length heap →
  hole_ordered_from lt k heap pos → fits_above lt heap pos newitem →
  (∀ parent, 0 < pos → k ≤ (pos - 1) / 2 → heap !! ((pos - 1) / 2) = Some parent →
             lt newitem parent = false) →
  heap_ordered_from lt k (<[pos := newitem]> heap).
Proof.
  intros Hlen [Ha Hb] Hc Hup j c p Hj Hk Hcj Hpj.
  destruct (decide (j = pos)) as [->|Hne].
  - rewrite list_lookup_insert_eq in Hcj by done. simplify_eq.
    pose proof (parent_bounds pos).
    rewrite list_lookup_insert_ne in Hpj by lia. eauto.
  - rewrite list_lookup_insert_ne in Hcj by done.
    destruct (decide ((j - 1) / 2 = pos)) as [Heq|Hpne].
    + rewrite Heq, list_lookup_insert_eq in Hpj by done. simplify_eq. eauto.
    + rewrite list_lookup_insert_ne in Hpj by done. eauto.
Qed.

Lemma hole_moves_up_from k heap pos newitem parent :
  below k pos → k < pos → pos < length heap →
  hole_ordered_from lt k heap pos → fits_above lt heap pos newitem →
  heap !! ((pos - 1) / 2) = Some parent → lt newitem parent = true →
  hole_ordered_from lt k (<[pos := parent]> heap) ((pos - 1) / 2) ∧
  fits_above lt (<[pos := parent]> heap) ((pos - 1) / 2) newitem.
Proof.
  intros Hbelow Hkpos Hlen [Ha Hb] Hc Hparent Hlt.
  pose proof (parent_bounds pos) as Hpb.
  destruct (below_parent _ _ Hbelow Hkpos) as (Hbq & Hkq & Hpos).
  split; [split|].
  - intros j c p Hj Hk Hne Hpne Hcj Hpj.
    destruct (decide (j = pos)) as [->|Hjne]; [done|].
    rewrite list_lookup_insert_ne in Hcj by done.
    destruct (decide ((j - 1) / 2 = pos)) as [Heq|Hpjne].
    + rewrite Heq, list_lookup_insert_eq in Hpj by done. simplify_eq. eauto.
    + rewrite list_lookup_insert_ne in Hpj by done. eauto.
  - intros j c g Hj Hpj Hkq' Hcj Hg.
    pose proof (parent_bounds ((pos - 1) / 2)) as Hgb.
    rewrite list_lookup_insert_ne in Hg by lia.
    destruct (below_parent _ _ Hbq Hkq') as (_ & Hkg & Hq).
    assert (Hpg : lt parent g = false).
    { apply (Ha ((pos - 1) / 2)); [done | done | lia | lia | done | done]. }
    destruct (decide (j = pos)) as [->|Hjne].
    + rewrite list_lookup_insert_eq in Hcj by done. by simplify_eq.
    + rewrite list_lookup_insert_ne in Hcj by done.
      apply (lt_mid_trans newitem _ parent); [done | | done].
      apply (Ha j); [done | lia | done | lia | done |]. by rewrite Hpj.
  - intros j c Hj Hpj Hcj.
    destruct (decide (j = pos)) as [->|Hjne].
    + rewrite list_lookup_insert_eq in Hcj by done. simplify_eq.
      by apply (lt_asym lt lt_irrefl lt_trans).
    + rewrite list_lookup_insert_ne in Hcj by done.
      assert (Hcp : lt c parent = false).
      { apply (Ha j); [done | lia | done | lia | done |]. by rewrite Hpj. }
      destruct (lt c newitem) eqn:Hcn; [|done].
      by rewrite (lt_trans _ _ _ Hcn Hlt) in Hcp.
Qed.

Lemma siftdown_loop_ordered_from k bound heap newitem pos :
  below k pos → pos ≤ bound → pos < length heap →
  hole_ordered_from lt k heap pos → fits_above lt heap pos newitem →
  heap_ordered_from lt k (heapq._siftdown_loop lt bound heap newitem k pos).
Proof.
  revert heap pos. induction bound as [|bound IH]; intros heap pos Hbelow Hb Hlen Hh Hc; simpl.
  - apply fill_hole_ordered_from; [done..|]. intros; lia.
  - pose proof (parent_bounds pos) as Hpb.
    case_decide as Hpos; last first.
    { apply fill_hole_ordered_from; [done..|]. intros; pose proof (below_le _ _ Hbelow); lia. }
    destruct (below_parent _ _ Hbelow Hpos) as (Hbq & Hkq & Hpos0).
    destruct (heap !! ((pos - 1) / 2)) as [parent|] eqn:Hparent; last first.
    { apply lookup_ge_None in Hparent. lia. }
    destruct (lt newitem parent) eqn:Hlt.
    + destruct (hole_moves_up_from k heap pos newitem parent) as [Hh' Hc']; [done..|].
      apply IH; [done | lia | rewrite length_insert; lia | done | done].
    + apply fill_hole_ordered_from; [done..|]. intros parent' _ _ Hp'. by simplify_eq.
Qed.

Lemma siftdown_loop_perm_from k bound heap newitem pos :
  pos < length heap →
  heapq._siftdown_loop lt bound heap newitem k pos ≡ₚ <[pos := newitem]> heap.
Proof.
  revert heap pos. induction bound as [|bound IH]; intros heap pos Hlen; simpl; [done|].
  case_decide as Hpos; [|done].
  pose proof (parent_bounds pos) as Hpb.
  destruct (heap !! ((pos - 1) / 2)) as [parent|] eqn:Hparent; [|done].
  destruct (lt newitem parent); [|done].
  rewrite IH by (rewrite length_insert; lia).
  rewrite <- (list_insert_insert_eq heap pos parent newitem).
  apply Permutation_insert_swap.
  - by rewrite list_lookup_insert_eq.
  - by rewrite list_lookup_insert_ne by lia.
Qed.

Lemma hole_moves_down_from k heap pos child :
  2 * pos + 1 < length heap →
  heap !! heapq.smaller_child lt heap (2 * pos + 1) = Some child →
  hole_ordered_from lt k heap pos →
  hole_ordered_from lt k (<[pos := child]> heap) (heapq.smaller_child lt heap (2 * pos + 1)).
Proof.
  intros Hlen Hchild [Ha Hb].
  destruct (smaller_child_spec lt lt_irrefl lt_trans heap pos Hlen) as (Hc & Hclen & Hsib).
  set (c := heapq.smaller_child lt heap (2 * pos + 1)) in *.
  assert (Hpc : (c - 1) / 2 = pos) by (by apply parent_of_child).
  split.
  - intros j cj p Hj Hk Hne Hpne Hcj Hpj.
    destruct (decide (j = pos)) as [->|Hjne].
    + rewrite list_lookup_insert_eq in Hcj by lia. simplify_eq.
      pose proof (parent_bounds pos).
      rewrite list_lookup_insert_ne in Hpj by lia.
      apply (Hb c); [lia | done | lia | done | done].
    + rewrite list_lookup_insert_ne in Hcj by done.
      destruct (decide ((j - 1) / 2 = pos)) as [Heq|Hpjne].
      * rewrite Heq, list_lookup_insert_eq in Hpj by lia. simplify_eq.
        apply (Hsib j); [by apply child_of_parent | done | done | done].
      * rewrite list_lookup_insert_ne in Hpj by done. eauto.
  - intros j cj g Hj Hpj Hcpos Hcj Hg.
    pose proof (parent_bounds j).
    rewrite list_lookup_insert_ne in Hcj by lia.
    rewrite Hpc, list_lookup_insert_eq in Hg by lia. simplify_eq.
    apply (Ha j); [done | lia | lia | lia | done |]. by rewrite Hpj.
Qed.

Lemma siftup_loop_spec_from k bound heap pos heap' leaf :
  below k pos →
  length heap ≤ bound + pos → pos < length heap → hole_ordered_from lt k heap pos →
  heapq._siftup_loop lt bound heap pos = (heap', leaf) →
  below k leaf ∧
  length heap' = length heap ∧ leaf < length heap ∧ length heap ≤ 2 * leaf + 1 ∧
  hole_ordered_from lt k heap' leaf ∧
  ∀ v, <[leaf := v]> heap' ≡ₚ <[pos := v]> heap.
Proof.
  revert heap pos. induction bound as [|bound IH]; intros heap pos Hbelow Hb Hlen Hh Hloop;
    cbn [heapq._siftup_loop] in Hloop.
  - lia.
  - case_decide as Hchild; last first.
    { simplify_eq. split_and!; [done | done | done | lia | done | done]. }
    destruct (smaller_child_spec lt lt_irrefl lt_trans heap pos Hchild) as (Hc & Hclen & _).
    set (c := heapq.smaller_child lt heap (2 * pos + 1)) in *.
    destruct (lookup_lt_is_Some_2 heap c Hclen) as [child Hchildv]. rewrite Hchildv in Hloop.
    apply IH in Hloop as (Hbl & Hl' & Hleaf & Hnochild & Hh' & Hperm).
    + rewrite length_insert in Hl', Hleaf, Hnochild.
      split_and!; [done..|]. intros v. rewrite Hperm.
      rewrite <- (list_insert_insert_eq heap pos child v).
      apply Permutation_insert_swap.
      * by rewrite list_lookup_insert_eq.
      * by rewrite list_lookup_insert_ne by lia.
    + destruct Hc as [->| ->]; by constructor.
    + rewrite length_insert. lia.
    + rewrite length_insert. lia.
    + by apply hole_moves_down_from.
Qed.

(** [_siftup(heap, k)], when the positions after [k] are in order, puts
    those from [k] on in order. *)
Lemma siftup_spec_from k heap :
  k < length heap → heap_ordered_from lt (S k) heap →
  heap_ordered_from lt k (heapq._siftup lt heap k) ∧ heapq._siftup lt heap k ≡ₚ heap.
Proof.
  intros Hlen Hh. unfold heapq._siftup.
  destruct (lookup_lt_is_Some_2 heap k Hlen) as [newitem Hnew]. rewrite Hnew.
  destruct (heapq._siftup_loop lt (length heap) heap k) as [heap' leaf] eqn:Hloop.
  apply siftup_loop_spec_from with (k := k) in Hloop
    as (Hbl & Hl' & Hleaf & Hnochild & Hh' & Hperm); [|constructor|lia|done|]; last first.
  { split.
    - intros j c p Hj Hk Hne Hpne. apply Hh; [done | lia].
    - intros; lia. }
  unfold heapq._siftdown. rewrite list_lookup_insert_eq by lia. split.
  - apply siftdown_loop_ordered_from; [done | done | rewrite length_insert; lia | |].
    + by apply hole_ordered_from_insert.
    + intros j c Hj Hpj Hc. apply lookup_lt_Some in Hc. rewrite length_insert in Hc.
      pose proof (parent_bounds j). lia.
  - rewrite siftdown_loop_perm_from by (rewrite length_insert; lia).
    rewrite list_insert_insert_eq, Hperm. by rewrite list_insert_id.
Qed.

Lemma heapify_loop_spec m heap :
  m ≤ length heap → heap_ordered_from lt m heap →
  heap_ordered lt (foldl (heapq._siftup lt) heap (reverse (seq 0 m))) ∧
  foldl (heapq._siftup lt) heap (reverse (seq 0 m)) ≡ₚ heap.
Proof.
  revert heap. induction m as [|m IH]; intros heap Hlen Hh.
  - split; [by apply heap_ordered_from_0 | done].
  - rewrite seq_S, reverse_app. cbn [reverse rev_append app foldl plus].
    destruct (siftup_spec_from m heap) as [Hord Hperm]; [lia | done |].
    destruct (IH (heapq._siftup lt heap m)) as [Hord' Hperm']; [by rewrite Hperm; lia | done |].
    split; [done | by rewrite Hperm'].
Qed.

(** [heapify] turns any list into a heap of the same items. *)
Lemma heapify_spec heap :
  heap_ordered lt (heapq.heapify lt heap) ∧ heapq.heapify lt heap ≡ₚ heap.
Proof.
  unfold heapq.heapify. apply heapify_loop_spec.
  - pose proof (Nat.div_mod_eq (length heap) 2). lia.
  - intros j c p Hj Hk Hc Hp. apply lookup_lt_Some in Hc.
    pose proof (parent_bounds j). pose proof (Nat.div_mod_eq (length heap) 2).
    pose proof (Nat.mod_upper_bound (length heap) 2). lia.
Qed.

End heapify_facts.

(** ** The scheduler, continued *)

Section scheduler_more.
Context {env : Externals}.

Lemma queue_download_run task x held w :
  World.objects w !! task = Some x → DatabaseLock ∉ held →
  DownloadManager._queue_download task held w = Returns () (queued task x w).
Proof.
  intros Hx Hl. unfold DownloadManager._queue_download.
  rewrite bind_run. unfold deref at 1. rewrite Hx.
  rewrite bind_run. unfold modify at 1. rewrite bind_run. unfold update at 1, modify at 1.
  rewrite bind_run.
  rewrite (save_download_run task (DownloadTask.set_status QUEUED x))
    by (done || (cbn; by rewrite lookup_alter_eq, Hx)).
  unfold DownloadManager._notify_status_callbacks. rewrite bind_run. unfold deref at 1.
  assert (World.objects
            (saved (DownloadTask.set_status QUEUED x)
               (World.set_objects
                  (alter (DownloadTask.set_status QUEUED) task
                     (World.objects
                        (World.set_download_queue
                           (DownloadManager.put (World.download_queue w)
                              (QueuedDownload.mk (DownloadTask.priority x) task)) w)))
                  (World.set_download_queue
                     (DownloadManager.put (World.download_queue w)
                        (QueuedDownload.mk (DownloadTask.priority x) task)) w))) !! task
          = Some (DownloadTask.set_status QUEUED x)) as ->.
  { unfold saved. case_bool_decide; cbn; by rewrite lookup_alter_eq, Hx. }
  reflexivity.
Qed.

Lemma find_from_cons item0 x0 rest (i : nat) download_id held w :
  World.objects w !! ScheduledItem.task item0 = Some x0 →
  DownloadScheduler.find_from (item0 :: rest) i download_id held w
  = if String.eqb (DownloadTask.id x0) download_id then Returns (Some (i, item0)) w
    else DownloadScheduler.find_from rest (S i) download_id held w.
Proof.
  intros Hx0. cbn [DownloadScheduler.find_from]. rewrite bind_run. unfold deref at 1.
  rewrite Hx0. by destruct (String.eqb _ _).
Qed.

(** The loop over the schedule finds the first entry of the download,
    and changes nothing. *)
Lemma find_from_spec items (i : nat) download_id held w :
  Forall (λ item, is_Some (World.objects w !! ScheduledItem.task item)) items →
  (∃ k item x,
     DownloadScheduler.find_from items i download_id held w = Returns (Some ((i + k)%nat, item)) w ∧
     items !! k = Some item ∧ World.objects w !! ScheduledItem.task item = Some x ∧
     DownloadTask.id x = download_id ∧
     ∀ (j : nat) item' x', (j < k)%nat → items !! j = Some item' →
       World.objects w !! ScheduledItem.task item' = Some x' → DownloadTask.id x' ≠ download_id) ∨
  (DownloadScheduler.find_from items i download_id held w = Returns None w ∧
   ∀ item x, item ∈ items → World.objects w !! ScheduledItem.task item = Some x →
             DownloadTask.id x ≠ download_id).
Proof.
  revert i. induction items as [|item0 rest IH]; intros i Hvalid.
  - right. split; [done|]. intros item x Hin. by apply elem_of_nil in Hin.
  - apply Forall_cons in Hvalid as [[x0 Hx0] Hvalid].
    rewrite (find_from_cons item0 x0) by done.
    destruct (String.eqb_spec (DownloadTask.id x0) download_id) as [Heq|Hne].
    + left. exists 0%nat, item0, x0. rewrite Nat.add_0_r.
      split_and!; [done | done | done | done | intros j; lia].
    + destruct (IH (S i) Hvalid) as [(k & item & x & Hrun & Hk & Hx & Hid & Hfirst)|[Hrun Hnone]].
      * left. exists (S k), item, x. replace (i + S k)%nat with (S i + k)%nat by lia.
        split_and!; [done..|]. intros [|j] item' x' Hj Hitem' Hx'.
        -- cbn in Hitem'. simplify_eq. congruence.
        -- apply (Hfirst j item' x'); [lia | done | done].
      * right. split; [done|]. intros item x Hin Hx.
        apply elem_of_cons in Hin as [->|Hin]; [congruence | by eapply Hnone].
Qed.

Lemma unschedule_download_run download_id w :
  run (DownloadScheduler.unschedule_download download_id) w
  = match DownloadScheduler.find_from (World.scheduled_downloads w) 0 download_id
            [SchedulerLock] w with
    | Returns (Some (i, _)) w1 =>
        Returns true
          (World.set_scheduled_downloads
             (heapq.heapify ScheduledItem.lt (delete i (World.scheduled_downloads w1))) w1)
    | Returns None w1 => Returns false w1
    | Raises e w1 => Raises e w1
    | Blocks => Blocks
    end.
Proof.
  unfold run, DownloadScheduler.unschedule_download, DownloadScheduler.with_condition,
    with_lock.
  rewrite bool_decide_eq_false_2 by apply not_elem_of_nil.
  rewrite bind_run. unfold gets at 1. rewrite bind_run.
  destruct (DownloadScheduler.find_from _ _ _ _ _) as [[[i item]|] w1|e w1|]; done.
Qed.

(** X12. [unschedule_download]. When no entry of the schedule is the
    download's, it returns [False] and changes nothing. Otherwise it
    returns [True]: the first entry of the download is gone, the other
    entries are all there, and the schedule is a heap again, whatever
    it was before; nothing else changes. *)
Theorem unschedule_download_removes_first (w : World.t) (download_id : string) :
  schedule_valid w →
  (¬ is_scheduled_id w download_id →
   run (DownloadScheduler.unschedule_download download_id) w = Returns false w) ∧
  (is_scheduled_id w download_id →
   ∃ (i : nat) w',
     first_scheduled_at w download_id i ∧
     run (DownloadScheduler.unschedule_download download_id) w = Returns true w' ∧
     World.scheduled_downloads w' ≡ₚ delete i (World.scheduled_downloads w) ∧
     heap_ordered ScheduledItem.lt (World.scheduled_downloads w') ∧
     World.objects w' = World.objects w ∧
     World.download_queue w' = World.download_queue w).
Proof.
  intros Hvalid. rewrite unschedule_download_run.
  destruct (find_from_spec (World.scheduled_downloads w) 0 download_id [SchedulerLock] w Hvalid)
    as [(k & item & x & -> & Hk & Hx & Hid & Hfirst)|[-> Hnone]].
  - split.
    + intros Hnot. destruct Hnot. exists item, x.
      split_and!; [by eapply list_elem_of_lookup_2 | done | done].
    + intros _. exists k. eexists. split_and!; [| reflexivity | | | done | done].
      * split; [by exists item, x | done].
      * cbn. apply heapify_spec;
          [apply scheduled_lt_irrefl | apply scheduled_lt_trans | apply scheduled_lt_mid_trans].
      * cbn. apply heapify_spec;
          [apply scheduled_lt_irrefl | apply scheduled_lt_trans | apply scheduled_lt_mid_trans].
  - split; [done|]. intros (item & x & Hin & Hx & Hid). by destruct (Hnone item x).
Qed.

(** In a heap whose times are all numbers the first entry is the
    earliest. *)
Lemma schedule_first_earliest items first :
  heap_ordered ScheduledItem.lt items → times_are_numbers items →
  items !! 0%nat = Some first →
  ∀ item, item ∈ items →
          Py.le (ScheduledItem.scheduled_time first) (ScheduledItem.scheduled_time item) = true.
Proof.
  intros Hheap Hnum Hfirst item Hin. unfold times_are_numbers in Hnum.
  rewrite Forall_forall in Hnum.
  pose proof (Hnum first (list_elem_of_lookup_2 _ _ _ Hfirst)) as Hf.
  pose proof (Hnum item Hin) as Hi.
  apply list_elem_of_lookup in Hin as [j Hj].
  pose proof (heap_root_least ScheduledItem.lt scheduled_lt_irrefl items first
                (λ a b c _ Hb _, scheduled_lt_neg_trans a b c (Hnum b Hb)) Hheap Hfirst j item Hj)
    as Hlt.
  unfold ScheduledItem.lt in Hlt.
  destruct (ScheduledItem.scheduled_time first) as [f|]; [|done].
  destruct (ScheduledItem.scheduled_time item) as [i|]; [|done].
  cbn [Py.lt Py.le] in *. apply float_le_true. by apply float_lt_false.
Qed.

(** X13. [get_next_scheduled_time] returns [None] for an empty schedule
    and otherwise the time of its first entry. When the schedule is a
    heap and none of its times is NaN, that is the earliest of the times
    scheduled. *)
Theorem get_next_scheduled_time_earliest (w : World.t) :
  heap_ordered ScheduledItem.lt (World.scheduled_downloads w) →
  (World.scheduled_downloads w = [] →
   run DownloadScheduler.get_next_scheduled_time w = Returns None w) ∧
  (World.scheduled_downloads w ≠ [] →
   ∃ first,
     World.scheduled_downloads w !! 0%nat = Some first ∧
     run DownloadScheduler.get_next_scheduled_time w
       = Returns (Some (ScheduledItem.scheduled_time first)) w ∧
     (times_are_numbers (World.scheduled_downloads w) →
      ∀ item, item ∈ World.scheduled_downloads w →
              Py.le (ScheduledItem.scheduled_time first) (ScheduledItem.scheduled_time item)
              = true)).
Proof.
  intros Hheap. unfold run, DownloadScheduler.get_next_scheduled_time, with_lock.
  rewrite bool_decide_eq_false_2 by apply not_elem_of_nil. unfold gets. split.
  - by intros ->.
  - intros Hne. destruct (World.scheduled_downloads w) as [|first rest] eqn:Hitems; [done|].
    exists first. split_and!; [done | done |].
    intros Hnum. by apply schedule_first_earliest.
Qed.

Lemma release_due_run w :
  run (DownloadScheduler.release_due DownloadManager._start_scheduled_download) w
  = match World.scheduled_downloads w !! 0%nat with
    | None => Returns () w
    | Some next_item =>
        let w1 := World.set_ticks (S (World.ticks w)) w in
        if Py.le (ScheduledItem.scheduled_time next_item) (Py.Finite (clock (World.ticks w)))
        then
          match heapq.heappop ScheduledItem.lt (World.scheduled_downloads w) with
          | Some (item, rest) =>
              try_except (DownloadManager._start_scheduled_download (ScheduledItem.task item))
                (λ _, mret ()) [SchedulerLock] (World.set_scheduled_downloads rest w1)
          | None => Returns () w1
          end
        else Returns () w1
    end.
Proof.
  unfold run, DownloadScheduler.release_due, DownloadScheduler.with_condition, with_lock.
  rewrite bool_decide_eq_false_2 by apply not_elem_of_nil.
  rewrite bind_run. unfold gets at 1.
  destruct (World.scheduled_downloads w !! 0%nat) as [next_item|]; [|done].
  rewrite bind_run. unfold time_time at 1. cbv zeta.
  destruct (Py.le _ _); [|done].
  destruct (heapq.heappop _ _) as [[item rest]|]; [|done].
  by rewrite bind_run.
Qed.

(** X14. One turn of the scheduler's loop, with the manager's callback.
    With an empty schedule nothing changes. With a first entry whose
    time is not at or before the reading of the clock (it is ahead of
    it, or NaN) nothing is released: schedule, queue and tasks are as
    they were. With a first entry that is due, that entry leaves the
    schedule, the rest is a heap of the other entries, and its task is
    put in the download queue with the status Queued; when none of the
    times scheduled is NaN the entry is the earliest of the schedule. *)
Theorem scheduler_turn_releases_due (w : World.t) :
  heap_ordered ScheduledItem.lt (World.scheduled_downloads w) →
  schedule_valid w →
  (World.scheduled_downloads w = [] →
   run (DownloadScheduler.release_due DownloadManager._start_scheduled_download) w
   = Returns () w) ∧
  (∀ first, World.scheduled_downloads w !! 0%nat = Some first →
     Py.le (ScheduledItem.scheduled_time first) (Py.Finite (clock (World.ticks w))) = false →
     ∃ w',
       run (DownloadScheduler.release_due DownloadManager._start_scheduled_download) w
       = Returns () w' ∧
       World.scheduled_downloads w' = World.scheduled_downloads w ∧
       World.download_queue w' = World.download_queue w ∧
       World.objects w' = World.objects w) ∧
  (∀ first, World.scheduled_downloads w !! 0%nat = Some first →
     Py.le (ScheduledItem.scheduled_time first) (Py.Finite (clock (World.ticks w))) = true →
     ∃ w' rest x,
       run (DownloadScheduler.release_due DownloadManager._start_scheduled_download) w
       = Returns () w' ∧
       World.scheduled_downloads w' = rest ∧
       World.scheduled_downloads w ≡ₚ first :: rest ∧
       heap_ordered ScheduledItem.lt rest ∧
       (times_are_numbers (World.scheduled_downloads w) →
        ∀ item, item ∈ World.scheduled_downloads w →
                Py.le (ScheduledItem.scheduled_time first) (ScheduledItem.scheduled_time item)
                = true) ∧
       World.objects w !! ScheduledItem.task first = Some x ∧
       World.download_queue w'
       = DownloadManager.put (World.download_queue w)
           (QueuedDownload.mk (DownloadTask.priority x) (ScheduledItem.task first)) ∧
       World.objects w' !! ScheduledItem.task first
       = Some (DownloadTask.set_status QUEUED x)).
Proof.
  intros Hheap Hvalid. rewrite release_due_run. split_and!.
  - by intros ->.
  - intros first Hfirst Hlt. rewrite Hfirst. cbv zeta. rewrite Hlt. by eexists.
  - intros first Hfirst Hle. rewrite Hfirst. cbv zeta. rewrite Hle.
    destruct (heapq.heappop ScheduledItem.lt (World.scheduled_downloads w))
      as [[item rest]|] eqn:Hpop; last first.
    { apply (heappop_None ScheduledItem.lt) in Hpop. by rewrite Hpop in Hfirst. }
    apply (heappop_heap ScheduledItem.lt scheduled_lt_irrefl scheduled_lt_trans
             scheduled_lt_mid_trans) in Hpop as (Hitem & Hrest & Hperm); [|done].
    rewrite Hfirst in Hitem. injection Hitem as <-.
    assert (is_Some (World.objects w !! ScheduledItem.task first)) as [x Hx].
    { unfold schedule_valid in Hvalid. rewrite Forall_forall in Hvalid.
      apply Hvalid. by eapply list_elem_of_lookup_2. }
    unfold try_except, DownloadManager._start_scheduled_download.
    rewrite (queue_download_run _ x) by (done || (apply not_elem_of_cons; split;
      [discriminate | apply not_elem_of_nil])).
    eexists _, rest, x. split; [reflexivity|].
    split_and!; [by unfold queued, saved; case_bool_decide | done | done | | done | |].
    + intros Hnum. by apply schedule_first_earliest.
    + by unfold queued, saved; case_bool_decide.
    + unfold queued, saved. case_bool_decide; cbn; by rewrite lookup_alter_eq, Hx.
Qed.

Lemma schedule_download_after_run task x delay_seconds w :
  World.objects w !! task = Some x →
  run (DownloadScheduler.schedule_download_after task delay_seconds) w
  = DownloadScheduler.schedule_download task []
      (World.set_objects
         (alter (DownloadTask.set_scheduled_time
                   (Some (Py.Finite (clock (World.ticks w) + inject_Z delay_seconds)%Q)))
            task (World.objects w))
         (World.set_ticks (S (World.ticks w)) w)).
Proof.
  intros Hx. unfold run, DownloadScheduler.schedule_download_after.
  rewrite bind_run. unfold time_time at 1. cbv zeta. rewrite bind_run.
  reflexivity.
Qed.

(** X15. [schedule_download_after(task, delay_seconds)] stores the
    reading of the clock plus the delay as the task's scheduled time,
    whatever it then returns. With a delay that is not positive, and a
    clock that does not run backwards, it returns [False] and the
    schedule is unchanged. With a delay that reaches beyond the next
    reading of the clock it returns [True] and the task is in the
    schedule at that time. *)
Theorem schedule_download_after_delay (w : World.t) (task : nat) (x : DownloadTask.t)
    (delay_seconds : Z) :
  World.objects w !! task = Some x →
  ((delay_seconds ≤ 0)%Z → (clock (World.ticks w) <= clock (S (World.ticks w)))%Q →
   ∃ w',
     run (DownloadScheduler.schedule_download_after task delay_seconds) w = Returns false w' ∧
     World.scheduled_downloads w' = World.scheduled_downloads w ∧
     World.objects w' !! task
     = Some (DownloadTask.set_scheduled_time
               (Some (Py.Finite (clock (World.ticks w) + inject_Z delay_seconds)%Q)) x)) ∧
  ((clock (S (World.ticks w)) < clock (World.ticks w) + inject_Z delay_seconds)%Q →
   ∃ w',
     run (DownloadScheduler.schedule_download_after task delay_seconds) w = Returns true w' ∧
     World.scheduled_downloads w'
     = heapq.heappush ScheduledItem.lt (World.scheduled_downloads w)
         (ScheduledItem.mk (Py.Finite (clock (World.ticks w) + inject_Z delay_seconds)%Q) task) ∧
     World.objects w' !! task
     = Some (DownloadTask.set_scheduled_time
               (Some (Py.Finite (clock (World.ticks w) + inject_Z delay_seconds)%Q)) x)).
Proof.
  intros Hx. rewrite (schedule_download_after_run _ x) by done.
  set (s := (clock (World.ticks w) + inject_Z delay_seconds)%Q).
  rewrite (schedule_download_unfold _ _ _ (DownloadTask.set_scheduled_time (Some (Py.Finite s)) x))
    by (cbn; by rewrite lookup_alter_eq, Hx).
  cbn [DownloadTask.scheduled_time DownloadTask.set_scheduled_time Py.truthy_float default
         from_option id World.ticks World.set_objects World.set_ticks Py.le].
  split.
  - intros Hdelay Hclock.
    destruct (Qeq_bool s 0); cbn [negb].
    + eexists. split_and!; [done | done |]. cbn. by rewrite lookup_alter_eq, Hx.
    + assert (Py.float_le s (clock (S (World.ticks w))) = true) as ->.
      { apply float_le_true. unfold s.
        assert (inject_Z delay_seconds <= 0)%Q by (unfold Qle; simpl; lia). lra. }
      eexists. split_and!; [done | done |]. cbn. by rewrite lookup_alter_eq, Hx.
  - intros Hlt. pose proof (clock_after_epoch (S (World.ticks w))) as Hnow.
    assert (Qeq_bool s 0 = false) as ->.
    { destruct (Qeq_bool s 0) eqn:Heq; [|done]. apply Qeq_bool_iff in Heq. lra. }
    cbn [negb]. apply float_le_false in Hlt. rewrite Hlt.
    rewrite bool_decide_eq_false_2 by apply not_elem_of_nil.
    eexists. split_and!; [done | done |]. cbn. by rewrite lookup_alter_eq, Hx.
Qed.

Lemma item_eqb_refl a :
  ScheduledItem.scheduled_time a ≠ Py.NaN → DownloadScheduler.item_eqb a a = true.
Proof.
  intros Hnum. unfold DownloadScheduler.item_eqb. rewrite Nat.eqb_refl, andb_true_r.
  destruct (ScheduledItem.scheduled_time a); [|done]. by apply Qeq_bool_iff.
Qed.

Lemma item_eqb_older a b cutoff_time :
  DownloadScheduler.item_eqb a b = true →
  Py.lt (ScheduledItem.scheduled_time a) (Py.Finite cutoff_time)
  = Py.lt (ScheduledItem.scheduled_time b) (Py.Finite cutoff_time).
Proof.
  unfold DownloadScheduler.item_eqb. intros [Heq _]%andb_true_iff.
  destruct (ScheduledItem.scheduled_time a) as [ta|], (ScheduledItem.scheduled_time b) as [tb|];
    try done.
  cbn [Py.eqb Py.lt] in *. apply Qeq_bool_iff in Heq.
  destruct (Py.float_lt tb cutoff_time) eqn:Hb.
  - apply float_lt_true in Hb. apply float_lt_true. by rewrite Heq.
  - apply float_lt_false in Hb. apply float_lt_false. by rewrite Heq.
Qed.

Lemma older_is_number a cutoff_time :
  Py.lt (ScheduledItem.scheduled_time a) (Py.Finite cutoff_time) = true →
  ScheduledItem.scheduled_time a ≠ Py.NaN.
Proof. by destruct (ScheduledItem.scheduled_time a). Qed.

Lemma list_remove_app pre item items :
  ScheduledItem.scheduled_time item ≠ Py.NaN →
  (∀ e, e ∈ pre → DownloadScheduler.item_eqb e item = false) →
  DownloadScheduler.list_remove (pre ++ item :: items) item = Some (pre ++ items).
Proof.
  intros Hnum.
  induction pre as [|e pre IH]; intros Hpre; cbn [app DownloadScheduler.list_remove].
  - by rewrite item_eqb_refl.
  - rewrite (Hpre e) by apply list_elem_of_here.
    rewrite IH; [done|]. intros e' He'. apply Hpre. by apply list_elem_of_further.
Qed.

(** The loop of [cleanup_old_schedules] removes the old entries one by
    one, each of them being found, and counts them. *)
Lemma remove_each_run cutoff_time items pre removed_count held w :
  World.scheduled_downloads w = pre ++ items →
  (∀ e, e ∈ pre → Py.lt (ScheduledItem.scheduled_time e) (Py.Finite cutoff_time) = false) →
  DownloadScheduler.remove_each
    (List.filter (λ item, Py.lt (ScheduledItem.scheduled_time item) (Py.Finite cutoff_time)) items)
    removed_count held w
  = Returns
      (removed_count
       + Z.of_nat (length (List.filter
                             (λ item, Py.lt (ScheduledItem.scheduled_time item) (Py.Finite cutoff_time))
                             items)))%Z
      (World.set_scheduled_downloads
         (pre ++ List.filter
                   (λ item, negb (Py.lt (ScheduledItem.scheduled_time item) (Py.Finite cutoff_time)))
                   items) w).
Proof.
  revert pre removed_count w. induction items as [|item items IH];
    intros pre removed_count w Hw Hpre; cbn [List.filter].
  - cbn [DownloadScheduler.remove_each length]. rewrite ret_run, Z.add_0_r.
    rewrite <- Hw. by destruct w.
  - destruct (Py.lt (ScheduledItem.scheduled_time item) (Py.Finite cutoff_time)) eqn:Hold;
      cbn [negb].
    + cbn [DownloadScheduler.remove_each]. rewrite bind_run. unfold gets at 1.
      rewrite Hw, list_remove_app; [|by eapply older_is_number|]; last first.
      { intros e He. destruct (DownloadScheduler.item_eqb e item) eqn:Heq; [|done].
        apply (item_eqb_older _ _ cutoff_time) in Heq. rewrite (Hpre e He) in Heq. congruence. }
      rewrite bind_run. unfold modify at 1.
      rewrite (IH pre) by done. cbn [length]. f_equal; lia.
    + replace (pre ++ item :: List.filter
                 (λ item, negb (Py.lt (ScheduledItem.scheduled_time item) (Py.Finite cutoff_time)))
                 items)
        with ((pre ++ [item]) ++ List.filter
               (λ item, negb (Py.lt (ScheduledItem.scheduled_time item) (Py.Finite cutoff_time)))
               items) by (by rewrite <- app_assoc).
      apply IH; [by rewrite <- app_assoc|].
      intros e He. apply elem_of_app in He as [He|He%list_elem_of_singleton]; [by apply Hpre|].
      by subst.
Qed.

(** X16. [cleanup_old_schedules(max_age_hours)] removes from the
    schedule the entries whose time lies more than [max_age_hours] hours
    before the reading of the clock, and returns their number; the
    entries left are the others, and they are a heap if the schedule was
    one; no task changes. *)
Theorem cleanup_old_schedules_removes (max_age_hours : Z) (w : World.t) :
  ∃ w',
    run (DownloadScheduler.cleanup_old_schedules max_age_hours) w
    = Returns
        (Z.of_nat
           (length
              (List.filter
                 (λ item, Py.lt (ScheduledItem.scheduled_time item)
                            (Py.Finite (clock (World.ticks w) - inject_Z (max_age_hours * 3600))%Q))
                 (World.scheduled_downloads w)))) w' ∧
    World.scheduled_downloads w'
    ≡ₚ List.filter
         (λ item, negb (Py.lt (ScheduledItem.scheduled_time item)
                          (Py.Finite (clock (World.ticks w) - inject_Z (max_age_hours * 3600))%Q)))
         (World.scheduled_downloads w) ∧
    (heap_ordered ScheduledItem.lt (World.scheduled_downloads w) →
     heap_ordered ScheduledItem.lt (World.scheduled_downloads w')) ∧
    World.objects w' = World.objects w.
Proof.
  unfold run, DownloadScheduler.cleanup_old_schedules. rewrite bind_run.
  unfold time_time at 1. cbv zeta.
  set (cutoff_time := (clock (World.ticks w) - inject_Z (max_age_hours * 3600))%Q).
  unfold DownloadScheduler.with_condition, with_lock.
  rewrite bool_decide_eq_false_2 by apply not_elem_of_nil.
  rewrite bind_run. unfold gets at 1. rewrite bind_run.
  rewrite (remove_each_run cutoff_time (World.scheduled_downloads w) []) by
    (done || (intros e He; by apply elem_of_nil in He)).
  cbn [World.scheduled_downloads World.set_ticks app]. rewrite Z.add_0_l, bind_run.
  set (old := List.filter _ (World.scheduled_downloads w)).
  set (kept := List.filter _ (World.scheduled_downloads w)).
  destruct (Z.ltb_spec 0 (Z.of_nat (length old))) as [Hpos|Hzero].
  - unfold modify at 1. rewrite ret_run. eexists. split; [reflexivity|]. cbn.
    split_and!; [| intros _ | done];
      apply heapify_spec;
      [apply scheduled_lt_irrefl | apply scheduled_lt_trans | apply scheduled_lt_mid_trans
      | apply scheduled_lt_irrefl | apply scheduled_lt_trans | apply scheduled_lt_mid_trans].
  - rewrite !ret_run. eexists. split; [reflexivity|]. cbn. split_and!; [done | | done].
    assert (old = []) as Hold by (destruct old; [done | simpl in Hzero; lia]).
    assert (kept = World.scheduled_downloads w) as ->; [|done].
    unfold kept. unfold old in Hold.
    pose proof (proj1 (filter_nil_forall _ _) Hold) as Hall.
    clear -Hall. induction (World.scheduled_downloads w) as [|item items IH]; [done|].
    cbn [List.filter]. rewrite (Hall item) by apply list_elem_of_here. cbn [negb].
    f_equal. apply IH. intros x Hx. apply Hall. by apply list_elem_of_further.
Qed.

End scheduler_more.

Section scheduler_more_examples.
Local Open Scope Q_scope.

(** A schedule with the one example task, due at 2000, which is in it
    under its id. *)
Lemma unschedule_download_removes_first_witness :
  ∃ w',
    run (DownloadScheduler.unschedule_download "0123456789ab")
      (world_scheduled (scheduled_task 2000)) = Returns true w' ∧
    World.scheduled_downloads w' = [].
Proof.
  destruct (proj2 (unschedule_download_removes_first
                     (world_scheduled (scheduled_task 2000)) "0123456789ab"
                     ltac:(repeat constructor; by eexists)))
    as (i & w' & Hfirst & Hrun & Hperm & _).
  - eexists _, _. split_and!; [apply list_elem_of_here | reflexivity | reflexivity].
  - exists w'. split; [exact Hrun|].
    destruct Hfirst as [(item & x & Hi & _) _]. destruct i as [|i]; [|done].
    cbn in Hperm. by apply Permutation_nil_r in Hperm.
Defined.

Lemma world_three_scheduled_heap :
  heap_ordered ScheduledItem.lt (World.scheduled_downloads world_three_scheduled).
Proof.
  intros [|[|[|[|j]]]] c p Hj Hc Hp; try lia; try done;
    vm_compute in Hc, Hp; by simplify_eq.
Qed.

Lemma world_three_scheduled_valid : schedule_valid world_three_scheduled.
Proof. repeat constructor; by eexists. Qed.

Lemma world_three_scheduled_numbers :
  times_are_numbers (World.scheduled_downloads world_three_scheduled).
Proof. repeat constructor; discriminate. Qed.

(** The schedule of three entries: its next time is 900, and that is
    before the 2500 of its last entry. *)
Lemma get_next_scheduled_time_earliest_witness :
  run DownloadScheduler.get_next_scheduled_time world_three_scheduled
  = Returns (Some (Py.Finite 900)) world_three_scheduled ∧
  Py.le (Py.Finite 900) (Py.Finite 2500) = true.
Proof.
  destruct (proj2 (get_next_scheduled_time_earliest world_three_scheduled
                     world_three_scheduled_heap))
    as (first & Hfirst & Hrun & Hleast).
  - discriminate.
  - injection Hfirst as <-. split; [exact Hrun|].
    apply (Hleast world_three_scheduled_numbers (ScheduledItem.mk (Py.Finite 2500) 0%nat)).
    do 2 apply list_elem_of_further. apply list_elem_of_here.
Defined.

(** At time 1000 the entry at 900 is due: it leaves the schedule of
    three entries, and its task is queued. *)
Lemma scheduler_turn_releases_due_witness :
  ∃ w' rest,
    run (@DownloadScheduler.release_due example_externals
           (@DownloadManager._start_scheduled_download example_externals))
      world_three_scheduled = Returns () w' ∧
    World.scheduled_downloads w' = rest ∧
    World.scheduled_downloads world_three_scheduled
    ≡ₚ ScheduledItem.mk (Py.Finite 900) 0%nat :: rest ∧
    World.download_queue w' = [QueuedDownload.mk 0 0%nat] ∧
    World.objects w' !! 0%nat = Some (DownloadTask.set_status QUEUED (scheduled_task 900)).
Proof.
  destruct (proj2 (proj2 (@scheduler_turn_releases_due example_externals
                            world_three_scheduled
                            world_three_scheduled_heap world_three_scheduled_valid))
              (ScheduledItem.mk (Py.Finite 900) 0%nat) eq_refl)
    as (w' & rest & x & Hrun & Hschedule & Hperm & _ & _ & Hx & Hqueue & Hstatus).
  - reflexivity.
  - injection Hx as <-. exists w', rest.
    split_and!; [exact Hrun | exact Hschedule | exact Hperm | exact Hqueue | exact Hstatus].
Defined.

(** At time 1000, a delay of one hour. *)
Lemma schedule_download_after_delay_witness :
  ∃ w',
    run (@DownloadScheduler.schedule_download_after example_externals 0%nat 3600)
      (world_with (example_task "http://example.com/file.bin" "file.bin"))
    = Returns true w' ∧
    World.scheduled_downloads w' = [ScheduledItem.mk (Py.Finite (1000 + 3600)) 0%nat].
Proof.
  destruct (proj2 (@schedule_download_after_delay example_externals
                     (world_with (example_task "http://example.com/file.bin" "file.bin"))
                     0%nat (example_task "http://example.com/file.bin" "file.bin") 3600
                     eq_refl))
    as (w' & Hrun & Hschedule & _).
  - reflexivity.
  - exists w'. split; [exact Hrun | exact Hschedule].
Defined.

End scheduler_more_examples.

(** ** Evaluating a method *)

(** The fields of a state that a setter has just written or left. *)
Ltac world_simpl :=
  cbn [World.objects World.next_ref World.ticks World.files World.requests_sent
       World.db_downloads World.db_download_parts World.scheduled_downloads
       World.condition_notified World.engine_active_downloads World.download_threads
       World.stop_events World.progress_data World.download_queue World.active_downloads
       World.all_downloads World.status_callbacks_called World.progress_callbacks_called
       World.notifier_called World.last_db_update
       World.set_objects World.set_next_ref World.set_ticks World.set_files
       World.set_requests_sent World.set_db_downloads World.set_db_download_parts
       World.set_scheduled_downloads World.set_condition_notified
       World.set_engine_active_downloads World.set_download_threads World.set_stop_events
       World.set_progress_data World.set_download_queue World.set_active_downloads
       World.set_all_downloads World.set_status_callbacks_called
       World.set_progress_callbacks_called World.set_notifier_called
       World.set_last_db_update].

Ltac world_simpl_in H :=
  cbn [World.objects World.next_ref World.ticks World.files World.requests_sent
       World.db_downloads World.db_download_parts World.scheduled_downloads
       World.condition_notified World.engine_active_downloads World.download_threads
       World.stop_events World.progress_data World.download_queue World.active_downloads
       World.all_downloads World.status_callbacks_called World.progress_callbacks_called
       World.notifier_called World.last_db_update
       World.set_objects World.set_next_ref World.set_ticks World.set_files
       World.set_requests_sent World.set_db_downloads World.set_db_download_parts
       World.set_scheduled_downloads World.set_condition_notified
       World.set_engine_active_downloads World.set_download_threads World.set_stop_events
       World.set_progress_data World.set_download_queue World.set_active_downloads
       World.set_all_downloads World.set_status_callbacks_called
       World.set_progress_callbacks_called World.set_notifier_called
       World.set_last_db_update] in H.

(** The steps of a method that read or write the state, run. *)
Lemma gets_run {A} (f : World.t → A) held w : gets f held w = Returns (f w) w.
Proof. done. Qed.

Lemma modify_run f held w : modify f held w = Returns () (f w).
Proof. done. Qed.

Lemma update_run r f held w :
  update r f held w = Returns () (World.set_objects (alter f r (World.objects w)) w).
Proof. done. Qed.

Lemma time_time_run {env : Externals} held w :
  time_time held w = Returns (clock (World.ticks w)) (World.set_ticks (S (World.ticks w)) w).
Proof. done. Qed.

Lemma deref_run r x held w : World.objects w !! r = Some x → deref r held w = Returns x w.
Proof. intros Hx. unfold deref. by rewrite Hx. Qed.

Lemma with_lock_run {A} l (body : M A) held w :
  l ∉ held → with_lock l body held w = body (l :: held) w.
Proof. intros Hl. unfold with_lock. by rewrite bool_decide_eq_false_2. Qed.

Ltac run_prims :=
  repeat
    (progress
       (rewrite ?bind_run, ?ret_run, ?raise_run, ?gets_run, ?modify_run, ?update_run,
          ?time_time_run;
        cbv beta iota)).

Lemma status_change_only_refl w : status_change_only w w.
Proof. by repeat split. Qed.

Lemma status_change_only_trans w1 w2 w3 :
  status_change_only w1 w2 → status_change_only w2 w3 → status_change_only w1 w3.
Proof.
  unfold status_change_only. intros H12 H23. destruct_and!. split_and!; congruence.
Qed.

(** Steps that write only what [_on_status_change] writes. *)
Ltac bookkeeping :=
  framing status_change_only_refl status_change_only_trans
    ltac:(by repeat split).

Section engine_facts.
Context {env : Externals}.
Local Open Scope Z_scope.





Lemma on_status_change_only task held :
  DatabaseLock ∉ held → ManagerLock ∉ held →
  frames status_change_only (DownloadManager._on_status_change task) held.
Proof.
  intros Hd Hm. unfold DownloadManager._on_status_change. bookkeeping.
Qed.

(** [_on_status_change] returns, for a task object that exists. *)
Lemma on_status_change_returns task held w :
  is_Some (World.objects w !! task) → DatabaseLock ∉ held → ManagerLock ∉ held →
  returns (DownloadManager._on_status_change task) held w (λ _ w', status_change_only w w').
Proof.
  intros Hx Hd Hm. pose proof (on_status_change_only task held Hd Hm w) as Hframe.
  assert (returns (DownloadManager._on_status_change task) held w (λ _ _, True)) as Hret.
  { by apply returns_on_status_change. }
  unfold outcome, returns in *. by destruct (DownloadManager._on_status_change task held w).
Qed.

(** X18. [_update_task_with_file_info] takes the size, the range
    support, the content type and the headers from the server's answer.
    A filename that is not empty and does not start with [download_] is
    kept, whatever name the server gives; a filename that is empty or
    starts with [download_] is replaced by the server's name when the
    server gives one that is not empty. The id, the URL and the status
    stay. *)
Theorem update_task_with_file_info_filename (w : World.t) (task : nat) (x : DownloadTask.t)
    (file_info : HTTPClient.FileInfo) (held : list Lock) :
  World.objects w !! task = Some x →
  ∃ w' x',
    DownloadEngine._update_task_with_file_info task file_info held w = Returns () w' ∧
    World.objects w' !! task = Some x' ∧
    DownloadTask.file_size x' = HTTPClient.fi_file_size file_info ∧
    DownloadTask.supports_range_requests x' = HTTPClient.fi_supports_range file_info ∧
    DownloadTask.content_type x' = Some (HTTPClient.fi_content_type file_info) ∧
    DownloadTask.headers x' = HTTPClient.fi_headers file_info ∧
    DownloadTask.id x' = DownloadTask.id x ∧
    DownloadTask.url x' = DownloadTask.url x ∧
    DownloadTask.status x' = DownloadTask.status x ∧
    DownloadTask.filename x'
    = (if String.eqb (DownloadTask.filename x) ""
          || String.prefix "download_" (DownloadTask.filename x)
       then match HTTPClient.fi_filename file_info with
            | Some server_filename =>
                if String.eqb server_filename "" then DownloadTask.filename x
                else server_filename
            | None => DownloadTask.filename x
            end
       else DownloadTask.filename x) ∧
    World.files w' = World.files w.
Proof.
  intros Hx. unfold DownloadEngine._update_task_with_file_info.
  run_prims. unfold deref at 1. world_simpl.
  rewrite !lookup_alter_eq, Hx. cbn [fmap option_fmap option_map]. cbv beta iota.
  destruct x as [xid xurl xfn xdest xfs xdb xst xca xsa xcoa xem xrc xmr xsr xp xnt xds xeta xpp
                   xct xh xck xiv xvq xsch xpr].
  cbn [DownloadTask.filename DownloadTask.set_file_size DownloadTask.set_supports_range_requests
         DownloadTask.set_content_type DownloadTask.set_headers].
  destruct (HTTPClient.fi_filename file_info) as [server_filename|]; last first.
  { rewrite ret_run. eexists _, _. split; [reflexivity|]. world_simpl.
    rewrite !lookup_alter_eq, Hx. split; [reflexivity|].
    destruct (String.eqb xfn "" || String.prefix "download_" xfn); by split_and!. }
  cbn [Py.truthy_str].
  destruct (String.eqb server_filename "") eqn:Hserver; cbn [negb andb].
  { rewrite ret_run. eexists _, _. split; [reflexivity|]. world_simpl.
    rewrite !lookup_alter_eq, Hx. split; [reflexivity|].
    destruct (String.eqb xfn "" || String.prefix "download_" xfn); by split_and!. }
  destruct (String.eqb xfn "" || String.prefix "download_" xfn) eqn:Hfallback.
  - run_prims. eexists _, _. split; [reflexivity|]. world_simpl.
    rewrite !lookup_alter_eq, Hx. split; [reflexivity|]. by split_and!.
  - rewrite ret_run. eexists _, _. split; [reflexivity|]. world_simpl.
    rewrite !lookup_alter_eq, Hx. split; [reflexivity|]. by split_and!.
Qed.

Lemma request_of_full x part :
  DownloadPart.end_byte part < DownloadPart.start_byte part + DownloadPart.downloaded_bytes part →
  DownloadEngine.request_of x part = None.
Proof.
  intros Hlt. unfold DownloadEngine.request_of.
  by destruct (Z.ltb_spec (DownloadPart.end_byte part)
                 (DownloadPart.start_byte part + DownloadPart.downloaded_bytes part)); [|lia].
Qed.

(** X19. A worker of a task that supports ranges and has more than one
    part sends at most one request. When the part has bytes left (the
    part's first byte plus the bytes it has already is not beyond its
    last byte) it sends one [GET] with the range from that position to
    the part's last byte; when it has none left it sends nothing. *)
Theorem download_part_range_request (w : World.t) (task : nat) (i : nat)
    (x : DownloadTask.t) (part : DownloadPart.t) :
  World.objects w !! task = Some x →
  DownloadTask.parts x !! i = Some part →
  DownloadTask.supports_range_requests x = true →
  (1 < length (DownloadTask.parts x))%nat →
  sends (if DownloadPart.end_byte part
            <? DownloadPart.start_byte part + DownloadPart.downloaded_bytes part
         then []
         else [GET (DownloadTask.url x)
                 (Some (DownloadPart.start_byte part + DownloadPart.downloaded_bytes part,
                        DownloadPart.end_byte part))])
    (DownloadEngine._download_part DownloadManager._on_progress_update task i) [] w.
Proof.
  intros Hx Hpart Hsr Hlen.
  pose proof (download_part_sends task i x part w Hx Hpart) as Hsends.
  destruct (Z.ltb_spec (DownloadPart.end_byte part)
              (DownloadPart.start_byte part + DownloadPart.downloaded_bytes part)) as [Hfull|Hle].
  - by rewrite (request_of_full x part Hfull) in Hsends.
  - by rewrite (request_of_many_parts x part Hsr Hlen Hle) in Hsends.
Qed.

Lemma parts_set_parts p x : DownloadTask.parts (DownloadTask.set_parts p x) = p.
Proof. by destruct x. Qed.

Lemma alter_status_twice s1 s2 (i : nat) part (parts : list DownloadPart.t) :
  parts !! i = Some part →
  alter (DownloadPart.set_status s2) i (alter (DownloadPart.set_status s1) i parts)
  = <[i := DownloadPart.set_status s2 part]> parts.
Proof.
  intros Hpart. apply list_eq. intros j. destruct (decide (j = i)) as [->|Hj].
  - rewrite !list_lookup_alter_eq, Hpart.
    rewrite list_lookup_insert_eq by (by eapply lookup_lt_Some).
    cbn [fmap option_fmap option_map]. by destruct part.
  - rewrite !list_lookup_alter_ne by done. by rewrite list_lookup_insert_ne by done.
Qed.

(** X20. A worker whose part has all its bytes already (the resume
    position is beyond the part's last byte) sends no request and writes
    no file: it marks the part completed and returns, whatever the
    progress callback is. *)
Theorem download_part_skips_full_part (progress_callback : nat → M unit) (w : World.t)
    (task : nat) (i : nat) (x : DownloadTask.t) (part : DownloadPart.t) :
  World.objects w !! task = Some x →
  DownloadTask.parts x !! i = Some part →
  DownloadPart.end_byte part < DownloadPart.start_byte part + DownloadPart.downloaded_bytes part →
  ∃ w',
    run (DownloadEngine._download_part progress_callback task i) w = Returns () w' ∧
    World.objects w'
    = <[task := DownloadTask.set_parts
                  (<[i := DownloadPart.set_status COMPLETED part]> (DownloadTask.parts x)) x]>
        (World.objects w) ∧
    World.requests_sent w' = World.requests_sent w ∧
    World.files w' = World.files w.
Proof.
  intros Hx Hpart Hfull. unfold run, DownloadEngine._download_part.
  rewrite bind_run, (deref_run task x) by done. rewrite Hpart.
  unfold try_except. rewrite (request_of_full x part Hfull).
  unfold DownloadEngine.update_part. run_prims.
  eexists. split; [reflexivity|]. world_simpl. split_and!; [|done..].
  apply map_eq. intros r. destruct (decide (r = task)) as [->|Hne].
  - rewrite !lookup_alter_eq, Hx, lookup_insert_eq. cbn [fmap option_fmap option_map].
    rewrite parts_set_parts, set_parts_twice.
    by rewrite (alter_status_twice _ _ i part).
  - rewrite !lookup_alter_ne by done. by rewrite lookup_insert_ne.
Qed.

Lemma cleanup_download_run task x w :
  World.objects w !! task = Some x →
  run (DownloadEngine._cleanup_download task) w
  = Returns ()
      (World.set_stop_events (delete (DownloadTask.id x) (World.stop_events w))
         (World.set_download_threads (delete (DownloadTask.id x) (World.download_threads w))
            (World.set_progress_data (delete (DownloadTask.id x) (World.progress_data w))
               (World.set_files
                  (foldl (λ files path, delete path files) (World.files w) (temp_paths x)) w)))).
Proof.
  intros Hx. unfold run, DownloadEngine._cleanup_download, try_except.
  rewrite bind_run, (deref_run task x) by done. fold (temp_paths x).
  rewrite bind_run, cleanup_temp_files_run.
  rewrite bind_run, with_lock_run by lock_free. run_prims. by world_simpl.
Qed.

(** X21. [_cleanup_download] returns, for a task object that exists:
    the temporary files of the task's parts are removed and every other
    file is as it was; the engine holds no progress data, thread list or
    stop event for the task any more. It leaves the task's attributes
    and the engine's set of active downloads as they are. *)
Theorem cleanup_download_removes (w : World.t) (task : nat) (x : DownloadTask.t) :
  World.objects w !! task = Some x →
  ∃ w',
    run (DownloadEngine._cleanup_download task) w = Returns () w' ∧
    (∀ path, World.files w' !! path
             = if bool_decide (path ∈ temp_paths x) then None else World.files w !! path) ∧
    World.progress_data w' !! DownloadTask.id x = None ∧
    World.download_threads w' !! DownloadTask.id x = None ∧
    World.stop_events w' !! DownloadTask.id x = None ∧
    World.objects w' = World.objects w ∧
    World.engine_active_downloads w' = World.engine_active_downloads w.
Proof.
  intros Hx. rewrite (cleanup_download_run task x w Hx).
  eexists. split; [reflexivity|]. world_simpl.
  split_and!; [|by rewrite lookup_delete_eq..|done|done].
  intros path. apply lookup_foldl_delete.
Qed.

Lemma filter_length_all {A} (f : A → bool) (l : list A) :
  length (List.filter f l) = length l → Forall (λ a, f a = true) l.
Proof.
  induction l as [|a l IH]; cbn [List.filter]; [by constructor|].
  destruct (f a) eqn:Hfa; cbn [length]; intros Hlen.
  - constructor; [done|]. apply IH. lia.
  - pose proof (List.filter_length_le f l). lia.
Qed.

Lemma stop_event_run task_id b held w :
  World.stop_events w !! task_id = Some b →
  DownloadEngine.stop_event task_id held w = Returns b w.
Proof.
  intros Hev. unfold DownloadEngine.stop_event. rewrite bind_run, gets_run, Hev. done.
Qed.

(** X22. A turn of the monitor of a running download (active, stop event
    clear) in which some part is not completed, while the task can still
    be retried, changes nothing and lets the loop go on, whatever the
    status of the parts: a part that has failed is neither started again
    nor reported as long as [retry_count] is below [max_retries]. *)
Theorem monitor_progress_waits (status_callback : nat → M unit) (w : World.t) (task : nat)
    (x : DownloadTask.t) (part : DownloadPart.t) :
  World.objects w !! task = Some x →
  DownloadTask.id x ∈ World.engine_active_downloads w →
  World.stop_events w !! DownloadTask.id x = Some false →
  part ∈ DownloadTask.parts x →
  DownloadPart.status part ≠ COMPLETED →
  DownloadTask.can_retry x = true →
  run (DownloadEngine._monitor_progress_turn status_callback task) w = Returns true w.
Proof.
  intros Hx Hactive Hev Hpart Hstatus Hretry.
  unfold run, DownloadEngine._monitor_progress_turn.
  rewrite bind_run, (deref_run task x) by done.
  rewrite bind_run, gets_run, bool_decide_eq_true_2 by done. cbn [negb].
  rewrite bind_run, (stop_event_run _ false) by done.
  unfold try_except.
  destruct (Nat.eqb_spec
              (length (List.filter (λ part, bool_decide (DownloadPart.status part = COMPLETED))
                         (DownloadTask.parts x)))
              (length (DownloadTask.parts x))) as [Hall|_].
  - apply filter_length_all in Hall. rewrite Forall_forall in Hall.
    apply Hall in Hpart. by apply bool_decide_eq_true_1 in Hpart.
  - by rewrite Hretry, andb_false_r.
Qed.

Lemma test_connection_run url held w :
  HTTPClient.test_connection url held w
  = Returns (match http_head url false with
             | Some response => head_status_code response <? 400
             | None => false
             end)
      (World.set_requests_sent (World.requests_sent w ++ [HEAD url false]) w).
Proof.
  unfold HTTPClient.test_connection, HTTPClient.send. rewrite bind_run, modify_run.
  by destruct (http_head url false).
Qed.

(** X23. The ways the engine's [start_download] refuses a task without
    calling the status callback. Of a task that is active already it
    returns [False] and changes nothing. Of a task with an empty URL it
    returns [False] after setting the task to the error [Invalid download
    task], and sends no request. Of a task whose URL does not answer the
    [HEAD] of [test_connection], or answers it with a status of 400 or
    above, it does the same after that one request. *)
Theorem engine_start_download_rejects (status_callback : nat → M unit) (w : World.t)
    (task : nat) (x : DownloadTask.t) :
  World.objects w !! task = Some x →
  (DownloadTask.id x ∈ World.engine_active_downloads w →
   run (DownloadEngine.start_download status_callback task) w = Returns false w) ∧
  (DownloadTask.id x ∉ World.engine_active_downloads w → DownloadTask.url x = ""%string →
   run (DownloadEngine.start_download status_callback task) w
   = Returns false
       (World.set_objects
          (alter (DownloadTask.error "Invalid download task") task (World.objects w)) w)) ∧
  (DownloadTask.id x ∉ World.engine_active_downloads w → DownloadTask.url x ≠ ""%string →
   match http_head (DownloadTask.url x) false with
   | Some response => 400 ≤ head_status_code response
   | None => True
   end →
   run (DownloadEngine.start_download status_callback task) w
   = Returns false
       (World.set_objects
          (alter (DownloadTask.error "Invalid download task") task (World.objects w))
          (World.set_requests_sent
             (World.requests_sent w ++ [HEAD (DownloadTask.url x) false]) w))).
Proof.
  intros Hx.
  assert (∀ rest handler,
            run (try_except
                   (x ← deref task;
                    active ← gets (λ w, bool_decide
                                          (DownloadTask.id x ∈ World.engine_active_downloads w));
                    if active : bool then mret false else rest x)
                   handler) w
            = if bool_decide (DownloadTask.id x ∈ World.engine_active_downloads w)
              then Returns false w
              else try_except (rest x) handler [] w) as Hhead.
  { intros rest handler. unfold run, try_except.
    rewrite bind_run, (deref_run task x) by done. rewrite bind_run, gets_run.
    by case_bool_decide. }
  unfold DownloadEngine.start_download. rewrite Hhead. split_and!.
  - intros Hactive. by rewrite bool_decide_eq_true_2.
  - intros Hactive Hurl. rewrite bool_decide_eq_false_2 by done.
    unfold try_except, DownloadEngine._validate_task.
    rewrite !bind_run, (deref_run task x) by done. rewrite Hurl. cbn [String.eqb].
    by run_prims.
  - intros Hactive Hurl Hdown. rewrite bool_decide_eq_false_2 by done.
    unfold try_except, DownloadEngine._validate_task.
    rewrite !bind_run, (deref_run task x) by done.
    destruct (String.eqb_spec (DownloadTask.url x) "") as [|_]; [done|].
    rewrite bind_run, test_connection_run.
    assert (match http_head (DownloadTask.url x) false with
            | Some response => head_status_code response <? 400
            | None => false
            end = false) as ->.
    { destruct (http_head (DownloadTask.url x) false); [|done]. by apply Z.ltb_ge. }
    cbn [negb]. by run_prims.
Qed.

End engine_facts.

Section engine_more_examples.
Local Open Scope Z_scope.


(** The name the user gave, [file.bin], is kept although the server
    names the file [served.bin]. *)
Lemma update_task_with_file_info_filename_witness :
  ∃ w' x',
    @DownloadEngine._update_task_with_file_info 0 example_file_info [] world_paused
    = Returns () w' ∧
    World.objects w' !! 0%nat = Some x' ∧
    DownloadTask.filename x' = "file.bin"%string.
Proof.
  destruct (update_task_with_file_info_filename world_paused 0 paused_task
              example_file_info [] eq_refl)
    as (w' & x' & Hrun & Hx' & _ & _ & _ & _ & _ & _ & _ & Hfilename & _).
  exists w', x'. split_and!; [exact Hrun | exact Hx' | exact Hfilename].
Defined.

(** The first part of the example task of two parts has 50 of its 100
    bytes: its worker asks for the bytes 50 to 99. *)
Lemma download_part_range_request_witness :
  sends [GET "http://example.com/file.bin" (Some (50, 99))]
    (@DownloadEngine._download_part example_externals
       (@DownloadManager._on_progress_update example_externals) 0 0) []
    (world_running (two_part_task 50 PAUSED)).
Proof.
  apply (@download_part_range_request example_externals
           (world_running (two_part_task 50 PAUSED)) 0%nat 0%nat (two_part_task 50 PAUSED)
           (DownloadPart.mk 0 0 99 50 PAUSED (Some example_temp_path)));
    [reflexivity | reflexivity | reflexivity | cbn; lia].
Defined.

(** The first part of the example task has its 100 bytes already. *)
Lemma download_part_skips_full_part_witness :
  ∃ w',
    run (@DownloadEngine._download_part example_externals
           (@DownloadManager._on_progress_update example_externals) 0 0)
      (world_running (two_part_task 100 PAUSED)) = Returns () w' ∧
    World.requests_sent w' = [] ∧
    World.files w' = ∅.
Proof.
  destruct (@download_part_skips_full_part example_externals
              (@DownloadManager._on_progress_update example_externals)
              (world_running (two_part_task 100 PAUSED)) 0%nat 0%nat (two_part_task 100 PAUSED)
              (DownloadPart.mk 0 0 99 100 PAUSED (Some example_temp_path))
              eq_refl eq_refl ltac:(cbn; lia))
    as (w' & Hrun & _ & Hrequests & Hfiles).
  exists w'. split_and!; [exact Hrun | exact Hrequests | exact Hfiles].
Defined.

(** The temporary file of the paused example download is removed. *)
Lemma cleanup_download_removes_witness :
  ∃ w',
    run (DownloadEngine._cleanup_download 0) world_paused = Returns () w' ∧
    World.files w' !! example_temp_path = None ∧
    World.stop_events w' !! "0123456789ab"%string = None.
Proof.
  destruct (cleanup_download_removes world_paused 0 paused_task eq_refl)
    as (w' & Hrun & Hfiles & _ & _ & Hstop & _).
  exists w'. split_and!; [exact Hrun | | exact Hstop].
  rewrite Hfiles. rewrite bool_decide_eq_true_2; [reflexivity|].
  apply list_elem_of_here.
Defined.

(** The first part of the example task has failed; the task has been
    retried 0 times of 3. *)
Lemma monitor_progress_waits_witness :
  run (@DownloadEngine._monitor_progress_turn example_externals
         (@DownloadManager._on_status_change example_externals) 0)
    (world_running (two_part_task 50 ERROR))
  = Returns true (world_running (two_part_task 50 ERROR)).
Proof.
  apply (@monitor_progress_waits example_externals
           (@DownloadManager._on_status_change example_externals)
           (world_running (two_part_task 50 ERROR)) 0%nat (two_part_task 50 ERROR)
           (DownloadPart.mk 0 0 99 50 ERROR (Some example_temp_path)));
    [reflexivity | cbn; by apply elem_of_singleton_2 | reflexivity | apply list_elem_of_here
    | discriminate | reflexivity].
Defined.

(** The example download that is running is not started again. *)
Lemma engine_start_download_rejects_witness :
  run (@DownloadEngine.start_download example_externals
         (@DownloadManager._on_status_change example_externals) 0)
    (world_running (two_part_task 50 DOWNLOADING))
  = Returns false (world_running (two_part_task 50 DOWNLOADING)).
Proof.
  apply (proj1 (@engine_start_download_rejects example_externals
                  (@DownloadManager._on_status_change example_externals)
                  (world_running (two_part_task 50 DOWNLOADING)) 0%nat
                  (two_part_task 50 DOWNLOADING) eq_refl)).
  cbn. by apply elem_of_singleton_2.
Defined.

End engine_more_examples.

(** ** The manager's callbacks and commands *)


Section manager_facts.
Context {env : Externals}.
Local Open Scope Z_scope.







End manager_facts.

Section manager_commands.
Context {env : Externals}.
Local Open Scope Z_scope.

Lemma notify_progress_callbacks_run task x held w :
  World.objects w !! task = Some x →
  DownloadManager._notify_progress_callbacks task held w
  = Returns () (World.set_progress_callbacks_called
                  (World.progress_callbacks_called w
                   ++ [(task, DownloadTask.downloaded_bytes x)]) w).
Proof.
  intros Hx. unfold DownloadManager._notify_progress_callbacks.
  by rewrite bind_run, (deref_run task x).
Qed.

(** X25. [_on_progress_update] writes the progress of a task to the
    database only when more than 5 seconds have passed since it last did
    so for this task, and then records the time; the first update of a
    task counts from time 0. In either case the progress callbacks are
    called, and the task itself is not changed. *)
Theorem on_progress_update_throttle (w : World.t) (task : nat) (x : DownloadTask.t) :
  World.objects w !! task = Some x →
  let current_time := clock (World.ticks w) in
  let last := default 0%Q (World.last_db_update w !! task) in
  ∃ w',
    run (DownloadManager._on_progress_update task) w = Returns () w' ∧
    World.objects w' = World.objects w ∧
    World.progress_callbacks_called w'
    = World.progress_callbacks_called w ++ [(task, DownloadTask.downloaded_bytes x)] ∧
    ((current_time - last <= 5)%Q →
     World.db_downloads w' = World.db_downloads w ∧
     World.last_db_update w' !! task = Some last) ∧
    ((5 < current_time - last)%Q →
     World.db_downloads w'
     = alter (λ row, <["downloaded_bytes" := Py.Int (DownloadTask.downloaded_bytes x)]>
                       (<["progress_percentage" :=
                            Py.Float (DownloadTask.progress_percentage x)]>
                          (<["download_speed" := Py.Float (DownloadTask.download_speed x)]>
                             (<["eta" := Py.Float (DownloadTask.eta x)]> row))))
         (DownloadTask.id x) (World.db_downloads w) ∧
     World.last_db_update w' !! task = Some current_time).
Proof.
  intros Hx current_time last. unfold run, DownloadManager._on_progress_update.
  rewrite bind_run, (deref_run task x) by done.
  rewrite bind_run, time_time_run. rewrite bind_run, gets_run. world_simpl.
  fold current_time last. rewrite bind_run, modify_run. world_simpl.
  rewrite bind_run.
  destruct (Py.float_lt 5 (current_time - last)) eqn:Hlt.
  - apply float_lt_true in Hlt.
    rewrite bind_run, update_download_progress_run by apply not_elem_of_nil.
    rewrite modify_run.
    erewrite notify_progress_callbacks_run by (world_simpl; exact Hx).
    eexists. split; [reflexivity|]. world_simpl. split_and!; [done | done | |].
    + intros Hle. exfalso. by apply (Qlt_not_le _ _ Hlt).
    + intros _. by rewrite lookup_insert_eq.
  - apply float_lt_false in Hlt. rewrite ret_run.
    erewrite notify_progress_callbacks_run by (world_simpl; exact Hx).
    eexists. split; [reflexivity|]. world_simpl. split_and!; [done | done | |].
    + intros _. by rewrite lookup_insert_eq.
    + intros Hlt'. exfalso. by apply (Qlt_not_le _ _ Hlt').
Qed.












(** X28. [add_download] of a URL that the validator rejects returns
    [None] and changes nothing: no task is made, saved, registered or
    queued, and no callback is called. *)
Theorem add_download_invalid_url (url : string) (filename destination : option string)
    (scheduled_time : option Py.float) (priority : Z) (w : World.t) :
  validators_url url = false →
  run (DownloadManager.add_download url filename destination scheduled_time priority) w
  = Returns None w.
Proof.
  intros Hurl. unfold run, DownloadManager.add_download, DownloadManager.add_download_body,
    try_except.
  rewrite !bind_run. rewrite Hurl. cbn [negb]. by rewrite raise_run.
Qed.

End manager_commands.

Lemma no_more_active_refl w : no_more_active w w.
Proof. unfold no_more_active. done. Qed.

Lemma no_more_active_trans w1 w2 w3 :
  no_more_active w1 w2 → no_more_active w2 w3 → no_more_active w1 w3.
Proof. unfold no_more_active. intros H12 H23. by transitivity (World.active_downloads w2). Qed.

(** Steps that add nothing to the manager's active downloads. *)
Ltac no_new_active :=
  framing no_more_active_refl no_more_active_trans
    ltac:(unfold no_more_active;
          repeat (match goal with
                  | |- context [match ?x with _ => _ end] => destruct x
                  end);
          world_simpl; first [reflexivity | apply delete_subseteq]).

Section queue_turn_facts.
Context {env : Externals}.
Local Open Scope Z_scope.

Lemma no_new_active_create_temp_files task task_id parts i held :
  frames no_more_active (DownloadEngine.create_temp_files task task_id parts i) held.
Proof.
  revert i. induction parts as [|part rest IH]; intros i; cbn [DownloadEngine.create_temp_files].
  - no_new_active.
  - unfold FileManager.create_temp_file. pose proof (IH (S i)). no_new_active.
Qed.

Lemma no_new_active_start_download_internal task held :
  ManagerLock ∉ held → DatabaseLock ∉ held → EngineLock ∉ held →
  frames no_more_active (DownloadManager._start_download_internal task) held.
Proof.
  intros Hm Hd He.
  unfold DownloadManager._start_download_internal, DownloadManager.engine_start_download,
    DownloadEngine.start_download, DownloadEngine._validate_task, HTTPClient.test_connection,
    DownloadEngine._get_file_info, HTTPClient.get_file_info, HTTPClient.send,
    DownloadEngine._update_task_with_file_info, DownloadEngine._check_disk_space,
    DownloadEngine._setup_download, DownloadEngine._start_download_threads,
    DownloadEngine._notify_status_change, DownloadManager._on_status_change,
    DatabaseManager.save_download, DatabaseManager._get_connection,
    DownloadManager.remove_active, DownloadManager.notify,
    DownloadManager._notify_status_callbacks.
  no_new_active. apply no_new_active_create_temp_files.
Qed.

(** X29. A turn of [_process_queue] returns, and never takes the number
    of the manager's active downloads above [max_concurrent_downloads]:
    when the number is at the cap or above, the turn takes nothing from
    the queue and changes nothing; below the cap it hands at most one
    task to the engine. *)
Theorem process_queue_turn_cap (w : World.t) :
  ∃ started w',
    run DownloadManager._process_queue_turn w = Returns started w' ∧
    Z.of_nat (size (World.active_downloads w'))
    ≤ Z.max (Z.of_nat (size (World.active_downloads w))) (max_concurrent_downloads settings) ∧
    (max_concurrent_downloads settings ≤ Z.of_nat (size (World.active_downloads w)) →
     started = None ∧ w' = w).
Proof.
  unfold run, DownloadManager._process_queue_turn. cbv zeta.
  rewrite bind_run, with_lock_run, gets_run by apply not_elem_of_nil.
  destruct (Z.leb_spec (max_concurrent_downloads settings)
              (Z.of_nat (size (World.active_downloads w)))) as [Hcap|Hroom].
  { rewrite ret_run. eexists _, _. split; [reflexivity|]. split; [lia | done]. }
  rewrite bind_run, gets_run.
  destruct (DownloadManager.get (World.download_queue w)) as [[queued_download rest]|].
  2:{ rewrite ret_run. eexists _, _. split; [reflexivity|]. split; [lia | intros; lia]. }
  rewrite bind_run, modify_run.
  set (w0 := World.set_download_queue rest w).
  set (task := QueuedDownload.task queued_download).
  unfold try_except. rewrite bind_run.
  pose proof (no_new_active_start_download_internal task []
                ltac:(apply not_elem_of_nil) ltac:(apply not_elem_of_nil)
                ltac:(apply not_elem_of_nil) w0) as Hstart.
  unfold outcome, no_more_active in Hstart.
  assert (∀ w1 : World.t, World.active_downloads w1 ⊆ World.active_downloads w0 →
            Z.of_nat (size (World.active_downloads w1))
            ≤ Z.of_nat (size (World.active_downloads w))) as Hsize.
  { intros w1 Hsub. apply map_subseteq_size in Hsub. unfold w0 in Hsub.
    world_simpl_in Hsub. lia. }
  destruct (DownloadManager._start_download_internal task [] w0) as [started w1|e w1|];
    [| |done].
  2:{ rewrite ret_run. eexists _, _. split; [reflexivity|].
      split; [specialize (Hsize w1 Hstart); lia | intros; lia]. }
  rewrite bind_run. unfold deref at 1.
  destruct (World.objects w1 !! task) as [x|].
  2:{ rewrite ret_run. eexists _, _. split; [reflexivity|].
      split; [specialize (Hsize w1 Hstart); lia | intros; lia]. }
  destruct started.
  - rewrite bind_run, with_lock_run, modify_run, ret_run by apply not_elem_of_nil.
    eexists _, _. split; [reflexivity|]. world_simpl. split; [|intros; lia].
    specialize (Hsize w1 Hstart).
    pose proof (map_size_insert (DownloadTask.id x) task (World.active_downloads w1)) as Hins.
    destruct (World.active_downloads w1 !! DownloadTask.id x); unfold id in Hins; lia.
  - rewrite bind_run, !ret_run. eexists _, _. split; [reflexivity|].
    split; [specialize (Hsize w1 Hstart); lia | intros; lia].
Qed.

End queue_turn_facts.




Section delete_facts.
Context {env : Externals}.
Local Open Scope Z_scope.





End delete_facts.

Section manager_examples.
Local Open Scope Z_scope.


(** The first progress update of the example task, at time 1000, is
    written to the database. *)
Lemma on_progress_update_throttle_witness :
  ∃ w',
    run (@DownloadManager._on_progress_update example_externals 0)
      (world_with (example_task "http://example.com/file.bin" "file.bin"))
    = Returns () w' ∧
    World.last_db_update w' !! 0%nat = Some (inject_Z 1000).
Proof.
  destruct (@on_progress_update_throttle example_externals
              (world_with (example_task "http://example.com/file.bin" "file.bin")) 0%nat
              (example_task "http://example.com/file.bin" "file.bin") eq_refl)
    as (w' & Hrun & _ & _ & _ & Hwrite).
  exists w'. split; [exact Hrun|]. apply Hwrite. reflexivity.
Defined.


(** A URL that does not start with [http], which the example validator
    rejects. *)
Lemma add_download_invalid_url_witness :
  run (@DownloadManager.add_download example_externals "not a url" None None None 0)
    World.empty
  = Returns None World.empty.
Proof.
  apply (@add_download_invalid_url example_externals "not a url" None None None 0 World.empty).
  reflexivity.
Defined.


End manager_examples.

(** ** The order in which the manager starts the queued downloads *)

Section queue_order_facts.
Context {env : Externals}.
Local Open Scope Z_scope.





End queue_order_facts.

Section queue_order_examples.
Local Open Scope Z_scope.



(** With an idle manager the order of C4's example is another: A,
    queued first, is taken by the next turn of [_process_queue], before
    B and C are queued; the turn after they are queued finds the one
    slot taken by A and leaves B and C waiting. *)
Lemma process_queue_idle_takes_first :
  ∃ w',
    run (@DownloadManager._queue_download single_slot_externals 0%nat ;;
         first ← @DownloadManager._process_queue_turn single_slot_externals;
         @DownloadManager._queue_download single_slot_externals 1%nat ;;
         @DownloadManager._queue_download single_slot_externals 2%nat ;;
         second ← @DownloadManager._process_queue_turn single_slot_externals;
         mret (first, second))
      world_three_tasks
    = Returns (Some 0%nat, None) w' ∧
    World.download_queue w' = [QueuedDownload.mk 10 1; QueuedDownload.mk 5 2] ∧
    World.active_downloads w' = {[ "http://example.com/a"%string := 0%nat ]}.
Proof. eexists. split_and!; vm_compute; reflexivity. Qed.

End queue_order_examples.
